(** * llm-chat-cli: the conversation session engine of [main.go]

    A shallow embedding of the program's data model ([MessageIn], [Message],
    [ResponseBody], ...), of its helper functions ([readUserInput],
    [saveConversationLog], [displayInitScreen], [loadConfig]) and of the
    control flow of [main], together with the parts of Go's [unicode/utf8],
    [strings], [encoding/json] and [flag] packages the program calls.

    A Go [string] is a sequence of bytes: it is modelled by [string], whose
    characters ([ascii]) are exactly the 256 byte values. *)

From Stdlib Require Import Bool Arith NArith ZArith Lia List Ascii String.
From Stdlib Require Import PrimFloat.
Import ListNotations.

Set Warnings "-register-all".

Local Open Scope list_scope.
Local Open Scope string_scope.

(** ** Bytes and the functions of package [strings] that [main.go] uses *)

Module GoString.

Definition b2n (c : ascii) : N := N_of_ascii c.
(** [byte(n)]: the conversion keeps the low eight bits. *)
Definition n2b (n : N) : ascii := ascii_of_N n.

Definition LF : ascii := "010"%char.
Definition CR : ascii := "013"%char.
Definition TAB : ascii := "009"%char.
Definition BS : ascii := "008"%char.
Definition FF : ascii := "012"%char.
Definition DQUOTE : ascii := "034"%char.
Definition BACKSLASH : ascii := "092"%char.

(** [s[n:]] for [n <= len(s)]. *)
Fixpoint drop (n : nat) (s : string) : string :=
  match n, s with
  | O, _ => s
  | S n', String _ s' => drop n' s'
  | S _, EmptyString => EmptyString
  end.

(** [s[:n]] for [n <= len(s)]. *)
Fixpoint take (n : nat) (s : string) : string :=
  match n, s with
  | O, _ => EmptyString
  | S n', String c s' => String c (take n' s')
  | S _, EmptyString => EmptyString
  end.

Definition HasSuffix (s suffix : string) : bool :=
  (length suffix <=? length s)%nat
  && String.eqb (drop (length s - length suffix) s) suffix.

(** [strings.TrimSuffix]: [s] without the trailing [suffix], or [s] itself
    when it does not end with [suffix]. *)
Definition TrimSuffix (s suffix : string) : string :=
  if HasSuffix s suffix then take (length s - length suffix) s else s.

(** [strings.Replace(s, old, new, -1)] for one-byte [old] and [new]. *)
Fixpoint ReplaceByte (s : string) (old new : ascii) : string :=
  match s with
  | EmptyString => EmptyString
  | String c s' =>
      String (if Ascii.eqb c old then new else c) (ReplaceByte s' old new)
  end.

(** [bufio.Reader.ReadString(delim)] on a reader whose remaining input is
    [input], a finite byte stream followed by end of file: the bytes up to
    and including the first [delim], the input left in the reader, and
    whether an error ([io.EOF]) is returned, which is the case exactly when
    the input ends before a [delim] is found. *)
Fixpoint ReadString (input : string) (delim : ascii)
  : string * string * bool :=
  match input with
  | EmptyString => (EmptyString, EmptyString, true)
  | String c rest =>
      if Ascii.eqb c delim then (String c EmptyString, rest, false)
      else
        let '(data, rest', err) := ReadString rest delim in
        (String c data, rest', err)
  end.

Fixpoint contains (s : string) (b : ascii) : bool :=
  match s with
  | EmptyString => false
  | String c s' => Ascii.eqb c b || contains s' b
  end.

(** Notation for texts that contain double quotes: [jsonText] of a
    string with apostrophes is that string with a double quote in the
    place of each apostrophe. *)
Fixpoint jsonText (s : string) : string :=
  match s with
  | EmptyString => EmptyString
  | String c s' =>
      String (if Ascii.eqb c "'" then DQUOTE else c) (jsonText s')
  end.

End GoString.

(** ** Package [unicode/utf8] *)

Module utf8.
Import GoString.
Local Open Scope N_scope.

Definition RuneError : N := 0xFFFD.
Definition RuneSelf : N := 0x80.
Definition MaxRune : N := 0x10FFFF.
Definition surrogateMin : N := 0xD800.
Definition surrogateMax : N := 0xDFFF.

Definition tx : N := 0x80.
Definition t2 : N := 0xC0.
Definition t3 : N := 0xE0.
Definition t4 : N := 0xF0.
Definition maskx : N := 0x3F.
Definition mask2 : N := 0x1F.
Definition mask3 : N := 0x0F.
Definition mask4 : N := 0x07.
Definition rune1Max : N := 0x7F.
Definition rune2Max : N := 0x7FF.
Definition rune3Max : N := 0xFFFF.
Definition locb : N := 0x80.
Definition hicb : N := 0xBF.

(** The table [first] with the accept range of each entry looked up:
    [as] (ASCII), [xx] (invalid), or the size of the sequence and the
    range allowed for its second byte ([s1] .. [s7]). *)
Inductive FirstInfo : Type :=
| ASCII
| Invalid
| Lead (size : nat) (lo hi : N).

Definition first (p0 : N) : FirstInfo :=
  if p0 <? 0x80 then ASCII
  else if p0 <? 0xC2 then Invalid
  else if p0 <? 0xE0 then Lead 2 locb hicb
  else if p0 =? 0xE0 then Lead 3 0xA0 hicb
  else if p0 <? 0xED then Lead 3 locb hicb
  else if p0 =? 0xED then Lead 3 locb 0x9F
  else if p0 <? 0xF0 then Lead 3 locb hicb
  else if p0 =? 0xF0 then Lead 4 0x90 hicb
  else if p0 <? 0xF4 then Lead 4 locb hicb
  else if p0 =? 0xF4 then Lead 4 locb 0x8F
  else Invalid.

Definition outside (b lo hi : N) : bool := (b <? lo) || (hi <? b).

(** [utf8.DecodeRune] (and [DecodeRuneInString]): the first rune of [p]
    and its width in bytes; [(RuneError, 1)] for an invalid encoding. *)
Definition DecodeRune (p : string) : N * nat :=
  match p with
  | EmptyString => (RuneError, 0%nat)
  | String c0 p1 =>
      let p0 := b2n c0 in
      match first p0 with
      | ASCII => (p0, 1%nat)
      | Invalid => (RuneError, 1%nat)
      | Lead sz lo hi =>
          if (length p <? sz)%nat then (RuneError, 1%nat) else
          match p1 with
          | EmptyString => (RuneError, 1%nat)
          | String c1 p2 =>
              let b1 := b2n c1 in
              if outside b1 lo hi then (RuneError, 1%nat) else
              if (sz <=? 2)%nat then
                (N.lor (N.shiftl (N.land p0 mask2) 6) (N.land b1 maskx),
                 2%nat)
              else
              match p2 with
              | EmptyString => (RuneError, 1%nat)
              | String c2 p3 =>
                  let b2 := b2n c2 in
                  if outside b2 locb hicb then (RuneError, 1%nat) else
                  if (sz <=? 3)%nat then
                    (N.lor (N.lor (N.shiftl (N.land p0 mask3) 12)
                                  (N.shiftl (N.land b1 maskx) 6))
                           (N.land b2 maskx),
                     3%nat)
                  else
                  match p3 with
                  | EmptyString => (RuneError, 1%nat)
                  | String c3 _ =>
                      let b3 := b2n c3 in
                      if outside b3 locb hicb then (RuneError, 1%nat) else
                      (N.lor (N.lor (N.lor
                                (N.shiftl (N.land p0 mask4) 18)
                                (N.shiftl (N.land b1 maskx) 12))
                                (N.shiftl (N.land b2 maskx) 6))
                             (N.land b3 maskx),
                       4%nat)
                  end
              end
          end
      end
  end.

(** [utf8.EncodeRune] / [utf8.AppendRune], for a rune that is not
    negative. *)
Definition EncodeRune (r : N) : string :=
  let three (r : N) :=
    String (n2b (N.lor t3 (N.shiftr r 12)))
      (String (n2b (N.lor tx (N.land (N.shiftr r 6) maskx)))
         (String (n2b (N.lor tx (N.land r maskx))) EmptyString)) in
  if r <=? rune1Max then String (n2b r) EmptyString
  else if r <=? rune2Max then
    String (n2b (N.lor t2 (N.shiftr r 6)))
      (String (n2b (N.lor tx (N.land r maskx))) EmptyString)
  else if (MaxRune <? r) || ((surrogateMin <=? r) && (r <=? surrogateMax))
  then three RuneError
  else if r <=? rune3Max then three r
  else
    String (n2b (N.lor t4 (N.shiftr r 18)))
      (String (n2b (N.lor tx (N.land (N.shiftr r 12) maskx)))
         (String (n2b (N.lor tx (N.land (N.shiftr r 6) maskx)))
            (String (n2b (N.lor tx (N.land r maskx))) EmptyString))).

(** One decoding step yields the replacement rune with width one exactly
    on a byte that starts no valid encoding. *)
Definition isError (d : N * nat) : bool :=
  (fst d =? RuneError) && (snd d =? 1)%nat.

(** [utf8.ValidString], by the same decoding steps; [fuel] bounds the
    number of runes. *)
Fixpoint validFrom (fuel : nat) (s : string) : bool :=
  match fuel with
  | O => match s with EmptyString => true | _ => false end
  | S fuel' =>
      match s with
      | EmptyString => true
      | _ =>
          let d := DecodeRune s in
          negb (isError d) && validFrom fuel' (drop (snd d) s)
      end
  end.

Definition ValidString (s : string) : bool := validFrom (length s) s.

End utf8.

(** ** Package [encoding/json], as far as [main.go] uses it

    [json.Unmarshal] first checks that the whole input is one syntactically
    valid JSON value ([checkValid]) and only then decodes it into the Go
    value it is given.  The two passes are modelled by a parser to a syntax
    tree ([parse]) and by decoders from the tree into the program's types. *)

Module json.
Import GoString.

Inductive Value : Type :=
| Null
| Bool (b : bool)
| Number (lit : string)
| Str (s : string)
| Array (elems : list Value)
| Object (members : list (string * Value)).

Inductive Res (A : Type) : Type :=
| Ok (a : A) (rest : string)
| SyntaxError
| OutOfFuel.
Arguments Ok {A} a rest.
Arguments SyntaxError {A}.
Arguments OutOfFuel {A}.

Definition isByte (c x : ascii) : bool := Ascii.eqb c x.

Definition between (lo c hi : ascii) : bool :=
  ((b2n lo <=? b2n c) && (b2n c <=? b2n hi))%N.

Definition isDigit (c : ascii) : bool := between "0" c "9".

(** [isSpace] of scanner.go. *)
Definition isSpace (c : ascii) : bool :=
  isByte c " " || isByte c TAB || isByte c CR || isByte c LF.

Fixpoint skipSpace (s : string) : string :=
  match s with
  | String c s' => if isSpace c then skipSpace s' else s
  | EmptyString => s
  end.

(** *** String literals *)

Definition hexVal (c : ascii) : option N :=
  if between "0" c "9" then Some (b2n c - b2n "0")%N
  else if between "a" c "f" then Some (b2n c - b2n "a" + 10)%N
  else if between "A" c "F" then Some (b2n c - b2n "A" + 10)%N
  else None.

Definition isHex (c : ascii) : bool :=
  match hexVal c with Some _ => true | None => false end.

(** The scanner inside a string literal ([stateInString] and the states
    of an escape), from the byte after the opening quote: the bytes of
    the literal up to its closing quote, and the input after it. *)
Fixpoint scanString (s : string) : option (string * string) :=
  let cons c r :=
    match r with
    | Some (raw, rest) => Some (String c raw, rest)
    | None => None
    end in
  match s with
  | EmptyString => None
  | String c s1 =>
      if isByte c DQUOTE then Some (EmptyString, s1)
      else if isByte c BACKSLASH then
        match s1 with
        | EmptyString => None
        | String e s2 =>
            if isByte e "b" || isByte e "f" || isByte e "n" || isByte e "r"
               || isByte e "t" || isByte e BACKSLASH || isByte e "/"
               || isByte e DQUOTE
            then cons c (cons e (scanString s2))
            else if isByte e "u" then
              match s2 with
              | String h1 (String h2 (String h3 (String h4 s6))) =>
                  if isHex h1 && isHex h2 && isHex h3 && isHex h4
                  then cons c (cons e (cons h1 (cons h2 (cons h3
                         (cons h4 (scanString s6))))))
                  else None
              | _ => None
              end
            else None
        end
      else if (b2n c <? 0x20)%N then None
      else cons c (scanString s1)
  end.

(** [getu4]: the rune of a [\uXXXX] escape at the start of [s]. *)
Definition getu4 (s : string) : option N :=
  match s with
  | String c0 (String c1 (String h1 (String h2 (String h3 (String h4 _))))) =>
      if isByte c0 BACKSLASH && isByte c1 "u" then
        match hexVal h1, hexVal h2, hexVal h3, hexVal h4 with
        | Some a, Some b, Some c, Some d =>
            Some (((a * 16 + b) * 16 + c) * 16 + d)%N
        | _, _, _, _ => None
        end
      else None
  | _ => None
  end.

(** [utf16.IsSurrogate] and [utf16.DecodeRune]. *)
Definition IsSurrogate (r : N) : bool :=
  ((0xD800 <=? r) && (r <? 0xE000))%N.

Definition utf16_DecodeRune (r1 r2 : N) : N :=
  if ((0xD800 <=? r1) && (r1 <? 0xDC00)
      && (0xDC00 <=? r2) && (r2 <? 0xE000))%N
  then (N.lor (N.shiftl (r1 - 0xD800) 10) (r2 - 0xDC00) + 0x10000)%N
  else utf8.RuneError.

(** The loop of [unquoteBytes] over the bytes between the quotes of a
    literal; each round consumes at least one byte, so [length s] rounds
    are enough. *)
Fixpoint unquoteFrom (fuel : nat) (s : string) : option string :=
  let app (p : string) (r : option string) :=
    match r with Some t => Some (p ++ t) | None => None end in
  match s with
  | EmptyString => Some EmptyString
  | String c s1 =>
      match fuel with
      | O => None
      | S fuel' =>
          if isByte c BACKSLASH then
            match s1 with
            | EmptyString => None
            | String e s2 =>
                let one (b : ascii) :=
                  app (String b "") (unquoteFrom fuel' s2) in
                if isByte e DQUOTE || isByte e BACKSLASH || isByte e "/"
                   || isByte e "'"
                then one e
                else if isByte e "b" then one BS
                else if isByte e "f" then one FF
                else if isByte e "n" then one LF
                else if isByte e "r" then one CR
                else if isByte e "t" then one TAB
                else if isByte e "u" then
                  match getu4 s with
                  | None => None
                  | Some rr =>
                      if IsSurrogate rr then
                        let dec :=
                          match getu4 (drop 6 s) with
                          | Some rr1 => utf16_DecodeRune rr rr1
                          | None => utf8.RuneError
                          end in
                        if (dec =? utf8.RuneError)%N
                        then app (utf8.EncodeRune utf8.RuneError)
                                 (unquoteFrom fuel' (drop 6 s))
                        else app (utf8.EncodeRune dec)
                                 (unquoteFrom fuel' (drop 12 s))
                      else app (utf8.EncodeRune rr)
                               (unquoteFrom fuel' (drop 6 s))
                  end
                else None
            end
          else if isByte c DQUOTE || (b2n c <? 0x20)%N then None
          else if (b2n c <? utf8.RuneSelf)%N
          then app (String c "") (unquoteFrom fuel' s1)
          else
            let d := utf8.DecodeRune s in
            app (utf8.EncodeRune (fst d)) (unquoteFrom fuel' (drop (snd d) s))
      end
  end.

Definition unquote (raw : string) : option string :=
  unquoteFrom (length raw) raw.

(** A string literal, from the byte after its opening quote, to its
    value. *)
Definition parseString (s : string) : Res string :=
  match scanString s with
  | Some (raw, rest) =>
      match unquote raw with
      | Some v => Ok v rest
      | None => SyntaxError
      end
  | None => SyntaxError
  end.

(** *** Numbers and the literals [true], [false], [null] *)

Fixpoint spanDigits (s : string) : string * string :=
  match s with
  | String c s' =>
      if isDigit c then
        let '(ds, rest) := spanDigits s' in (String c ds, rest)
      else (EmptyString, s)
  | EmptyString => (EmptyString, EmptyString)
  end.

(** [state0], [stateDot], [stateE] ... : what may follow the integer
    part of a number. *)
Definition scanExponent (s : string) : option (string * string) :=
  match s with
  | String c s1 =>
      if isByte c "e" || isByte c "E" then
        let '(sign, s2) :=
          match s1 with
          | String g s2 =>
              if isByte g "+" || isByte g "-" then (String g "", s2)
              else ("", s1)
          | EmptyString => ("", s1)
          end in
        match spanDigits s2 with
        | (EmptyString, _) => None
        | (ds, rest) => Some (String c (sign ++ ds), rest)
        end
      else Some (EmptyString, s)
  | EmptyString => Some (EmptyString, s)
  end.

Definition scanFraction (s : string) : option (string * string) :=
  match s with
  | String c s1 =>
      if isByte c "." then
        match spanDigits s1 with
        | (EmptyString, _) => None
        | (ds, rest) =>
            match scanExponent rest with
            | Some (e, rest') => Some (String c (ds ++ e), rest')
            | None => None
            end
        end
      else scanExponent s
  | EmptyString => Some (EmptyString, s)
  end.

(** A number, from the first byte after an optional minus sign. *)
Definition scanUnsigned (s : string) : option (string * string) :=
  match s with
  | String c s1 =>
      if isByte c "0" then
        match scanFraction s1 with
        | Some (f, rest) => Some (String c f, rest)
        | None => None
        end
      else if between "1" c "9" then
        let '(ds, s2) := spanDigits s1 in
        match scanFraction s2 with
        | Some (f, rest) => Some (String c (ds ++ f), rest)
        | None => None
        end
      else None
  | EmptyString => None
  end.

Definition expect (word : string) (v : Value) (s : string) : Res Value :=
  if String.eqb (take (length word) s) word
  then Ok v (drop (length word) s)
  else SyntaxError.

(** *** Values *)

Definition maxNestingDepth : nat := N.to_nat 10000.

(** [parseValue] reads one value ([stateBeginValue]); [parseElems] the
    elements of a non-empty array and its closing bracket; [parseMembers]
    the members of a non-empty object and its closing brace.  [depth] is
    the number of arrays and objects that may still be opened. *)
Fixpoint parseValue (fuel depth : nat) (s : string) {struct fuel}
  : Res Value :=
  match fuel with
  | O => OutOfFuel
  | S fuel' =>
      match skipSpace s with
      | EmptyString => SyntaxError
      | String c r =>
          if isByte c "{" then
            match depth with
            | O => SyntaxError
            | S depth' =>
                match skipSpace r with
                | String c' r' =>
                    if isByte c' "}" then Ok (Object []) r'
                    else
                      match parseMembers fuel' depth' r with
                      | Ok ms rest => Ok (Object ms) rest
                      | SyntaxError => SyntaxError
                      | OutOfFuel => OutOfFuel
                      end
                | EmptyString => SyntaxError
                end
            end
          else if isByte c "[" then
            match depth with
            | O => SyntaxError
            | S depth' =>
                match skipSpace r with
                | String c' r' =>
                    if isByte c' "]" then Ok (Array []) r'
                    else
                      match parseElems fuel' depth' r with
                      | Ok vs rest => Ok (Array vs) rest
                      | SyntaxError => SyntaxError
                      | OutOfFuel => OutOfFuel
                      end
                | EmptyString => SyntaxError
                end
            end
          else if isByte c DQUOTE then
            match parseString r with
            | Ok v rest => Ok (Str v) rest
            | SyntaxError => SyntaxError
            | OutOfFuel => OutOfFuel
            end
          else if isByte c "-" then
            match scanUnsigned r with
            | Some (lit, rest) => Ok (Number (String c lit)) rest
            | None => SyntaxError
            end
          else if isDigit c then
            match scanUnsigned (String c r) with
            | Some (lit, rest) => Ok (Number lit) rest
            | None => SyntaxError
            end
          else if isByte c "t" then expect "rue" (Bool true) r
          else if isByte c "f" then expect "alse" (Bool false) r
          else if isByte c "n" then expect "ull" Null r
          else SyntaxError
      end
  end

with parseElems (fuel depth : nat) (s : string) {struct fuel}
  : Res (list Value) :=
  match fuel with
  | O => OutOfFuel
  | S fuel' =>
      match parseValue fuel' depth s with
      | Ok v rest =>
          match skipSpace rest with
          | String c r =>
              if isByte c "," then
                match parseElems fuel' depth r with
                | Ok vs rest' => Ok (v :: vs) rest'
                | SyntaxError => SyntaxError
                | OutOfFuel => OutOfFuel
                end
              else if isByte c "]" then Ok [v] r
              else SyntaxError
          | EmptyString => SyntaxError
          end
      | SyntaxError => SyntaxError
      | OutOfFuel => OutOfFuel
      end
  end

with parseMembers (fuel depth : nat) (s : string) {struct fuel}
  : Res (list (string * Value)) :=
  match fuel with
  | O => OutOfFuel
  | S fuel' =>
      match skipSpace s with
      | String q r =>
          if isByte q DQUOTE then
            match parseString r with
            | Ok key rest =>
                match skipSpace rest with
                | String c r1 =>
                    if isByte c ":" then
                      match parseValue fuel' depth r1 with
                      | Ok v rest1 =>
                          match skipSpace rest1 with
                          | String c' r2 =>
                              if isByte c' "," then
                                match parseMembers fuel' depth r2 with
                                | Ok ms rest2 => Ok ((key, v) :: ms) rest2
                                | SyntaxError => SyntaxError
                                | OutOfFuel => OutOfFuel
                                end
                              else if isByte c' "}" then Ok [(key, v)] r2
                              else SyntaxError
                          | EmptyString => SyntaxError
                          end
                      | SyntaxError => SyntaxError
                      | OutOfFuel => OutOfFuel
                      end
                    else SyntaxError
                | EmptyString => SyntaxError
                end
            | SyntaxError => SyntaxError
            | OutOfFuel => OutOfFuel
            end
          else SyntaxError
      | EmptyString => SyntaxError
      end
  end.

(** Two rounds per input byte are enough
    (see [parser_facts.parse_never_OutOfFuel]). *)
Definition fuelFor (data : string) : nat := 2 * length data + 1.

(** [checkValid]: the whole of [data] is one JSON value, with white space
    around it allowed; [None] is a [SyntaxError]. *)
Definition parse (data : string) : option Value :=
  match parseValue (fuelFor data) maxNestingDepth data with
  | Ok v rest =>
      match skipSpace rest with
      | EmptyString => Some v
      | _ => None
      end
  | _ => None
  end.

(** *** Decoding a syntax tree into a Go value

    [Unmarshal] decodes into the value it is given: whatever the input
    does not mention keeps its old contents.  A JSON value that does not
    fit the Go type is skipped and reported at the end
    ([UnmarshalTypeError]); decoding goes on.  A decoder therefore maps
    the tree and the old Go value to the new Go value and an error flag. *)

Definition Dec (A : Type) : Type := Value -> A -> A * bool.

(** Into a Go [string]: a JSON string is stored, [null] is ignored. *)
Definition decodeString : Dec string :=
  fun v old =>
    match v with
    | Str s => (s, false)
    | Null => (old, false)
    | _ => (old, true)
    end.

Fixpoint digitsVal (s : string) (acc : Z) : option Z :=
  match s with
  | EmptyString => Some acc
  | String c r =>
      if isDigit c
      then digitsVal r (acc * 10 + Z.of_N (b2n c - b2n "0"))%Z
      else None
  end.

(** [strconv.ParseInt(lit, 10, 64)] on a JSON number literal: an error
    unless the literal is an integer that fits 64 bits. *)
Definition ParseInt (lit : string) : option Z :=
  let inRange (z : Z) :=
    if ((- 2 ^ 63 <=? z) && (z <? 2 ^ 63))%Z then Some z else None in
  match lit with
  | EmptyString => None
  | String c r =>
      if isByte c "-" then
        match r with
        | EmptyString => None
        | _ =>
            match digitsVal r 0 with
            | Some z => inRange (- z)%Z
            | None => None
            end
        end
      else
        match digitsVal lit 0 with
        | Some z => inRange z
        | None => None
        end
  end.

(** Into a Go [int] (64 bits wide). *)
Definition decodeInt : Dec Z :=
  fun v old =>
    match v with
    | Number lit =>
        match ParseInt lit with
        | Some z => (z, false)
        | None => (old, true)
        end
    | Null => (old, false)
    | _ => (old, true)
    end.

(** Into a struct: the members of a JSON object are stored one after the
    other by [field], which finds the struct field of a key; [null] is
    ignored. *)
Definition decodeStruct {A : Type} (field : string -> Dec A) : Dec A :=
  fun v old =>
    match v with
    | Object members =>
        fold_left
          (fun (acc : A * bool) (kv : string * Value) =>
             let '(a, e) := acc in
             let '(a', e') := field (fst kv) (snd kv) a in
             (a', e || e'))
          members (old, false)
    | Null => (old, false)
    | _ => (old, true)
    end.

(** A key selects the field whose name it equals under Unicode simple
    case folding ([foldName]).  For a name in ASCII that is: ASCII letters
    compare without case, and the only other runes that fold to an ASCII
    letter are U+017F (to S) and U+212A (to K). *)
Definition upper (c : ascii) : ascii :=
  if between "a" c "z" then n2b (b2n c - 32) else c.

Fixpoint foldASCII (key : string) : string :=
  match key with
  | String c0 (String c1 (String c2 r as r1) as r0) =>
      if (b2n c0 =? 0xE2)%N && (b2n c1 =? 0x84)%N && (b2n c2 =? 0xAA)%N
      then String "K" (foldASCII r)
      else if (b2n c0 =? 0xC5)%N && (b2n c1 =? 0xBF)%N
      then String "S" (foldASCII r1)
      else String (upper c0) (foldASCII r0)
  | String c0 (String c1 r as r0) =>
      if (b2n c0 =? 0xC5)%N && (b2n c1 =? 0xBF)%N
      then String "S" (foldASCII r)
      else String (upper c0) (foldASCII r0)
  | String c0 r => String (upper c0) (foldASCII r)
  | EmptyString => EmptyString
  end.

Definition fieldIs (key name : string) : bool :=
  String.eqb (foldASCII key) (foldASCII name).

(** A Go slice: its elements, and what its backing array still holds
    behind them ([spare]), which a later decoding reuses. *)
Record Slice (A : Type) : Type := mkSlice {
  elems : list A;
  spare : list A
}.
Arguments mkSlice {A} elems spare.
Arguments elems {A} s.
Arguments spare {A} s.

Definition emptySlice {A : Type} : Slice A := mkSlice [] [].

(** The loop of [decodeState.array] over the elements of a JSON array:
    element [i] is decoded into what the backing array holds at index
    [i] ([pool]), or into a zero value behind its end. *)
Fixpoint decodeElems {A : Type} (dec : Dec A) (zero : A)
    (vs : list Value) (pool : list A) : list A * list A * bool :=
  match vs with
  | [] => ([], pool, false)
  | v :: vs' =>
      let '(target, pool') :=
        match pool with
        | a :: p => (a, p)
        | [] => (zero, [])
        end in
      let '(a', e) := dec v target in
      let '(rest, behind, e') := decodeElems dec zero vs' pool' in
      (a' :: rest, behind, e || e')
  end.

(** Into a slice: [null] and the empty array give an empty slice with a
    new backing array; a longer array is decoded element by element. *)
Definition decodeSlice {A : Type} (dec : Dec A) (zero : A)
  : Dec (Slice A) :=
  fun v old =>
    match v with
    | Null => (emptySlice, false)
    | Array [] => (emptySlice, false)
    | Array vs =>
        let '(es, behind, e) :=
          decodeElems dec zero vs (elems old ++ spare old)%list in
        (mkSlice es behind, e)
    | _ => (old, true)
    end.

(** [json.Unmarshal(data, &x)]: the new contents of [x], and whether an
    error is returned.  A syntax error leaves [x] as it was. *)
Definition Unmarshal {A : Type} (dec : Dec A) (data : string) (old : A)
  : A * bool :=
  match parse data with
  | Some v => dec v old
  | None => (old, true)
  end.

(** *** Encoding a Go string ([appendString] with [escapeHTML] set) *)

(** [htmlSafeSet]: the ASCII bytes that need no escape. *)
Definition htmlSafeSet (b : ascii) : bool :=
  negb ((b2n b <? 0x20)%N || isByte b DQUOTE || isByte b BACKSLASH
        || isByte b "<" || isByte b ">" || isByte b "&").

Definition hex (n : N) : ascii :=
  if (n <? 10)%N then n2b (b2n "0" + n) else n2b (b2n "a" + (n - 10)).

Definition escapeASCII (b : ascii) : string :=
  let esc (e : ascii) := String BACKSLASH (String e "") in
  if isByte b BACKSLASH || isByte b DQUOTE then esc b
  else if isByte b BS then esc "b"%char
  else if isByte b FF then esc "f"%char
  else if isByte b LF then esc "n"%char
  else if isByte b CR then esc "r"%char
  else if isByte b TAB then esc "t"%char
  else
    String BACKSLASH
      (String "u" (String "0" (String "0"
         (String (hex (N.shiftr (b2n b) 4))
            (String (hex (N.land (b2n b) 0xF)) ""))))).

(** The loop of [appendString] over [src]; each round consumes at least
    one byte. *)
Fixpoint appendFrom (fuel : nat) (src : string) : string :=
  match src with
  | EmptyString => EmptyString
  | String b rest =>
      match fuel with
      | O => EmptyString
      | S fuel' =>
          if (b2n b <? utf8.RuneSelf)%N then
            if htmlSafeSet b then String b (appendFrom fuel' rest)
            else escapeASCII b ++ appendFrom fuel' rest
          else
            let d := utf8.DecodeRune src in
            if utf8.isError d then
              String BACKSLASH "ufffd" ++ appendFrom fuel' (drop (snd d) src)
            else if (fst d =? 0x2028)%N || (fst d =? 0x2029)%N then
              String BACKSLASH "u202"
                ++ String (hex (N.land (fst d) 0xF)) ""
                ++ appendFrom fuel' (drop (snd d) src)
            else
              take (snd d) src ++ appendFrom fuel' (drop (snd d) src)
      end
  end.

Definition appendString (src : string) : string :=
  String DQUOTE (appendFrom (length src) src) ++ String DQUOTE "".

End json.

(** ** Package [main]: the data model *)

Import GoString.

Definition MsgRole : Type := string.

Definition USER : MsgRole := "user".
Definition ASSISTANT : MsgRole := "assistant".
Definition SYSTEM : MsgRole := "system".

Record MessageIn : Type := mkMessageIn {
  InRole : MsgRole;
  InContent : string;
  File : string
}.

Record Message : Type := mkMessage {
  Role : MsgRole;
  Content : string
}.

(** A Go [float32] obtained by the conversion [float32(x)] of a
    [float64]. *)
Inductive float32 : Type := toFloat32 (x : float).

Record RequestPayload : Type := mkRequestPayload {
  Model : string;
  Messages : list Message;
  Temperature : float32
}.

Record ResponseChoice : Type := mkResponseChoice {
  ChoiceMessage : Message
}.

Record Usage : Type := mkUsage {
  PromptTokens : Z;
  CompletionTokens : Z
}.

Record ResponseBody : Type := mkResponseBody {
  Choices : json.Slice ResponseChoice;
  UsageOf : Usage
}.

Record Config : Type := mkConfig {
  APIKey : string;
  CfgModel : string;
  URL : string;
  CfgTemperature : float;
  InputFile : string;
  InputDir : string;
  PromptsDir : string;
  LogsDir : string
}.

(** The zero values of the struct types. *)
Definition zeroMessageIn : MessageIn := mkMessageIn "" "" "".
Definition zeroMessage : Message := mkMessage "" "".
Definition zeroResponseChoice : ResponseChoice := mkResponseChoice zeroMessage.
Definition zeroUsage : Usage := mkUsage 0 0.
Definition zeroResponseBody : ResponseBody :=
  mkResponseBody json.emptySlice zeroUsage.

Definition eqMessage (a b : Message) : bool :=
  String.eqb (Role a) (Role b) && String.eqb (Content a) (Content b).

(** ** The JSON encoding of the data model, by the struct tags *)

Definition fieldMessageIn (key : string) : json.Dec MessageIn :=
  fun v m =>
    if json.fieldIs key "role" then
      let '(x, e) := json.decodeString v (InRole m) in
      (mkMessageIn x (InContent m) (File m), e)
    else if json.fieldIs key "content" then
      let '(x, e) := json.decodeString v (InContent m) in
      (mkMessageIn (InRole m) x (File m), e)
    else if json.fieldIs key "file" then
      let '(x, e) := json.decodeString v (File m) in
      (mkMessageIn (InRole m) (InContent m) x, e)
    else (m, false).

Definition decodeMessageIn : json.Dec MessageIn :=
  json.decodeStruct fieldMessageIn.

Definition fieldMessage (key : string) : json.Dec Message :=
  fun v m =>
    if json.fieldIs key "role" then
      let '(x, e) := json.decodeString v (Role m) in
      (mkMessage x (Content m), e)
    else if json.fieldIs key "content" then
      let '(x, e) := json.decodeString v (Content m) in
      (mkMessage (Role m) x, e)
    else (m, false).

Definition decodeMessage : json.Dec Message :=
  json.decodeStruct fieldMessage.

Definition fieldResponseChoice (key : string) : json.Dec ResponseChoice :=
  fun v c =>
    if json.fieldIs key "message" then
      let '(x, e) := decodeMessage v (ChoiceMessage c) in
      (mkResponseChoice x, e)
    else (c, false).

Definition decodeResponseChoice : json.Dec ResponseChoice :=
  json.decodeStruct fieldResponseChoice.

Definition fieldUsage (key : string) : json.Dec Usage :=
  fun v u =>
    if json.fieldIs key "prompt_tokens" then
      let '(x, e) := json.decodeInt v (PromptTokens u) in
      (mkUsage x (CompletionTokens u), e)
    else if json.fieldIs key "completion_tokens" then
      let '(x, e) := json.decodeInt v (CompletionTokens u) in
      (mkUsage (PromptTokens u) x, e)
    else (u, false).

Definition decodeUsage : json.Dec Usage := json.decodeStruct fieldUsage.

Definition fieldResponseBody (key : string) : json.Dec ResponseBody :=
  fun v b =>
    if json.fieldIs key "choices" then
      let '(x, e) :=
        json.decodeSlice decodeResponseChoice zeroResponseChoice v
          (Choices b) in
      (mkResponseBody x (UsageOf b), e)
    else if json.fieldIs key "usage" then
      let '(x, e) := decodeUsage v (UsageOf b) in
      (mkResponseBody (Choices b) x, e)
    else (b, false).

Definition decodeResponseBody : json.Dec ResponseBody :=
  json.decodeStruct fieldResponseBody.

Definition decodeMessagesIn : json.Dec (json.Slice MessageIn) :=
  json.decodeSlice decodeMessageIn zeroMessageIn.

Definition decodeMessages : json.Dec (json.Slice Message) :=
  json.decodeSlice decodeMessage zeroMessage.

Definition NL : string := String LF "".

(** One [Message] as [json.MarshalIndent] writes it inside an array, with
    prefix [""] and indent ["  "]. *)
Definition marshalMessage (m : Message) : string :=
  "{" ++ NL
    ++ "    " ++ json.appendString "role" ++ ": "
    ++ json.appendString (Role m) ++ "," ++ NL
    ++ "    " ++ json.appendString "content" ++ ": "
    ++ json.appendString (Content m) ++ NL
    ++ "  }".

Fixpoint marshalElems (ms : list Message) : string :=
  match ms with
  | [] => ""
  | [m] => marshalMessage m
  | m :: ms' => marshalMessage m ++ "," ++ NL ++ "  " ++ marshalElems ms'
  end.

(** [json.MarshalIndent(messages, "", "  ")] for a slice that is not [nil];
    it never fails on a [[]Message]. *)
Definition MarshalIndent (messages : list Message) : string :=
  match messages with
  | [] => "[]"
  | _ => "[" ++ NL ++ "  " ++ marshalElems messages ++ NL ++ "]"
  end.

(** ** Package [main]: the functions *)

(** What the program shows or does to the outside world, in order. *)
Inductive LogSite : Type :=
| ErrMarshalPayload
| ErrCreateRequest
| ErrSendRequest
| ErrStatus (status : Z) (body : string)
| ErrReadBody
| ErrUnmarshalBody
| ErrReadInput
| ErrSaveLog.

Inductive Event : Type :=
| Banner (model : string) (temperature : float32)
    (systemMsgsCount userMsgsCount assistantMsgsCount : nat)
| Prompt
| Post (url apiKey : string) (payload : RequestPayload)
| ShowApiError (body : string)
| ShowRawResponse (body : string)
| ShowReply (content : string) (promptTokens completionTokens : Z)
| ShowNoResponse (body : string)
| Log (site : LogSite)
| MkdirAll (dir : string)
| WriteFile (name content : string)
| ShowSaved (name : string).

(** [readUserInput]: the line without its newline, or [None] for an error,
    and the input left in the reader. *)
Definition readUserInput (reader : string) : option string * string :=
  let '(userInput, reader', err) := ReadString reader LF in
  if err then (None, reader')
  else
    let userInput := TrimSuffix userInput (String LF "") in
    let userInput := TrimSuffix userInput (String CR (String LF "")) in
    (Some userInput, reader').

(** The counters of [displayInitScreen]. *)
Fixpoint countRoles (messages : list Message) (sys usr asst : nat)
  : nat * nat * nat :=
  match messages with
  | [] => (sys, usr, asst)
  | msg :: rest =>
      if String.eqb (Role msg) USER then countRoles rest sys (S usr) asst
      else if String.eqb (Role msg) ASSISTANT
      then countRoles rest sys usr (S asst)
      else if String.eqb (Role msg) SYSTEM
      then countRoles rest (S sys) usr asst
      else countRoles rest sys usr asst
  end.

Definition displayInitScreen (messages : list Message) (model : string)
    (temperature : float32) : Event :=
  let '(systemMsgsCount, userMsgsCount, assistantMsgsCount) :=
    countRoles messages 0 0 0 in
  Banner model temperature systemMsgsCount userMsgsCount assistantMsgsCount.

(** [messages[i].Content = data]; [None] when [i] is out of range, where Go
    panics. *)
Fixpoint setContent (messages : list Message) (i : nat) (data : string)
  : option (list Message) :=
  match messages, i with
  | [], _ => None
  | m :: rest, O => Some (mkMessage (Role m) data :: rest)
  | m :: rest, S i' =>
      match setContent rest i' data with
      | Some rest' => Some (m :: rest')
      | None => None
      end
  end.

(** What the remote call of one round of the loop runs into. *)
Inductive RemoteOutcome : Type :=
| MarshalError
| NewRequestError
| DoError
| Response (StatusCode : Z) (body : string) (readError : bool).

(** What the outside world answers during one step of the session. *)
Record Env : Type := mkEnv {
  remote : RemoteOutcome;
  mkdirAllOk : bool;
  writeFileOk : bool;
  now : string
}.

Inductive ExitStatus : Type := Returned | Fatal | Panic.

(** Where [main] stands: at the prompt before the loop, at the top of the
    loop, at the prompt inside the loop, or after the process has ended. *)
Inductive Control : Type :=
| FirstPrompt
| RemoteCall
| NextPrompt
| Exited (status : ExitStatus).

Record State : Type := mkState {
  control : Control;
  messages : list Message;
  responseBody : ResponseBody;
  reader : string
}.

Inductive FileRead : Type :=
| OpenError
| ReadError
| Contents (data : string).

Inductive Load : Type :=
| Loaded (messages : list Message)
| LoadFatal
| LoadPanic.

Definition StatusOK : Z := 200.

Section Main.

(** [path.Join] of two elements, and the file system as [os.Open]
    followed by [io.ReadAll] finds it. *)
Variable path_Join : string -> string -> string.
Variable readFile : string -> FileRead.

Variable cfg : Config.

(** [saveConversationLog]: what it does, given whether the directory
    can be made and the file written; the [bool] is [err == nil]. *)
Definition saveConversationLog (messages : list Message)
    (model logsDir : string) (env : Env) : list Event * bool :=
  let logDir := path_Join logsDir (ReplaceByte model "/" "_") in
  if negb (mkdirAllOk env) then ([MkdirAll logDir], false)
  else
    let timestamp := now env in
    let fileName := path_Join logDir (timestamp ++ ".log.json") in
    let fileContent := MarshalIndent messages in
    if negb (writeFileOk env)
    then ([MkdirAll logDir; WriteFile fileName fileContent], false)
    else ([MkdirAll logDir; WriteFile fileName fileContent;
           ShowSaved fileName], true).

(** The loop over [messagesIn] that builds [messages]. *)
Fixpoint loadMessages (messagesIn : list MessageIn) (i : nat)
    (messages : list Message) : Load :=
  match messagesIn with
  | [] => Loaded messages
  | msg :: rest =>
      let messages :=
        (messages ++ [mkMessage (InRole msg) (InContent msg)])%list in
      if String.eqb (InRole msg) SYSTEM && negb (String.eqb (File msg) "")
      then
        match readFile (path_Join (PromptsDir cfg) (File msg)) with
        | Contents systemMsgData =>
            match setContent messages i systemMsgData with
            | Some messages' => loadMessages rest (S i) messages'
            | None => LoadPanic
            end
        | _ => LoadFatal
        end
      else loadMessages rest (S i) messages
  end.

(** The test before the first prompt:
    [msgsCount == 0 || messages[msgsCount-1].Role != USER]. *)
Definition promptsFirst (messages : list Message) : bool :=
  let msgsCount := List.length messages in
  (msgsCount =? 0)%nat
  || negb (String.eqb (Role (nth (msgsCount - 1) messages zeroMessage))
             USER).

(** [main] up to the first prompt or the first remote call: the state
    the session starts in and what was shown, or a fatal exit. *)
Definition startup (stdin : string) : State * list Event :=
  let dead (status : ExitStatus) :=
    (mkState (Exited status) [] zeroResponseBody stdin, []) in
  match readFile (path_Join (InputDir cfg) (InputFile cfg)) with
  | Contents inputData =>
      let '(messagesIn, err) :=
        json.Unmarshal decodeMessagesIn inputData json.emptySlice in
      if err then dead Fatal
      else
        match loadMessages (json.elems messagesIn) 0 [] with
        | Loaded messages =>
            (mkState
               (if promptsFirst messages then FirstPrompt else RemoteCall)
               messages zeroResponseBody stdin,
             [displayInitScreen messages (CfgModel cfg)
                (toFloat32 (CfgTemperature cfg))])
        | LoadFatal => dead Fatal
        | LoadPanic => dead Panic
        end
  | _ => dead Fatal
  end.

(** A prompt: [readUserInput] and what follows it, before the loop
    ([first]) or at the end of a round of the loop. *)
Definition promptStep (first : bool) (st : State) (env : Env)
  : State * list Event :=
  let '(input, reader') := readUserInput (reader st) in
  match input with
  | None =>
      if first
      then (mkState (Exited Fatal) (messages st) (responseBody st) reader',
            [Prompt; Log ErrReadInput])
      else (mkState RemoteCall (messages st) (responseBody st) reader',
            [Prompt; Log ErrReadInput])
  | Some userInput =>
      if String.eqb userInput "/quit!" then
        (mkState (Exited Returned) (messages st) (responseBody st) reader',
         [Prompt])
      else if String.eqb userInput "/quit" then
        let '(events, ok) :=
          saveConversationLog (messages st) (CfgModel cfg) (LogsDir cfg)
            env in
        (mkState (Exited Returned) (messages st) (responseBody st) reader',
         (Prompt :: events ++ (if ok then [] else [Log ErrSaveLog]))%list)
      else
        (mkState RemoteCall
           (messages st ++ [mkMessage USER userInput])%list
           (responseBody st) reader',
         [Prompt])
  end.

(** One round of the loop, from its top to the prompt. *)
Definition remoteStep (st : State) (env : Env) : State * list Event :=
  let payload :=
    mkRequestPayload (CfgModel cfg) (messages st)
      (toFloat32 (CfgTemperature cfg)) in
  let post := Post (URL cfg) (APIKey cfg) payload in
  match remote env with
  | MarshalError => (st, [Log ErrMarshalPayload])
  | NewRequestError => (st, [Log ErrCreateRequest])
  | DoError => (st, [post; Log ErrSendRequest])
  | Response StatusCode body readError =>
      if negb (StatusCode =? StatusOK)%Z then
        (st, [post; Log (ErrStatus StatusCode body); ShowApiError body])
      else if readError then (st, [post; Log ErrReadBody])
      else
        let '(responseBody', err) :=
          json.Unmarshal decodeResponseBody body (responseBody st) in
        if err then
          (mkState RemoteCall (messages st) responseBody' (reader st),
           [post; Log ErrUnmarshalBody; ShowRawResponse body])
        else
          match json.elems (Choices responseBody') with
          | choice :: _ =>
              let assistantMessage := ChoiceMessage choice in
              (mkState NextPrompt
                 (messages st ++ [assistantMessage])%list
                 responseBody' (reader st),
               [post;
                ShowReply (Content assistantMessage)
                  (PromptTokens (UsageOf responseBody'))
                  (CompletionTokens (UsageOf responseBody'))])
          | [] =>
              (mkState NextPrompt (messages st) responseBody' (reader st),
               [post; ShowNoResponse body])
          end
  end.

Definition step (st : State) (env : Env) : State * list Event :=
  match control st with
  | FirstPrompt => promptStep true st env
  | RemoteCall => remoteStep st env
  | NextPrompt => promptStep false st env
  | Exited _ => (st, [])
  end.

(** The session from [st], one step for each answer of [envs]. *)
Fixpoint run (st : State) (envs : list Env) : State * list Event :=
  match envs with
  | [] => (st, [])
  | env :: envs' =>
      let '(st1, events1) := step st env in
      let '(st2, events2) := run st1 envs' in
      (st2, (events1 ++ events2)%list)
  end.

(** The whole of [main] for as many steps as [envs] answers. *)
Definition main (stdin : string) (envs : list Env) : State * list Event :=
  let '(st0, events0) := startup stdin in
  let '(st, events) := run st0 envs in
  (st, (events0 ++ events)%list).

End Main.

(** ** The loader as the specification words it

    One Turn for each record: the record's role and inline content, or,
    for a system record that names a file, the contents of that file in the
    prompts directory; [None] when that file cannot be opened or read. *)

Section LoaderSpec.

Variable path_Join : string -> string -> string.
Variable readFile : string -> FileRead.
Variable cfg : Config.

Definition namesFile (record : MessageIn) : bool :=
  String.eqb (InRole record) SYSTEM && negb (String.eqb (File record) "").

Definition turnOf (record : MessageIn) : option Message :=
  if namesFile record then
    match readFile (path_Join (PromptsDir cfg) (File record)) with
    | Contents data => Some (mkMessage (InRole record) data)
    | _ => None
    end
  else Some (mkMessage (InRole record) (InContent record)).

Fixpoint turnsOf (records : list MessageIn) : option (list Message) :=
  match records with
  | [] => Some []
  | record :: rest =>
      match turnOf record, turnsOf rest with
      | Some m, Some ms => Some (m :: ms)
      | _, _ => None
      end
  end.

End LoaderSpec.

(** ** Observations on traces and states *)

Definition isPrompt (e : Event) : bool :=
  match e with Prompt => true | _ => false end.

Definition isWriteFile (e : Event) : bool :=
  match e with WriteFile _ _ => true | _ => false end.

Definition count (p : Event -> bool) (events : list Event) : nat :=
  List.length (filter p events).

(** The payloads of the remote calls of a trace, in order. *)
Fixpoint posted (events : list Event) : list RequestPayload :=
  match events with
  | [] => []
  | Post _ _ payload :: rest => payload :: posted rest
  | _ :: rest => posted rest
  end.

(** A remote call that produces no decoded reply: no request could be
    built or sent, the status is not 200, the body cannot be read, or
    [json.Unmarshal] reports an error on it. *)
Definition remoteFails (old : ResponseBody) (outcome : RemoteOutcome) : bool :=
  match outcome with
  | MarshalError | NewRequestError | DoError => true
  | Response StatusCode body readError =>
      negb (StatusCode =? StatusOK)%Z || readError
      || snd (json.Unmarshal decodeResponseBody body old)
  end.

(** The role is one of the three the program names. *)
Definition knownRole (role : MsgRole) : bool :=
  String.eqb role USER || String.eqb role ASSISTANT || String.eqb role SYSTEM.

(** The first prompt or remote call of a trace. *)
Fixpoint firstAction (events : list Event) : option Event :=
  match events with
  | [] => None
  | Prompt :: _ => Some Prompt
  | Post url apiKey payload :: _ => Some (Post url apiKey payload)
  | _ :: rest => firstAction rest
  end.

(** The request of a remote call made with the Conversation [msgs]. *)
Definition requestOf (cfg : Config) (msgs : list Message) : Event :=
  Post (URL cfg) (APIKey cfg)
    (mkRequestPayload (CfgModel cfg) msgs (toFloat32 (CfgTemperature cfg))).

(** ** String literals and transcripts, for the statements below *)

(** Every byte of [s] is outside ASCII. *)
Fixpoint highBytes (s : string) : bool :=
  match s with
  | EmptyString => true
  | String c s' => (0x80 <=? b2n c)%N && highBytes s'
  end.

(** What scanning or unquoting gives when [p] stands before the input
    that gives [r]. *)
Definition scanned (p : string) (r : option (string * string))
  : option (string * string) :=
  match r with
  | Some (raw, rest) => Some (p ++ raw, rest)
  | None => None
  end.

Definition unquoted (p : string) (r : option string) : option string :=
  match r with
  | Some t => Some (p ++ t)
  | None => None
  end.

(** The bytes between the quotes of a string literal that the scanner
    accepts: escapes as the scanner knows them, and bytes other than the
    quote, the backslash and the control characters. *)
Fixpoint literalBody (s : string) : bool :=
  match s with
  | EmptyString => true
  | String c s1 =>
      if json.isByte c DQUOTE then false
      else if json.isByte c BACKSLASH then
        match s1 with
        | EmptyString => false
        | String e s2 =>
            if json.isByte e "b" || json.isByte e "f" || json.isByte e "n"
               || json.isByte e "r" || json.isByte e "t"
               || json.isByte e BACKSLASH || json.isByte e "/"
               || json.isByte e DQUOTE
            then literalBody s2
            else if json.isByte e "u" then
              match s2 with
              | String h1 (String h2 (String h3 (String h4 s6))) =>
                  json.isHex h1 && json.isHex h2 && json.isHex h3
                  && json.isHex h4 && literalBody s6
              | _ => false
              end
            else false
        end
      else negb (b2n c <? 0x20)%N && literalBody s1
  end.

(** The syntax tree of one [Message] and of a [[]Message]. *)
Definition treeOfMessage (m : Message) : json.Value :=
  json.Object [("role", json.Str (Role m)); ("content", json.Str (Content m))].

Definition treeOfMessages (msgs : list Message) : json.Value :=
  json.Array (map treeOfMessage msgs).

(** A Conversation whose roles and contents are valid UTF-8. *)
Definition validMessage (m : Message) : bool :=
  utf8.ValidString (Role m) && utf8.ValidString (Content m).

(** [s] with each byte that starts no valid encoding replaced by the
    encoding of U+FFFD, which is what a transcript keeps of [s]. *)
Fixpoint coerceFrom (fuel : nat) (s : string) : string :=
  match s with
  | EmptyString => EmptyString
  | String _ rest =>
      match fuel with
      | O => EmptyString
      | S fuel' =>
          let d := utf8.DecodeRune s in
          if utf8.isError d
          then utf8.EncodeRune utf8.RuneError ++ coerceFrom fuel' rest
          else take (snd d) s ++ coerceFrom fuel' (drop (snd d) s)
      end
  end.

Definition coerceUTF8 (s : string) : string := coerceFrom (length s) s.

Definition coerceMessage (m : Message) : Message :=
  mkMessage (coerceUTF8 (Role m)) (coerceUTF8 (Content m)).

(** ** Input files that [json.Unmarshal] takes for a [[]MessageIn] *)

Definition stringOrNull (v : json.Value) : bool :=
  match v with
  | json.Str _ | json.Null => true
  | _ => false
  end.

(** A member that names a field of [MessageIn] holds a string or [null]. *)
Definition memberFits (kv : string * json.Value) : bool :=
  if json.fieldIs (fst kv) "role" || json.fieldIs (fst kv) "content"
     || json.fieldIs (fst kv) "file"
  then stringOrNull (snd kv)
  else true.

(** An element is [null] or an object whose members fit. *)
Definition recordShaped (v : json.Value) : bool :=
  match v with
  | json.Object members => forallb memberFits members
  | json.Null => true
  | _ => false
  end.

(** The input is valid JSON, and its value is [null] or an array of
    record-shaped elements. *)
Definition acceptedInput (data : string) : bool :=
  match json.parse data with
  | Some json.Null => true
  | Some (json.Array vs) => forallb recordShaped vs
  | _ => false
  end.

(** ** A concrete setting, for examples *)

Definition joinSlash (dir name : string) : string := dir ++ "/" ++ name.

Definition exampleConfig : Config :=
  mkConfig "secret" "org/model" "http://localhost:8080/v1/chat/completions"
    0%float "messages.json" "input" "prompts" "logs".

(** A file system with the input file [inputData] and one prompt file. *)
Definition exampleFiles (inputData : string) (name : string) : FileRead :=
  if String.eqb name "input/messages.json" then Contents inputData
  else if String.eqb name "prompts/system_prompt.md"
  then Contents "You are a helpful assistant."
  else OpenError.

Definition exampleTime : string := "2024-05-01T10:00:00Z".

Definition replies (body : string) : Env :=
  mkEnv (Response 200 (jsonText body) false) true true exampleTime.

Definition unreachable : Env := mkEnv DoError true true exampleTime.

Definition readOnlyDisk : Env := mkEnv DoError false false exampleTime.

Definition replyHi : string :=
  "{'choices':[{'message':{'role':'assistant','content':'hi'}}],"
  ++ "'usage':{'prompt_tokens':3,'completion_tokens':1}}".

(** Input files for the examples. *)
Definition emptyInput : string := "[]".

Definition pingInput : string :=
  jsonText "[{'role':'user','content':'ping'}]".

Definition toolInput : string :=
  jsonText "[{'role':'tool','content':'42'},{'role':'user','content':'ping'}]".

Definition promptInput : string :=
  jsonText "[{'role':'system','file':'system_prompt.md'}]".

Definition ping : Message := mkMessage USER "ping".

Definition hi : Message := mkMessage ASSISTANT "hi".

(** A reply with a letter outside ASCII and characters that the encoder
    escapes. *)
Definition cafe : Message :=
  mkMessage ASSISTANT ("caf" ++ utf8.EncodeRune 0xE9 ++ " <b>").

(** A byte that is not valid UTF-8 on its own. *)
Definition invalidByte : string := String "255"%char "".

(** ** Package [flag]: the command line, for flags of type string *)

Module flag.

(** What [parseOne] makes of the argument it looks at. *)
Inductive Arg : Type :=
| NotAFlag
| Terminator
| BadSyntax
| Help
| NotDefined
| Flag (name : string) (value : option string).

(** [name] cut at its first [=]. *)
Fixpoint cut (s : string) : option (string * string) :=
  match s with
  | EmptyString => None
  | String c r =>
      if Ascii.eqb c "=" then Some (EmptyString, r)
      else
        match cut r with
        | Some (name, value) => Some (String c name, value)
        | None => None
        end
  end.

(** [FlagSet.parseOne] on the argument [s], up to the point where a
    flag written without [=] takes its value from the next argument;
    [formal] holds the names of the flags that are defined.  The search
    for [=] starts behind the first byte of the name. *)
Definition parseOne (formal : list string) (s : string) : Arg :=
  match s with
  | String c0 (String c1 _) =>
      if negb (Ascii.eqb c0 "-") then NotAFlag
      else
        let numMinuses := if Ascii.eqb c1 "-" then 2 else 1 in
        if Ascii.eqb c1 "-" && (length s =? 2)%nat then Terminator
        else
          match drop numMinuses s with
          | EmptyString => BadSyntax
          | String n0 nr =>
              if Ascii.eqb n0 "-" || Ascii.eqb n0 "=" then BadSyntax
              else
                let '(name, value) :=
                  match cut nr with
                  | Some (n, v) => (String n0 n, Some v)
                  | None => (String n0 nr, None)
                  end in
                if negb (existsb (String.eqb name) formal) then
                  if String.eqb name "help" || String.eqb name "h"
                  then Help
                  else NotDefined
                else Flag name value
          end
  | _ => NotAFlag
  end.

(** How [flag.Parse] ends under [ExitOnError]: the flags that were set,
    in order, and the arguments left; or the process has exited, with
    status 0 after [-h] or [-help] and status 2 after an error. *)
Inductive Result : Type :=
| Parsed (actual : list (string * string)) (args : list string)
| Exit (status : Z).

(** The loop of [FlagSet.Parse] over the arguments. *)
Fixpoint parseFrom (formal : list string) (args : list string)
    (actual : list (string * string)) {struct args} : Result :=
  match args with
  | [] => Parsed actual []
  | s :: args' =>
      match parseOne formal s with
      | NotAFlag => Parsed actual args
      | Terminator => Parsed actual args'
      | BadSyntax => Exit 2
      | Help => Exit 0
      | NotDefined => Exit 2
      | Flag name (Some value) =>
          parseFrom formal args' (actual ++ [(name, value)])%list
      | Flag name None =>
          match args' with
          | value :: args'' =>
              parseFrom formal args'' (actual ++ [(name, value)])%list
          | [] => Exit 2
          end
      end
  end.

Definition Parse (formal : list string) (args : list string) : Result :=
  parseFrom formal args [].

(** The value of the string flag [name] after parsing: what the last
    occurrence on the command line set, or else the default. *)
Fixpoint value (actual : list (string * string)) (name : string)
    (default : string) : string :=
  match actual with
  | [] => default
  | (n, v) :: rest =>
      value rest name (if String.eqb n name then v else default)
  end.

End flag.

(** ** [loadConfig] *)

Definition defaultTemperature : float := 0%float.
Definition defaultInputFile : string := "messages.json".
Definition defaultLogsBaseDir : string := "logs".
Definition defaultInputBaseDir : string := "input".
Definition defaultPromptsBaseDir : string := "prompts".

(** The flags [loadConfig] defines. *)
Definition flagNames : list string :=
  ["api-key"; "model"; "url"; "temperature"; "input"; "input-dir";
   "prompts-dir"; "logs-dir"].

Inductive ConfigError : Type :=
| MissingAPIKey
| MissingModel
| MissingURL.

Inductive ConfigLog : Type :=
| WarnDotenv
| WarnTemperature (temperatureStr : string).

(** [loadConfig] returns a configuration or an error, unless [flag.Parse]
    ends the process first. *)
Inductive ConfigResult : Type :=
| ConfigOk (cfg : Config)
| ConfigErr (err : ConfigError)
| ConfigExit (status : Z).

Section LoadConfig.

(** Whether [godotenv.Load] returns an error, the environment as
    [os.Getenv] finds it afterwards, and [strconv.ParseFloat(s, 64)],
    [None] for an error. *)
Variable dotenvError : bool.
Variable Getenv : string -> string.
Variable ParseFloat : string -> option float.

(** [loadConfig] on the command line [args] ([os.Args[1:]]): what it
    logs, and its result. *)
Definition loadConfig (args : list string)
  : list ConfigLog * ConfigResult :=
  let logged := if dotenvError then [WarnDotenv] else [] in
  match flag.Parse flagNames args with
  | flag.Exit status => (logged, ConfigExit status)
  | flag.Parsed actual _ =>
      let apiKey :=
        flag.value actual "api-key" (Getenv "LLM_PROVIDER_KEY") in
      let model := flag.value actual "model" (Getenv "LLM_MODEL") in
      let url := flag.value actual "url" (Getenv "CHAT_COMPLETION_URL") in
      let temperatureStr :=
        flag.value actual "temperature" (Getenv "TEMPERATURE") in
      let inputFile := flag.value actual "input" defaultInputFile in
      let inputDir := flag.value actual "input-dir" defaultInputBaseDir in
      let promptsDir :=
        flag.value actual "prompts-dir" defaultPromptsBaseDir in
      let logsDir := flag.value actual "logs-dir" defaultLogsBaseDir in
      if String.eqb apiKey "" then (logged, ConfigErr MissingAPIKey)
      else if String.eqb model "" then (logged, ConfigErr MissingModel)
      else if String.eqb url "" then (logged, ConfigErr MissingURL)
      else
        match ParseFloat temperatureStr with
        | Some temperature =>
            (logged,
             ConfigOk
               (mkConfig apiKey model url temperature inputFile inputDir
                  promptsDir logsDir))
        | None =>
            ((logged ++ [WarnTemperature temperatureStr])%list,
             ConfigOk
               (mkConfig apiKey model url defaultTemperature inputFile
                  inputDir promptsDir logsDir))
        end
  end.

End LoadConfig.

(** ** The process as a whole *)

(** How the process ends before a session, or the session it runs. *)
Inductive Process : Type :=
| ExitedInFlags (status : Z)
| FatalConfiguration (err : ConfigError)
| Session (st : State) (events : list Event).

Section Program.

Variable dotenvError : bool.
Variable Getenv : string -> string.
Variable ParseFloat : string -> option float.
Variable path_Join : string -> string -> string.
Variable readFile : string -> FileRead.

(** [main] from its first line: [loadConfig], a fatal exit on its
    error, and the rest of [main] with the configuration. *)
Definition program (args : list string) (stdin : string)
    (envs : list Env) : Process :=
  match snd (loadConfig dotenvError Getenv ParseFloat args) with
  | ConfigExit status => ExitedInFlags status
  | ConfigErr err => FatalConfiguration err
  | ConfigOk cfg =>
      let '(st, events) := main path_Join readFile cfg stdin envs in
      Session st events
  end.

End Program.

(** ** Notions for the statements about the whole program *)

(** How often [role] occurs in a Conversation. *)
Definition roleCount (role : MsgRole) (msgs : list Message) : nat :=
  List.length (filter (fun m => String.eqb (Role m) role) msgs).

(** No member of an object selects the field [name]. *)
Definition lacks (name : string) (members : list (string * json.Value))
  : bool :=
  forallb (fun kv => negb (json.fieldIs (fst kv) name)) members.

(** Every byte of [s] is in ASCII. *)
Fixpoint asciiOnly (s : string) : bool :=
  match s with
  | EmptyString => true
  | String c s' => (b2n c <? 0x80)%N && asciiOnly s'
  end.

(** A remote call that hands no body to [json.Unmarshal]. *)
Definition noReply (outcome : RemoteOutcome) : bool :=
  match outcome with
  | MarshalError | NewRequestError | DoError => true
  | Response StatusCode _ readError =>
      negb (StatusCode =? StatusOK)%Z || readError
  end.

(** The ways to write a flag and its value on the command line. *)
Inductive Spelling : Type :=
| Dash
| DashEquals
| DashDash
| DashDashEquals.

Definition spell (sp : Spelling) (name value : string) : list string :=
  match sp with
  | Dash => ["-" ++ name; value]
  | DashEquals => ["-" ++ name ++ "=" ++ value]
  | DashDash => ["--" ++ name; value]
  | DashDashEquals => ["--" ++ name ++ "=" ++ value]
  end.

(** The flag [name] is one of those [loadConfig] defines. *)
Definition isDefined (name : string) : bool :=
  existsb (String.eqb name) flagNames.

(** The flag [name] occurs in [flags]. *)
Definition given (name : string) (flags : list (Spelling * (string * string)))
  : bool :=
  existsb (fun f => String.eqb (fst (snd f)) name) flags.

(** An argument that is no flag: it is shorter than two bytes or does
    not begin with a dash. *)
Definition positional (s : string) : bool :=
  match s with
  | String c0 (String _ _) => negb (Ascii.eqb c0 "-")
  | _ => true
  end.


Fixpoint spellAll (flags : list (Spelling * (string * string)))
  : list string :=
  match flags with
  | [] => []
  | (sp, (name, value)) :: rest =>
      (spell sp name value ++ spellAll rest)%list
  end.

(** An environment for the examples: the three required settings. *)
Definition exampleGetenv (name : string) : string :=
  if String.eqb name "LLM_PROVIDER_KEY" then "secret"
  else if String.eqb name "LLM_MODEL" then "org/model"
  else if String.eqb name "CHAT_COMPLETION_URL" then "http://localhost:8080"
  else "".

(** A [strconv.ParseFloat] that knows two literals. *)
Definition exampleParseFloat (s : string) : option float :=
  if String.eqb s "0" then Some 0%float
  else if String.eqb s "1" then Some 1%float
  else None.

(** * Properties *)

(** ** Strings and lines *)

Lemma length_append (s t : string) : length (s ++ t) = length s + length t.
Proof. induction s as [|c s IH]; simpl; [reflexivity | now rewrite IH]. Qed.

Lemma take_drop (n : nat) (s : string) : take n s ++ drop n s = s.
Proof.
  revert s; induction n as [|n IH]; intros [|c s]; simpl; try reflexivity.
  now rewrite IH.
Qed.

Lemma take_app_length (s t : string) : take (length s) (s ++ t) = s.
Proof. induction s as [|c s IH]; simpl; [now destruct t | now rewrite IH]. Qed.

Lemma drop_app_length (s t : string) : drop (length s) (s ++ t) = t.
Proof. induction s as [|c s IH]; simpl; [reflexivity | exact IH]. Qed.

Lemma contains_app (s t : string) (b : ascii) :
  contains (s ++ t) b = contains s b || contains t b.
Proof.
  induction s as [|c s IH]; simpl; [reflexivity|].
  now rewrite IH, orb_assoc.
Qed.

Lemma ReadString_line (line rest : string) :
  contains line LF = false ->
  ReadString (line ++ String LF rest) LF = (line ++ String LF "", rest, false).
Proof.
  induction line as [|c line IH]; simpl; intros H.
  - reflexivity.
  - apply orb_false_iff in H as [Hc Hl].
    rewrite Hc, (IH Hl). reflexivity.
Qed.

Lemma ReadString_eof (s : string) :
  contains s LF = false -> ReadString s LF = (s, "", true).
Proof.
  induction s as [|c s IH]; simpl; intros H.
  - reflexivity.
  - apply orb_false_iff in H as [Hc Hl].
    rewrite Hc, (IH Hl). reflexivity.
Qed.

Lemma HasSuffix_app (s suffix : string) : HasSuffix (s ++ suffix) suffix = true.
Proof.
  unfold HasSuffix. rewrite length_append.
  replace (length s + length suffix - length suffix) with (length s) by lia.
  rewrite drop_app_length, String.eqb_refl, andb_true_r.
  apply Nat.leb_le. lia.
Qed.

Lemma TrimSuffix_app (s suffix : string) : TrimSuffix (s ++ suffix) suffix = s.
Proof.
  unfold TrimSuffix. rewrite HasSuffix_app, length_append.
  replace (length s + length suffix - length suffix) with (length s) by lia.
  apply take_app_length.
Qed.

Lemma HasSuffix_contains (s suffix : string) (b : ascii) :
  HasSuffix s suffix = true -> contains suffix b = true -> contains s b = true.
Proof.
  unfold HasSuffix. intros H Hb.
  apply andb_true_iff in H as [_ H]. apply String.eqb_eq in H.
  rewrite <- (take_drop (length s - length suffix) s), contains_app, H, Hb.
  apply orb_true_r.
Qed.

Lemma TrimSuffix_absent (s suffix : string) (b : ascii) :
  contains s b = false -> contains suffix b = true -> TrimSuffix s suffix = s.
Proof.
  intros Hs Hb. unfold TrimSuffix.
  destruct (HasSuffix s suffix) eqn:E; [|reflexivity].
  rewrite (HasSuffix_contains _ _ _ E Hb) in Hs. discriminate.
Qed.

(** A line that [ReadString] delivers ends with its only newline; the
    first trim removes it and the second trim then finds no newline left to
    match. *)
Lemma readUserInput_line (line rest : string) :
  contains line LF = false ->
  readUserInput (line ++ String LF rest) = (Some line, rest).
Proof.
  intros H. unfold readUserInput.
  rewrite (ReadString_line _ _ H). cbv iota beta.
  rewrite TrimSuffix_app.
  now rewrite (TrimSuffix_absent line (String CR (String LF "")) LF H eq_refl).
Qed.

Lemma readUserInput_eof (s : string) :
  contains s LF = false -> readUserInput s = (None, "").
Proof.
  intros H. unfold readUserInput. now rewrite (ReadString_eof _ H).
Qed.

(** ** UTF-8: encoding a decoded rune gives back its bytes *)

Module utf8_facts.
Import utf8.
Local Open Scope N_scope.

(** Linear arithmetic with division and remainder by constants. *)
Ltac divlia := zify; Z.to_euclidean_division_equations; lia.

Lemma b2n_lt (c : ascii) : b2n c < 256.
Proof. apply N_ascii_bounded. Qed.

Lemma n2b_b2n (c : ascii) : n2b (b2n c) = c.
Proof. apply ascii_N_embedding. Qed.

Lemma testbit_small (b n m : N) : b < 2 ^ n -> n <= m -> N.testbit b m = false.
Proof.
  intros Hb Hm. destruct (N.eq_dec b 0) as [-> | Hz].
  - apply N.bits_0.
  - apply N.bits_above_log2.
    apply N.lt_le_trans with n; [|exact Hm].
    now apply N.log2_lt_pow2; [lia|].
Qed.

(** Bits that do not overlap add up. *)
Lemma lor_add (x b n : N) :
  x mod 2 ^ n = 0 -> b < 2 ^ n -> N.lor x b = x + b.
Proof.
  intros Hx Hb.
  assert (Hland : N.land x b = 0).
  { apply N.bits_inj. intros m. rewrite N.land_spec, N.bits_0.
    destruct (N.lt_ge_cases m n) as [Hlt | Hge].
    - replace x with (N.shiftl (x / 2 ^ n) n).
      + now rewrite N.shiftl_spec_low.
      + rewrite N.shiftl_mul_pow2.
        pose proof (N.div_mod x (2 ^ n)) as D.
        assert (2 ^ n <> 0) by (apply N.pow_nonzero; lia).
        rewrite Hx, N.add_0_r, N.mul_comm in D. symmetry. now apply D.
    - rewrite (testbit_small b n m Hb Hge). apply andb_false_r. }
  now rewrite <- N.lxor_lor, <- N.add_nocarry_lxor.
Qed.

Lemma land_maskx (x : N) : N.land x maskx = x mod 64.
Proof. change maskx with (N.ones 6). now rewrite N.land_ones. Qed.
Lemma land_mask2 (x : N) : N.land x mask2 = x mod 32.
Proof. change mask2 with (N.ones 5). now rewrite N.land_ones. Qed.
Lemma land_mask3 (x : N) : N.land x mask3 = x mod 16.
Proof. change mask3 with (N.ones 4). now rewrite N.land_ones. Qed.
Lemma land_mask4 (x : N) : N.land x mask4 = x mod 8.
Proof. change mask4 with (N.ones 3). now rewrite N.land_ones. Qed.

Lemma shiftl6 (x : N) : N.shiftl x 6 = x * 64.
Proof. now rewrite N.shiftl_mul_pow2. Qed.
Lemma shiftl12 (x : N) : N.shiftl x 12 = x * 4096.
Proof. now rewrite N.shiftl_mul_pow2. Qed.
Lemma shiftl18 (x : N) : N.shiftl x 18 = x * 262144.
Proof. now rewrite N.shiftl_mul_pow2. Qed.
Lemma shiftr6 (x : N) : N.shiftr x 6 = x / 64.
Proof. now rewrite N.shiftr_div_pow2. Qed.
Lemma shiftr12 (x : N) : N.shiftr x 12 = x / 4096.
Proof. now rewrite N.shiftr_div_pow2. Qed.
Lemma shiftr18 (x : N) : N.shiftr x 18 = x / 262144.
Proof. now rewrite N.shiftr_div_pow2. Qed.

(** The rune of a two, three and four byte sequence, in arithmetic. *)
Lemma rune2 (p0 b1 : N) :
  N.lor (N.shiftl (N.land p0 mask2) 6) (N.land b1 maskx)
  = (p0 mod 32) * 64 + b1 mod 64.
Proof.
  rewrite land_mask2, land_maskx, shiftl6.
  apply (lor_add _ _ 6); [|change (2 ^ 6) with 64; divlia].
  change (2 ^ 6) with 64. divlia.
Qed.

Lemma rune3 (p0 b1 b2 : N) :
  N.lor (N.lor (N.shiftl (N.land p0 mask3) 12)
               (N.shiftl (N.land b1 maskx) 6))
        (N.land b2 maskx)
  = (p0 mod 16) * 4096 + (b1 mod 64) * 64 + b2 mod 64.
Proof.
  rewrite land_mask3, !land_maskx, shiftl6, shiftl12.
  rewrite (lor_add (p0 mod 16 * 4096) (b1 mod 64 * 64) 12);
    change (2 ^ 12) with 4096; try divlia.
  apply (lor_add _ _ 6); change (2 ^ 6) with 64; divlia.
Qed.

Lemma rune4 (p0 b1 b2 b3 : N) :
  N.lor (N.lor (N.lor (N.shiftl (N.land p0 mask4) 18)
                      (N.shiftl (N.land b1 maskx) 12))
               (N.shiftl (N.land b2 maskx) 6))
        (N.land b3 maskx)
  = (p0 mod 8) * 262144 + (b1 mod 64) * 4096 + (b2 mod 64) * 64
    + b3 mod 64.
Proof.
  rewrite land_mask4, !land_maskx, shiftl6, shiftl12, shiftl18.
  rewrite (lor_add (p0 mod 8 * 262144) (b1 mod 64 * 4096) 18);
    change (2 ^ 18) with 262144; try divlia.
  rewrite (lor_add (p0 mod 8 * 262144 + b1 mod 64 * 4096)
             (b2 mod 64 * 64) 12);
    change (2 ^ 12) with 4096; try divlia.
  apply (lor_add _ _ 6); change (2 ^ 6) with 64; divlia.
Qed.

(** The bytes [EncodeRune] writes, in arithmetic. *)
Lemma lead2 (r : N) : r < 2048 -> N.lor t2 (N.shiftr r 6) = 192 + r / 64.
Proof.
  intros H. rewrite shiftr6. apply (lor_add _ _ 5); [reflexivity|].
  change (2 ^ 5) with 32. divlia.
Qed.

Lemma lead3 (r : N) : r < 65536 -> N.lor t3 (N.shiftr r 12) = 224 + r / 4096.
Proof.
  intros H. rewrite shiftr12. apply (lor_add _ _ 4); [reflexivity|].
  change (2 ^ 4) with 16. divlia.
Qed.

Lemma lead4 (r : N) :
  r < 2097152 -> N.lor t4 (N.shiftr r 18) = 240 + r / 262144.
Proof.
  intros H. rewrite shiftr18. apply (lor_add _ _ 3); [reflexivity|].
  change (2 ^ 3) with 8. divlia.
Qed.

Lemma cont (x : N) : N.lor tx (N.land x maskx) = 128 + x mod 64.
Proof.
  rewrite land_maskx. apply (lor_add _ _ 6); [reflexivity|].
  change (2 ^ 6) with 64. divlia.
Qed.


Lemma first_ASCII (p0 : N) : first p0 = ASCII -> p0 < 128.
Proof.
  unfold first.
  repeat match goal with
         | |- context [if ?a <? ?b then _ else _] =>
             destruct (N.ltb_spec a b)
         | |- context [if ?a =? ?b then _ else _] =>
             destruct (N.eqb_spec a b)
         end; intros E; try discriminate E; assumption.
Qed.

(** The rows [s1] .. [s7] of the table [first]. *)
Lemma first_Lead (p0 : N) (sz : nat) (lo hi : N) :
  first p0 = Lead sz lo hi ->
  128 <= lo /\ hi <= 191
  /\ ((sz = 2%nat /\ 194 <= p0 < 224)
      \/ (sz = 3%nat /\ 224 <= p0 < 240
          /\ (p0 = 224 -> 160 <= lo) /\ (p0 = 237 -> hi <= 159))
      \/ (sz = 4%nat /\ 240 <= p0 <= 244
          /\ (p0 = 240 -> 144 <= lo) /\ (p0 = 244 -> hi <= 143))).
Proof.
  unfold first, locb, hicb.
  repeat match goal with
         | |- context [if ?a <? ?b then _ else _] =>
             destruct (N.ltb_spec a b)
         | |- context [if ?a =? ?b then _ else _] =>
             destruct (N.eqb_spec a b)
         end; intros E; try discriminate E;
    injection E as <- <- <-; repeat split; try lia;
    first [left; repeat split; lia
          | right; left; repeat split; lia
          | right; right; repeat split; lia].
Qed.

Lemma outside_false (b lo hi : N) :
  outside b lo hi = false -> lo <= b <= hi.
Proof.
  unfold outside. intros H. apply orb_false_iff in H as [H1 H2].
  apply N.ltb_ge in H1, H2. lia.
Qed.

Ltac leb_cases :=
  repeat match goal with
         | |- context [?a <=? ?b] => destruct (N.leb_spec a b)
         | |- context [?a <? ?b] => destruct (N.ltb_spec a b)
         end; cbn [orb andb]; try (exfalso; divlia).

Lemma encode2 (c0 c1 : ascii) :
  194 <= b2n c0 < 224 -> 128 <= b2n c1 <= 191 ->
  EncodeRune ((b2n c0 mod 32) * 64 + b2n c1 mod 64)
  = String c0 (String c1 "").
Proof.
  intros H0 H1. unfold EncodeRune, rune1Max, rune2Max.
  set (r := b2n c0 mod 32 * 64 + b2n c1 mod 64).
  assert (Hr : 128 <= r < 2048) by (subst r; divlia).
  leb_cases.
  all: rewrite lead2, cont by lia.
  all: replace (192 + r / 64) with (b2n c0) by (subst r; divlia).
  all: replace (128 + r mod 64) with (b2n c1) by (subst r; divlia).
  all: now rewrite !n2b_b2n.
Qed.

Lemma encode3 (c0 c1 c2 : ascii) :
  224 <= b2n c0 < 240 -> 128 <= b2n c1 <= 191 -> 128 <= b2n c2 <= 191 ->
  (b2n c0 = 224 -> 160 <= b2n c1) -> (b2n c0 = 237 -> b2n c1 <= 159) ->
  EncodeRune ((b2n c0 mod 16) * 4096 + (b2n c1 mod 64) * 64
              + b2n c2 mod 64)
  = String c0 (String c1 (String c2 "")).
Proof.
  intros H0 H1 H2 Hlo Hhi.
  unfold EncodeRune, rune1Max, rune2Max, rune3Max, MaxRune, surrogateMin,
    surrogateMax.
  set (r := b2n c0 mod 16 * 4096 + b2n c1 mod 64 * 64 + b2n c2 mod 64).
  assert (Hr : 2048 <= r < 65536 /\ (r < 55296 \/ 57343 < r)).
  { subst r. destruct (N.eq_dec (b2n c0) 224) as [E|E];
      [specialize (Hlo E)|];
      (destruct (N.eq_dec (b2n c0) 237) as [E'|E'];
       [specialize (Hhi E')|]); divlia. }
  leb_cases.
  all: rewrite lead3, !cont, shiftr6 by lia.
  all: replace (224 + r / 4096) with (b2n c0) by (subst r; divlia).
  all: replace (128 + (r / 64) mod 64) with (b2n c1) by (subst r; divlia).
  all: replace (128 + r mod 64) with (b2n c2) by (subst r; divlia).
  all: now rewrite !n2b_b2n.
Qed.

Lemma encode4 (c0 c1 c2 c3 : ascii) :
  240 <= b2n c0 <= 244 -> 128 <= b2n c1 <= 191 -> 128 <= b2n c2 <= 191 ->
  128 <= b2n c3 <= 191 ->
  (b2n c0 = 240 -> 144 <= b2n c1) -> (b2n c0 = 244 -> b2n c1 <= 143) ->
  EncodeRune ((b2n c0 mod 8) * 262144 + (b2n c1 mod 64) * 4096
              + (b2n c2 mod 64) * 64 + b2n c3 mod 64)
  = String c0 (String c1 (String c2 (String c3 ""))).
Proof.
  intros H0 H1 H2 H3 Hlo Hhi.
  unfold EncodeRune, rune1Max, rune2Max, rune3Max, MaxRune, surrogateMin,
    surrogateMax.
  set (r := b2n c0 mod 8 * 262144 + b2n c1 mod 64 * 4096
            + b2n c2 mod 64 * 64 + b2n c3 mod 64).
  assert (Hr : 65536 <= r <= 1114111).
  { subst r. destruct (N.eq_dec (b2n c0) 240) as [E|E];
      [specialize (Hlo E)|];
      (destruct (N.eq_dec (b2n c0) 244) as [E'|E'];
       [specialize (Hhi E')|]); divlia. }
  leb_cases.
  all: rewrite lead4, !cont, shiftr6, shiftr12 by lia.
  all: replace (240 + r / 262144) with (b2n c0) by (subst r; divlia).
  all: replace (128 + (r / 4096) mod 64) with (b2n c1) by (subst r; divlia).
  all: replace (128 + (r / 64) mod 64) with (b2n c2) by (subst r; divlia).
  all: replace (128 + r mod 64) with (b2n c3) by (subst r; divlia).
  all: now rewrite !n2b_b2n.
Qed.


Lemma high_byte (c : ascii) (lo hi : N) :
  128 <= lo -> lo <= b2n c <= hi -> (128 <=? b2n c) = true.
Proof. intros. apply N.leb_le. lia. Qed.

(** A sequence that [DecodeRune] accepts at a byte outside ASCII: its
    bytes are all outside ASCII, [EncodeRune] of the rune writes the same
    bytes, and what follows them plays no part. *)
Lemma DecodeRune_valid (c0 : ascii) (p1 : string) :
  128 <= b2n c0 ->
  isError (DecodeRune (String c0 p1)) = false ->
  exists bs rest : string,
    String c0 p1 = (bs ++ rest)%string
    /\ length bs = snd (DecodeRune (String c0 p1))
    /\ (1 <= length bs)%nat
    /\ highBytes bs = true
    /\ EncodeRune (fst (DecodeRune (String c0 p1))) = bs
    /\ forall X : string,
         DecodeRune (bs ++ X)%string = DecodeRune (String c0 p1).
Proof.
  intros H0 Herr.
  destruct (first (b2n c0)) as [| |sz lo hi] eqn:F.
  - apply first_ASCII in F. lia.
  - unfold DecodeRune in Herr. rewrite F in Herr. discriminate Herr.
  - pose proof (first_Lead _ _ _ _ F) as [Hlo [Hhi Hcases]].
    destruct Hcases as [[-> R0] | [[-> [R0 [Elo Ehi]]] | [-> [R0 [Elo Ehi]]]]].
    + (* two bytes *)
      destruct p1 as [|c1 p2];
        [unfold DecodeRune in Herr; rewrite F in Herr; discriminate Herr|].
      assert (E : forall X,
                 DecodeRune (String c0 (String c1 X))
                 = if outside (b2n c1) lo hi then (RuneError, 1%nat)
                   else (b2n c0 mod 32 * 64 + b2n c1 mod 64, 2%nat)).
      { intros X. unfold DecodeRune. rewrite F, rune2. reflexivity. }
      rewrite (E p2) in *.
      destruct (outside (b2n c1) lo hi) eqn:O1; [discriminate Herr|].
      apply outside_false in O1.
      exists (String c0 (String c1 "")), p2. cbn [fst snd length].
      repeat split; try reflexivity; try lia.
      * cbn [highBytes]. rewrite (high_byte c1 lo hi) by lia.
        rewrite !andb_true_r. apply N.leb_le. lia.
      * apply encode2; lia.
      * intros X. cbn [append]. now rewrite (E X).
    + (* three bytes *)
      destruct p1 as [|c1 [|c2 p3]];
        try (unfold DecodeRune in Herr; rewrite F in Herr;
             cbn in Herr;
             repeat match type of Herr with
                    | context [if ?b then _ else _] => destruct b
                    end; discriminate Herr).
      assert (E : forall X,
                 DecodeRune (String c0 (String c1 (String c2 X)))
                 = if outside (b2n c1) lo hi then (RuneError, 1%nat)
                   else if outside (b2n c2) locb hicb
                   then (RuneError, 1%nat)
                   else (b2n c0 mod 16 * 4096 + b2n c1 mod 64 * 64
                         + b2n c2 mod 64, 3%nat)).
      { intros X. unfold DecodeRune. rewrite F, rune3. reflexivity. }
      rewrite (E p3) in *.
      destruct (outside (b2n c1) lo hi) eqn:O1; [discriminate Herr|].
      destruct (outside (b2n c2) locb hicb) eqn:O2; [discriminate Herr|].
      pose proof (outside_false _ _ _ O1) as B1.
      pose proof (outside_false _ _ _ O2) as B2.
      unfold locb, hicb in B2.
      exists (String c0 (String c1 (String c2 ""))), p3.
      cbn [fst snd length].
      repeat split; try reflexivity; try lia.
      * cbn [highBytes].
        rewrite (high_byte c1 lo hi), (high_byte c2 128 191) by lia.
        rewrite !andb_true_r. apply N.leb_le. lia.
      * apply encode3; lia.
      * intros X. cbn [append]. now rewrite (E X).
    + (* four bytes *)
      destruct p1 as [|c1 [|c2 [|c3 p4]]];
        try (unfold DecodeRune in Herr; rewrite F in Herr;
             cbn in Herr;
             repeat match type of Herr with
                    | context [if ?b then _ else _] => destruct b
                    end; discriminate Herr).
      assert (E : forall X,
                 DecodeRune (String c0 (String c1 (String c2 (String c3 X))))
                 = if outside (b2n c1) lo hi then (RuneError, 1%nat)
                   else if outside (b2n c2) locb hicb
                   then (RuneError, 1%nat)
                   else if outside (b2n c3) locb hicb
                   then (RuneError, 1%nat)
                   else (b2n c0 mod 8 * 262144 + b2n c1 mod 64 * 4096
                         + b2n c2 mod 64 * 64 + b2n c3 mod 64, 4%nat)).
      { intros X. unfold DecodeRune. rewrite F, rune4. reflexivity. }
      rewrite (E p4) in *.
      destruct (outside (b2n c1) lo hi) eqn:O1; [discriminate Herr|].
      destruct (outside (b2n c2) locb hicb) eqn:O2; [discriminate Herr|].
      destruct (outside (b2n c3) locb hicb) eqn:O3; [discriminate Herr|].
      pose proof (outside_false _ _ _ O1) as B1.
      pose proof (outside_false _ _ _ O2) as B2.
      pose proof (outside_false _ _ _ O3) as B3.
      unfold locb, hicb in B2, B3.
      exists (String c0 (String c1 (String c2 (String c3 "")))), p4.
      cbn [fst snd length].
      repeat split; try reflexivity; try lia.
      * cbn [highBytes].
        rewrite (high_byte c1 lo hi), (high_byte c2 128 191),
          (high_byte c3 128 191) by lia.
        rewrite !andb_true_r. apply N.leb_le. lia.
      * apply encode4; lia.
      * intros X. cbn [append]. now rewrite (E X).
Qed.

End utf8_facts.

(** ** Strings through the encoder, the scanner and [unquote] *)

Module string_facts.
Import utf8 json utf8_facts.

Lemma append_nil_r (s : string) : s ++ "" = s.
Proof. induction s as [|c s IH]; simpl; [reflexivity | now rewrite IH]. Qed.

Lemma append_assoc (a b c : string) : (a ++ b) ++ c = a ++ (b ++ c).
Proof. induction a as [|x a IH]; simpl; [reflexivity | now rewrite IH]. Qed.

Lemma scanned_app (a b : string) (r : option (string * string)) :
  scanned (a ++ b) r = scanned a (scanned b r).
Proof. destruct r as [[raw rest]|]; simpl; [|reflexivity].
       now rewrite append_assoc. Qed.

Lemma unquoted_app (a b : string) (r : option string) :
  unquoted (a ++ b) r = unquoted a (unquoted b r).
Proof. destruct r as [t|]; simpl; [|reflexivity].
       now rewrite append_assoc. Qed.

Lemma isByte_false (c x : ascii) : b2n c <> b2n x -> isByte c x = false.
Proof.
  intros H. unfold isByte. apply Ascii.eqb_neq. intros ->. now apply H.
Qed.

(** A byte that is no quote, no backslash and no control character
    passes the scanner. *)
Lemma scanString_plain (c : ascii) (t : string) :
  isByte c DQUOTE = false -> isByte c BACKSLASH = false ->
  (b2n c <? 0x20)%N = false ->
  scanString (String c t) = scanned (String c "") (scanString t).
Proof.
  intros H1 H2 H3. cbn [scanString]. rewrite H1, H2, H3.
  now destruct (scanString t) as [[raw rest]|].
Qed.

Lemma high_is_plain (c : ascii) :
  (0x80 <=? b2n c)%N = true ->
  isByte c DQUOTE = false /\ isByte c BACKSLASH = false
  /\ (b2n c <? 0x20)%N = false /\ (b2n c <? RuneSelf)%N = false.
Proof.
  intros H. apply N.leb_le in H. repeat split.
  - apply isByte_false. change (b2n DQUOTE) with 34%N. lia.
  - apply isByte_false. change (b2n BACKSLASH) with 92%N. lia.
  - apply N.ltb_ge. lia.
  - apply N.ltb_ge. unfold RuneSelf. lia.
Qed.

Lemma safe_is_plain (c : ascii) :
  htmlSafeSet c = true ->
  isByte c DQUOTE = false /\ isByte c BACKSLASH = false
  /\ (b2n c <? 0x20)%N = false.
Proof.
  unfold htmlSafeSet. intros H. apply negb_true_iff in H.
  apply orb_false_iff in H as [H _].
  apply orb_false_iff in H as [H _].
  apply orb_false_iff in H as [H _].
  apply orb_false_iff in H as [H H2].
  apply orb_false_iff in H as [H3 H1].
  auto.
Qed.

Lemma scanString_high (bs t : string) :
  highBytes bs = true ->
  scanString (bs ++ t) = scanned bs (scanString t).
Proof.
  induction bs as [|c bs IH]; intros H.
  - cbn [append]. now destruct (scanString t) as [[raw rest]|].
  - cbn [highBytes] in H. apply andb_true_iff in H as [Hc Hbs].
    destruct (high_is_plain c Hc) as [H1 [H2 [H3 _]]].
    cbn [append]. rewrite (scanString_plain c _ H1 H2 H3), (IH Hbs).
    now rewrite <- scanned_app.
Qed.

(** The escapes the encoder writes are escapes the scanner accepts. *)
Lemma scanString_escapeASCII (b : ascii) (t : string) :
  scanString (escapeASCII b ++ t) = scanned (escapeASCII b) (scanString t).
Proof.
  destruct b as [[] [] [] [] [] [] [] []];
    cbn; now destruct (scanString t) as [[raw rest]|].
Qed.

Lemma scanString_u (h1 h2 h3 h4 : ascii) (t : string) :
  isHex h1 && isHex h2 && isHex h3 && isHex h4 = true ->
  scanString (String BACKSLASH (String "u" (String h1 (String h2
                (String h3 (String h4 t))))))
  = scanned (String BACKSLASH (String "u" (String h1 (String h2
               (String h3 (String h4 ""))))))
      (scanString t).
Proof.
  intros H. cbn [scanString]. cbn. rewrite H.
  now destruct (scanString t) as [[raw rest]|].
Qed.

Lemma hexVal_hex (n : N) : (n < 16)%N -> hexVal (hex n) = Some n.
Proof.
  intros H. rewrite <- (N2Nat.id n).
  assert (Hk : (N.to_nat n < 16)%nat) by lia.
  revert Hk. generalize (N.to_nat n) as k. intros k Hk.
  do 16 (destruct k as [|k]; [reflexivity|]). lia.
Qed.

Lemma isHex_hex (n : N) : (n < 16)%N -> isHex (hex n) = true.
Proof. intros H. unfold isHex. now rewrite hexVal_hex. Qed.

Lemma land_0xF_lt (n : N) : (N.land n 0xF < 16)%N.
Proof.
  change 0xF%N with (N.ones 4). rewrite N.land_ones.
  now apply N.mod_lt.
Qed.

(** Whatever the encoder writes for a string, the scanner passes over
    it. *)
Lemma scanString_appendFrom (fuel : nat) :
  forall s t : string,
    scanString (appendFrom fuel s ++ t)
    = scanned (appendFrom fuel s) (scanString t).
Proof.
  induction fuel as [|fuel IH]; intros s t.
  - destruct s; cbn [appendFrom append];
      now destruct (scanString t) as [[raw rest]|].
  - destruct s as [|b rest];
      [cbn [appendFrom append];
       now destruct (scanString t) as [[raw rest]|]|].
    cbn [appendFrom].
    destruct (b2n b <? RuneSelf)%N eqn:Hb.
    + destruct (htmlSafeSet b) eqn:Hsafe.
      * destruct (safe_is_plain b Hsafe) as [H1 [H2 H3]].
        cbn [append].
        rewrite (scanString_plain b _ H1 H2 H3), IH.
        now rewrite <- scanned_app.
      * rewrite append_assoc, scanString_escapeASCII, IH.
        now rewrite <- scanned_app.
    + destruct (isError (DecodeRune (String b rest))) eqn:Herr.
      * rewrite append_assoc.
        change (String BACKSLASH "ufffd" ++ appendFrom fuel _ ++ t)
          with (String BACKSLASH (String "u" (String "f" (String "f"
                  (String "f" (String "d"
                     (appendFrom fuel
                        (drop (snd (DecodeRune (String b rest)))
                           (String b rest)) ++ t))))))).
        rewrite scanString_u by reflexivity. rewrite IH.
        now rewrite <- scanned_app.
      * destruct ((fst (DecodeRune (String b rest)) =? 0x2028)%N
                  || (fst (DecodeRune (String b rest)) =? 0x2029)%N).
        -- rewrite !append_assoc. cbn [append].
           rewrite scanString_u
             by (cbn [isHex hexVal andb]; apply isHex_hex, land_0xF_lt).
           rewrite IH. now rewrite <- scanned_app.
        -- apply N.ltb_ge in Hb. unfold RuneSelf in Hb.
           destruct (DecodeRune_valid b rest Hb Herr)
             as [bs [rest' [Es [Hlen [_ [Hhigh _]]]]]].
           rewrite <- Hlen, Es, take_app_length, drop_app_length.
           rewrite append_assoc, (scanString_high _ _ Hhigh), IH.
           now rewrite <- scanned_app.
Qed.


(** *** [unquote] undoes the encoder on valid UTF-8 *)

Lemma DecodeRune_ASCII (b : ascii) (rest : string) :
  (b2n b <? RuneSelf)%N = true ->
  DecodeRune (String b rest) = (b2n b, 1%nat).
Proof.
  intros H. apply N.ltb_lt in H. unfold RuneSelf in H.
  unfold DecodeRune, first.
  destruct (N.ltb_spec (b2n b) 0x80); [reflexivity | lia].
Qed.

Lemma unquoteFrom_safe (f : nat) (c : ascii) (X : string) :
  (b2n c <? RuneSelf)%N = true -> htmlSafeSet c = true ->
  unquoteFrom (S f) (String c X)
  = unquoted (String c "") (unquoteFrom f X).
Proof.
  intros Hc Hs. destruct (safe_is_plain c Hs) as [H1 [H2 H3]].
  cbn [unquoteFrom]. rewrite H2, H1, H3, Hc. cbn [orb].
  now destruct (unquoteFrom f X).
Qed.

(** Each escape of an ASCII byte is read back as that byte. *)
Lemma unquoteFrom_escapeASCII (f : nat) (b : ascii) (X : string) :
  (b2n b <? RuneSelf)%N = true ->
  unquoteFrom (S f) (escapeASCII b ++ X)
  = unquoted (String b "") (unquoteFrom f X).
Proof.
  intros Hb.
  destruct b as [[] [] [] [] [] [] [] []]; try discriminate Hb;
    cbn; now destruct (unquoteFrom f X).
Qed.

Lemma unquoteFrom_u202 (f : nat) (r : N) (X : string) :
  r = 0x2028%N \/ r = 0x2029%N ->
  unquoteFrom (S f)
    (String BACKSLASH "u202" ++ String (hex (N.land r 0xF)) "" ++ X)
  = unquoted (EncodeRune r) (unquoteFrom f X).
Proof.
  intros [-> | ->]; cbn; now destruct (unquoteFrom f X).
Qed.

Lemma unquoteFrom_high (f : nat) (c : ascii) (s : string) :
  (0x80 <=? b2n c)%N = true ->
  unquoteFrom (S f) (String c s)
  = unquoted (EncodeRune (fst (DecodeRune (String c s))))
      (unquoteFrom f (drop (snd (DecodeRune (String c s))) (String c s))).
Proof.
  intros Hc. destruct (high_is_plain c Hc) as [H1 [H2 [H3 H4]]].
  cbn [unquoteFrom]. rewrite H2, H1, H3, H4. cbn [orb].
  now destruct (unquoteFrom f _).
Qed.

Lemma escapeASCII_length (b : ascii) : (1 <= length (escapeASCII b))%nat.
Proof.
  unfold escapeASCII.
  repeat match goal with
         | |- context [if ?c then _ else _] => destruct c
         end; cbn; lia.
Qed.

Lemma unquoteFrom_ufffd (f : nat) (X : string) :
  unquoteFrom (S f) (String BACKSLASH "ufffd" ++ X)
  = unquoted (EncodeRune RuneError) (unquoteFrom f X).
Proof. cbn. now destruct (unquoteFrom f X). Qed.

Lemma isError_width (d : N * nat) : isError d = true -> snd d = 1%nat.
Proof.
  unfold isError. intros H. apply andb_true_iff in H as [_ H].
  now apply Nat.eqb_eq in H.
Qed.

(** What the encoder writes for [s] is read back as [s] with its
    invalid bytes replaced. *)
Lemma unquoteFrom_appendFrom (fuel : nat) :
  forall (s : string) (f : nat),
    (length s <= fuel)%nat ->
    (length (appendFrom fuel s) <= f)%nat ->
    unquoteFrom f (appendFrom fuel s) = Some (coerceFrom fuel s).
Proof.
  induction fuel as [|fuel IH]; intros s f Hl Hf.
  - destruct s; [now destruct f | simpl in Hl; lia].
  - destruct s as [|b rest]; [now destruct f|].
    cbn [appendFrom coerceFrom] in *. cbn [length] in Hl.
    destruct (b2n b <? RuneSelf)%N eqn:Hb.
    + rewrite (DecodeRune_ASCII b rest Hb).
      assert (Hne : isError (b2n b, 1%nat) = false).
      { unfold isError. cbn [fst snd]. apply N.ltb_lt in Hb.
        unfold RuneSelf, RuneError in *.
        destruct (N.eqb_spec (b2n b) 65533); [lia | reflexivity]. }
      rewrite Hne. cbn [snd take drop append].
      destruct (htmlSafeSet b) eqn:Hsafe.
      * destruct f as [|f]; [cbn [length] in Hf; lia|].
        cbn [length] in Hf.
        rewrite (unquoteFrom_safe f b _ Hb Hsafe).
        rewrite (IH rest f) by lia. reflexivity.
      * rewrite length_append in Hf. pose proof (escapeASCII_length b).
        destruct f as [|f]; [lia|].
        rewrite (unquoteFrom_escapeASCII f b _ Hb).
        rewrite (IH rest f) by lia. reflexivity.
    + destruct (isError (DecodeRune (String b rest))) eqn:Herr.
      * rewrite (isError_width _ Herr) in *. cbn [drop] in *.
        destruct f as [|f]; [cbn [append length] in Hf; lia|].
        rewrite unquoteFrom_ufffd.
        rewrite (IH rest f) by (cbn [append length] in Hf; lia).
        reflexivity.
      * apply N.ltb_ge in Hb. unfold RuneSelf in Hb.
        destruct (DecodeRune_valid b rest Hb Herr)
          as [bs [rest' [Es [Hlen [Hpos [Hhigh [Henc Hdec]]]]]]].
        assert (Hlen' : length (String b rest)
                        = (length bs + length rest')%nat)
          by (rewrite Es; apply length_append).
        cbn [length] in Hlen'.
        assert (Hdrop : drop (snd (DecodeRune (String b rest)))
                          (String b rest) = rest')
          by (rewrite <- Hlen, Es; apply drop_app_length).
        assert (Htake : take (snd (DecodeRune (String b rest)))
                          (String b rest) = bs)
          by (rewrite <- Hlen, Es; apply take_app_length).
        rewrite Hdrop in *. rewrite Htake in *.
        destruct ((fst (DecodeRune (String b rest)) =? 0x2028)%N
                  || (fst (DecodeRune (String b rest)) =? 0x2029)%N)
          eqn:E.
        -- destruct f as [|f]; [cbn [append length] in Hf; lia|].
           rewrite unquoteFrom_u202
             by (apply orb_true_iff in E as [E|E];
                 apply N.eqb_eq in E; auto).
           rewrite Henc.
           rewrite (IH rest' f) by (cbn [append length] in Hf; lia).
           reflexivity.
        -- rewrite length_append in Hf.
           destruct f as [|f]; [lia|].
           destruct bs as [|c0 bs']; [cbn in Hpos; lia|].
           cbn [append]. injection Es as <- Erest.
           rewrite unquoteFrom_high by (apply N.leb_le; lia).
           change (String b (bs' ++ appendFrom fuel rest'))
             with (String b bs' ++ appendFrom fuel rest').
           rewrite Hdec, Henc, <- Hlen, drop_app_length.
           rewrite (IH rest' f) by (cbn [length] in *; lia).
           reflexivity.
Qed.

(** Valid UTF-8 is left as it is. *)
Lemma coerceFrom_valid (fuel : nat) :
  forall s : string,
    validFrom fuel s = true -> (length s <= fuel)%nat ->
    coerceFrom fuel s = s.
Proof.
  induction fuel as [|fuel IH]; intros s Hv Hl.
  - destruct s; [reflexivity | simpl in Hl; lia].
  - destruct s as [|b rest]; [reflexivity|].
    cbn [validFrom coerceFrom] in *.
    apply andb_true_iff in Hv as [Herr Hv].
    apply negb_true_iff in Herr. rewrite Herr.
    rewrite (IH _ Hv).
    + apply take_drop.
    + cbn [length] in Hl.
      destruct (b2n b <? RuneSelf)%N eqn:Hb.
      * rewrite (DecodeRune_ASCII b rest Hb). cbn [snd drop]. lia.
      * apply N.ltb_ge in Hb. unfold RuneSelf in Hb.
        destruct (DecodeRune_valid b rest Hb Herr)
          as [bs [rest' [Es [Hlen [Hpos _]]]]].
        rewrite <- Hlen, Es, drop_app_length.
        assert (length (String b rest) = (length bs + length rest')%nat)
          by (rewrite Es; apply length_append).
        cbn [length] in *. lia.
Qed.

Lemma coerceUTF8_valid (s : string) :
  ValidString s = true -> coerceUTF8 s = s.
Proof. intros H. now apply coerceFrom_valid. Qed.

(** A string literal written by the encoder is read back as the string
    with its invalid bytes replaced. *)
Lemma parseString_appendString (s rest : string) :
  appendString s ++ rest
  = String DQUOTE (appendFrom (length s) s ++ String DQUOTE rest)
  /\ parseString (appendFrom (length s) s ++ String DQUOTE rest)
     = Ok (coerceUTF8 s) rest.
Proof.
  split.
  - unfold appendString. cbn [append]. now rewrite append_assoc.
  - unfold parseString.
    rewrite scanString_appendFrom. cbn [scanString].
    change (isByte DQUOTE DQUOTE) with true. cbn [scanned].
    rewrite append_nil_r. unfold unquote.
    now rewrite (unquoteFrom_appendFrom (length s) s _ (le_n _) (le_n _)).
Qed.

End string_facts.

(** ** Every literal the scanner accepts has a value *)

Module literal_facts.
Import utf8 json utf8_facts string_facts.

Lemma scanString_literalBody (n : nat) :
  forall s raw rest : string,
    (length s <= n)%nat ->
    scanString s = Some (raw, rest) -> literalBody raw = true.
Proof.
  induction n as [|n IH]; intros s raw rest Hn;
    (destruct s as [|c s]; [discriminate|]); cbn [length] in Hn; [lia|].
  cbn [scanString].
  destruct (isByte c DQUOTE) eqn:Hq; [now intros [= <- _]|].
  destruct (isByte c BACKSLASH) eqn:Hb.
  - destruct s as [|e s2]; [discriminate|].
    destruct (isByte e "b" || isByte e "f" || isByte e "n" || isByte e "r"
              || isByte e "t" || isByte e BACKSLASH || isByte e "/"
              || isByte e DQUOTE) eqn:He.
    + destruct (scanString s2) as [[raw' rest']|] eqn:E; [|discriminate].
      intros [= <- _]. cbn [literalBody]. rewrite Hq, Hb, He.
      apply (IH s2 raw' rest'); [cbn [length] in Hn; lia | exact E].
    + destruct (isByte e "u") eqn:Hu; [|discriminate].
      destruct s2 as [|h1 [|h2 [|h3 [|h4 s6]]]]; try discriminate.
      destruct (isHex h1 && isHex h2 && isHex h3 && isHex h4) eqn:Hh;
        [|discriminate].
      destruct (scanString s6) as [[raw' rest']|] eqn:E; [|discriminate].
      intros [= <- _]. cbn [literalBody]. rewrite Hq, Hb, He, Hu, Hh.
      apply (IH s6 raw' rest'); [cbn [length] in Hn; lia | exact E].
  - destruct (b2n c <? 32)%N eqn:Hc; [discriminate|].
    destruct (scanString s) as [[raw' rest']|] eqn:E; [|discriminate].
    intros [= <- _]. cbn [literalBody]. rewrite Hq, Hb, Hc.
    apply (IH s raw' rest'); [lia | exact E].
Qed.

Lemma literalBody_high (bs t : string) :
  highBytes bs = true ->
  literalBody (bs ++ t) = true -> literalBody t = true.
Proof.
  induction bs as [|c bs IH]; intros Hh Hl; [exact Hl|].
  cbn [highBytes] in Hh. apply andb_true_iff in Hh as [Hc Hbs].
  destruct (high_is_plain c Hc) as [H1 [H2 [H3 _]]].
  cbn [append literalBody] in Hl. rewrite H1, H2, H3 in Hl.
  now apply IH.
Qed.

Lemma literalBody_u (h1 h2 h3 h4 : ascii) (t : string) :
  literalBody (String BACKSLASH (String "u" (String h1 (String h2
                 (String h3 (String h4 t))))))
  = isHex h1 && isHex h2 && isHex h3 && isHex h4 && literalBody t.
Proof. reflexivity. Qed.

Lemma getu4_Some (s : string) (r : N) :
  getu4 s = Some r ->
  exists h1 h2 h3 h4 t,
    s = String BACKSLASH (String "u" (String h1 (String h2
          (String h3 (String h4 t))))).
Proof.
  destruct s as [|c0 [|c1 [|h1 [|h2 [|h3 [|h4 t]]]]]]; try discriminate.
  cbn [getu4].
  destruct (isByte c0 BACKSLASH) eqn:E0; [|discriminate].
  destruct (isByte c1 "u") eqn:E1; [|discriminate].
  apply Ascii.eqb_eq in E0, E1. subst. intros _. now exists h1, h2, h3, h4, t.
Qed.

Lemma getu4_of_hex (h1 h2 h3 h4 : ascii) (t : string) :
  isHex h1 && isHex h2 && isHex h3 && isHex h4 = true ->
  exists r,
    getu4 (String BACKSLASH (String "u" (String h1 (String h2
             (String h3 (String h4 t))))))
    = Some r.
Proof.
  unfold isHex. cbn [getu4]. change (isByte BACKSLASH BACKSLASH) with true.
  change (isByte "u" "u") with true. cbn [andb].
  destruct (hexVal h1), (hexVal h2), (hexVal h3), (hexVal h4);
    try discriminate.
  intros _. now eexists.
Qed.

(** [unquote] succeeds on every literal body: the only failures it
    knows are the ones the scanner has excluded, and the fuel is
    enough. *)
Lemma unquoteFrom_literalBody (f : nat) :
  forall s : string,
    (length s <= f)%nat -> literalBody s = true ->
    exists v, unquoteFrom f s = Some v.
Proof.
  induction f as [|f IH]; intros s Hl Hs;
    (destruct s as [|c s1]; [now exists ""|]); cbn [length] in Hl; [lia|].
  assert (Hrec : forall t p,
             (length t <= f)%nat -> literalBody t = true ->
             exists v, unquoted p (unquoteFrom f t) = Some v).
  { intros t p Ht Hb. destruct (IH t Ht Hb) as [v ->]. now eexists. }
  cbn [literalBody] in Hs.
  destruct (isByte c DQUOTE) eqn:Hq; [discriminate|].
  destruct (isByte c BACKSLASH) eqn:Hb.
  - destruct s1 as [|e s2]; [discriminate|].
    cbn [length] in Hl.
    apply Ascii.eqb_eq in Hb. subst c.
    destruct (isByte e "b" || isByte e "f" || isByte e "n" || isByte e "r"
              || isByte e "t" || isByte e BACKSLASH || isByte e "/"
              || isByte e DQUOTE) eqn:He.
    + assert (Hs2 : (length s2 <= f)%nat) by lia.
      destruct (IH s2 Hs2 Hs) as [v Hv].
      cbn [unquoteFrom]. change (isByte BACKSLASH BACKSLASH) with true.
      cbv iota. rewrite Hv.
      repeat (apply orb_true_iff in He as [He | He]);
        apply Ascii.eqb_eq in He; subst e; cbn; now eexists.
    + destruct (isByte e "u") eqn:Hu; [|discriminate].
      apply Ascii.eqb_eq in Hu. subst e.
      destruct s2 as [|h1 [|h2 [|h3 [|h4 s6]]]]; try discriminate.
      apply andb_true_iff in Hs as [Hh Hs6].
      destruct (getu4_of_hex h1 h2 h3 h4 s6 Hh) as [rr Hrr].
      cbn [length] in Hl.
      cbn [unquoteFrom]. change (isByte BACKSLASH BACKSLASH) with true.
      cbv iota. change (isByte "u" DQUOTE || isByte "u" BACKSLASH
                        || isByte "u" "/" || isByte "u" "'") with false.
      change (isByte "u" "b") with false. change (isByte "u" "f") with false.
      change (isByte "u" "n") with false. change (isByte "u" "r") with false.
      change (isByte "u" "t") with false. change (isByte "u" "u") with true.
      cbv iota. rewrite Hrr. cbn [drop].
      destruct (IsSurrogate rr).
      * destruct (getu4 s6) as [rr1|] eqn:E1.
        -- destruct (utf16_DecodeRune rr rr1 =? RuneError)%N.
           ++ apply Hrec; [lia | exact Hs6].
           ++ destruct (getu4_Some _ _ E1)
                as [g1 [g2 [g3 [g4 [t ->]]]]].
              rewrite literalBody_u in Hs6.
              apply andb_true_iff in Hs6 as [_ Ht].
              cbn [drop]. apply Hrec; [cbn [length] in Hl; lia | exact Ht].
        -- change (RuneError =? RuneError)%N with true. cbv iota.
           apply Hrec; [lia | exact Hs6].
      * apply Hrec; [lia | exact Hs6].
  - apply andb_true_iff in Hs as [Hc Hs1]. apply negb_true_iff in Hc.
    cbn [unquoteFrom]. rewrite Hb, Hq, Hc. cbn [orb].
    destruct (b2n c <? RuneSelf)%N eqn:Ha.
    + apply Hrec; [lia | exact Hs1].
    + destruct (isError (DecodeRune (String c s1))) eqn:Herr.
      * rewrite (isError_width _ Herr). cbn [drop].
        apply Hrec; [lia | exact Hs1].
      * apply N.ltb_ge in Ha. unfold RuneSelf in Ha.
        destruct (DecodeRune_valid c s1 Ha Herr)
          as [bs [rest' [Es [Hlen [Hpos [Hhigh _]]]]]].
        assert (Hlen' : length (String c s1)
                        = (length bs + length rest')%nat)
          by (rewrite Es; apply length_append).
        cbn [length] in Hlen'.
        assert (Hdrop : drop (snd (DecodeRune (String c s1)))
                          (String c s1) = rest')
          by (rewrite <- Hlen, Es; apply drop_app_length).
        rewrite Hdrop.
        apply Hrec; [lia|].
        apply (literalBody_high bs rest' Hhigh).
        rewrite <- Es. cbn [literalBody]. rewrite Hq, Hb, Hc.
        exact Hs1.
Qed.

(** A string literal has a value exactly when the scanner accepts it. *)
Lemma parseString_scanString (s : string) :
  (exists raw rest v,
      scanString s = Some (raw, rest) /\ parseString s = Ok v rest)
  \/ (scanString s = None /\ parseString s = SyntaxError).
Proof.
  unfold parseString.
  destruct (scanString s) as [[raw rest]|] eqn:E; [left | now right].
  pose proof (scanString_literalBody (length s) s raw rest (le_n _) E)
    as Hb.
  destruct (unquoteFrom_literalBody (length raw) raw (le_n _) Hb)
    as [v Hv].
  unfold unquote. rewrite Hv. now exists raw, rest, v.
Qed.

End literal_facts.

(** ** The parser never runs out of fuel *)

Module parser_facts.
Import json.

Lemma skipSpace_length (s : string) : length (skipSpace s) <= length s.
Proof.
  induction s as [|c s IH]; cbn [skipSpace]; [lia|].
  destruct (isSpace c); cbn [length]; lia.
Qed.

Lemma scanString_length_bounded (n : nat) :
  forall s raw rest : string,
    length s <= n ->
    scanString s = Some (raw, rest) -> length rest < length s.
Proof.
  induction n as [|n IH]; intros s raw rest Hn;
    (destruct s as [|c s]; [discriminate|]); cbn [length] in Hn; [lia|].
  cbn [scanString].
  destruct (isByte c DQUOTE); [intros [= _ <-]; cbn [length]; lia|].
  destruct (isByte c BACKSLASH).
  - destruct s as [|e s2]; [discriminate|].
    destruct (isByte e "b" || isByte e "f" || isByte e "n" || isByte e "r"
              || isByte e "t" || isByte e BACKSLASH || isByte e "/"
              || isByte e DQUOTE).
    + destruct (scanString s2) as [[raw' rest']|] eqn:E; [|discriminate].
      intros [= _ <-]. apply IH in E; cbn [length] in *; lia.
    + destruct (isByte e "u"); [|discriminate].
      destruct s2 as [|h1 [|h2 [|h3 [|h4 s6]]]]; try discriminate.
      destruct (isHex h1 && isHex h2 && isHex h3 && isHex h4);
        [|discriminate].
      destruct (scanString s6) as [[raw' rest']|] eqn:E; [|discriminate].
      intros [= _ <-]. apply IH in E; cbn [length] in *; lia.
  - destruct (b2n c <? 32)%N; [discriminate|].
    destruct (scanString s) as [[raw' rest']|] eqn:E; [|discriminate].
    intros [= _ <-]. apply IH in E; cbn [length] in *; lia.
Qed.

Lemma scanString_length (s raw rest : string) :
  scanString s = Some (raw, rest) -> length rest < length s.
Proof. apply (scanString_length_bounded (length s)). lia. Qed.

Lemma parseString_length (s v rest : string) :
  parseString s = Ok v rest -> length rest < length s.
Proof.
  unfold parseString.
  destruct (scanString s) as [[raw rest']|] eqn:E; [|discriminate].
  destruct (unquote raw); [|discriminate].
  intros [= _ <-]. now apply scanString_length in E.
Qed.

Lemma parseString_fuel (s : string) : parseString s <> OutOfFuel.
Proof.
  unfold parseString.
  destruct (scanString s) as [[raw rest']|]; [|discriminate].
  destruct (unquote raw); discriminate.
Qed.

Lemma spanDigits_length (s : string) :
  forall ds rest : string,
    spanDigits s = (ds, rest) -> length rest <= length s.
Proof.
  induction s as [|c s IH]; intros ds rest; cbn [spanDigits].
  - intros [= _ <-]. cbn. lia.
  - destruct (isDigit c).
    + destruct (spanDigits s) as [ds' rest'] eqn:E.
      intros [= _ <-]. specialize (IH _ _ eq_refl). cbn [length]. lia.
    + intros [= _ <-]. lia.
Qed.

Lemma scanExponent_length (s lit rest : string) :
  scanExponent s = Some (lit, rest) -> length rest <= length s.
Proof.
  unfold scanExponent. destruct s as [|c s1]; [intros [= _ <-]; lia|].
  destruct (isByte c "e" || isByte c "E"); [|intros [= _ <-]; lia].
  destruct s1 as [|g s2].
  - cbn. discriminate.
  - destruct (isByte g "+" || isByte g "-").
    + destruct (spanDigits s2) as [ds r] eqn:E.
      apply spanDigits_length in E.
      destruct ds; [discriminate|]. intros [= _ <-]. cbn [length]. lia.
    + destruct (spanDigits (String g s2)) as [ds r] eqn:E.
      apply spanDigits_length in E.
      destruct ds; [discriminate|]. intros [= _ <-]. cbn [length] in *. lia.
Qed.

Lemma scanFraction_length (s lit rest : string) :
  scanFraction s = Some (lit, rest) -> length rest <= length s.
Proof.
  unfold scanFraction. destruct s as [|c s1]; [intros [= _ <-]; lia|].
  destruct (isByte c ".").
  - destruct (spanDigits s1) as [ds r] eqn:E.
    apply spanDigits_length in E.
    destruct ds; [discriminate|].
    destruct (scanExponent r) as [[e r']|] eqn:E'; [|discriminate].
    apply scanExponent_length in E'.
    intros [= _ <-]. cbn [length]. lia.
  - apply scanExponent_length.
Qed.

Lemma scanUnsigned_length (s lit rest : string) :
  scanUnsigned s = Some (lit, rest) -> length rest < length s.
Proof.
  unfold scanUnsigned. destruct s as [|c s1]; [discriminate|].
  destruct (isByte c "0").
  - destruct (scanFraction s1) as [[f r]|] eqn:E; [|discriminate].
    apply scanFraction_length in E. intros [= _ <-]. cbn [length]. lia.
  - destruct (between "1" c "9"); [|discriminate].
    destruct (spanDigits s1) as [ds s2] eqn:E.
    apply spanDigits_length in E.
    destruct (scanFraction s2) as [[f r]|] eqn:E'; [|discriminate].
    apply scanFraction_length in E'. intros [= _ <-]. cbn [length]. lia.
Qed.

Lemma drop_length (n : nat) (s : string) : length (drop n s) <= length s.
Proof.
  revert s. induction n as [|n IH]; intros [|c s]; cbn [drop length];
    try lia.
  specialize (IH s). lia.
Qed.

Lemma expect_length (word : string) (v v' : Value) (s rest : string) :
  expect word v s = Ok v' rest -> length rest <= length s.
Proof.
  unfold expect. destruct (String.eqb _ _); [|discriminate].
  intros [= _ <-]. apply drop_length.
Qed.

Lemma expect_fuel (word : string) (v : Value) (s : string) :
  expect word v s <> OutOfFuel.
Proof. unfold expect. destruct (String.eqb _ _); discriminate. Qed.


(** Case analysis along the body of one round of the parser: the
    scrutinee at the head of the term is split, and what the call at
    that place says about lengths is kept. *)
Ltac split_head x Lv Le Lm :=
  lazymatch x with
  | skipSpace ?s =>
      let H := fresh "H" in
      pose proof (skipSpace_length s) as H;
      destruct x; cbn [length] in H
  | parseValue ?f ?d ?s =>
      let E := fresh "E" in
      destruct x eqn:E; [apply Lv in E | |]
  | parseElems ?f ?d ?s =>
      let E := fresh "E" in
      destruct x eqn:E; [apply Le in E | |]
  | parseMembers ?f ?d ?s =>
      let E := fresh "E" in
      destruct x eqn:E; [apply Lm in E | |]
  | parseString ?s =>
      let E := fresh "E" in
      let H := fresh "H" in
      pose proof (parseString_fuel s) as H;
      destruct x eqn:E; [apply parseString_length in E | | now elim H]
  | scanUnsigned ?s =>
      let E := fresh "E" in
      destruct x as [[? ?]|] eqn:E; [apply scanUnsigned_length in E |]
  | _ => destruct x
  end.

Ltac parse_cases Lv Le Lm finish :=
  repeat lazymatch goal with
    | |- Ok _ _ = _ -> _ => finish
    | |- SyntaxError = _ -> _ => finish
    | |- OutOfFuel = _ -> _ => finish
    | |- Ok _ _ <> _ => finish
    | |- SyntaxError <> _ => finish
    | |- OutOfFuel <> _ => finish
    | |- expect ?w ?v ?s = _ -> _ =>
        let E := fresh "E" in
        intros E; apply expect_length in E; cbn [length] in *; lia
    | |- expect ?w ?v ?s <> _ => apply expect_fuel
    | |- match ?x with _ => _ end = _ -> _ => split_head x Lv Le Lm
    | |- match ?x with _ => _ end <> _ => split_head x Lv Le Lm
    end.

Lemma parse_length (fuel : nat) :
  (forall d s v rest,
      parseValue fuel d s = Ok v rest -> length rest < length s)
  /\ (forall d s vs rest,
        parseElems fuel d s = Ok vs rest -> length rest < length s)
  /\ (forall d s ms rest,
        parseMembers fuel d s = Ok ms rest -> length rest < length s).
Proof.
  induction fuel as [|fuel [IHv [IHe IHm]]];
    [repeat split; intros; discriminate|].
  repeat split; intros d s x rest.
  - cbn [parseValue].
    parse_cases IHv IHe IHm
      ltac:(solve [ let H := fresh in
                    intros H; try discriminate H; injection H as _ <-;
                    cbn [length] in *; lia ]).
  - cbn [parseElems].
    parse_cases IHv IHe IHm
      ltac:(solve [ let H := fresh in
                    intros H; try discriminate H; injection H as _ <-;
                    cbn [length] in *; lia ]).
  - cbn [parseMembers].
    parse_cases IHv IHe IHm
      ltac:(solve [ let H := fresh in
                    intros H; try discriminate H; injection H as _ <-;
                    cbn [length] in *; lia ]).
Qed.

Ltac out_of_fuel IHv IHe IHm :=
  solve [ discriminate
        | match goal with
          | E : parseValue _ _ _ = OutOfFuel |- _ =>
              apply IHv in E; [contradiction | cbn [length] in *; lia]
          | E : parseElems _ _ _ = OutOfFuel |- _ =>
              apply IHe in E; [contradiction | cbn [length] in *; lia]
          | E : parseMembers _ _ _ = OutOfFuel |- _ =>
              apply IHm in E; [contradiction | cbn [length] in *; lia]
          end ].

Lemma parse_fuel (fuel : nat) :
  (forall d s, 2 * length s + 1 <= fuel -> parseValue fuel d s <> OutOfFuel)
  /\ (forall d s,
        2 * length s + 2 <= fuel -> parseElems fuel d s <> OutOfFuel)
  /\ (forall d s,
        2 * length s + 2 <= fuel -> parseMembers fuel d s <> OutOfFuel).
Proof.
  induction fuel as [|fuel [IHv [IHe IHm]]];
    [repeat split; intros; lia|].
  destruct (parse_length fuel) as [Lv [Le Lm]].
  repeat split; intros d s Hf.
  - cbn [parseValue].
    parse_cases Lv Le Lm ltac:(out_of_fuel IHv IHe IHm).
  - cbn [parseElems].
    parse_cases Lv Le Lm ltac:(out_of_fuel IHv IHe IHm).
  - cbn [parseMembers].
    parse_cases Lv Le Lm ltac:(out_of_fuel IHv IHe IHm).
Qed.

(** With the fuel [parse] gives it, [parseValue] ends with a value or a
    syntax error on every input and at every depth. *)
Lemma parse_never_OutOfFuel (data : string) (depth : nat) :
  parseValue (fuelFor data) depth data <> OutOfFuel.
Proof.
  apply (proj1 (parse_fuel (fuelFor data))). unfold fuelFor. lia.
Qed.

End parser_facts.

(** ** The transcript read back *)

Module transcript_facts.
Import utf8 json utf8_facts string_facts.

Local Arguments parseString : simpl never.
Local Arguments appendFrom : simpl never.

(** The text of one message, with the two strings it quotes made
    explicit. *)
Lemma marshalMessage_shape (m : Message) (rest : string) :
  marshalMessage m ++ rest
  = "{" ++ NL ++ "    " ++ String DQUOTE ("role" ++ String DQUOTE (": "
      ++ String DQUOTE (appendFrom (length (Role m)) (Role m)
      ++ String DQUOTE ("," ++ NL ++ "    "
      ++ String DQUOTE ("content" ++ String DQUOTE (": "
      ++ String DQUOTE (appendFrom (length (Content m)) (Content m)
      ++ String DQUOTE (NL ++ "  }" ++ rest)))))))).
Proof.
  unfold marshalMessage, appendString.
  change (appendFrom (length "role") "role") with "role".
  change (appendFrom (length "content") "content") with "content".
  unfold NL.
  repeat (progress (rewrite ?append_assoc; cbn [append])).
  reflexivity.
Qed.

Lemma parseString_role (X : string) :
  parseString (String "r" (String "o" (String "l" (String "e"
                 (String DQUOTE X)))))
  = Ok "role" X.
Proof. reflexivity. Qed.

Lemma parseString_content (X : string) :
  parseString (String "c" (String "o" (String "n" (String "t"
                 (String "e" (String "n" (String "t" (String DQUOTE X))))))))
  = Ok "content" X.
Proof. reflexivity. Qed.

Lemma parseString_written (s rest : string) :
  parseString (appendFrom (length s) s ++ String DQUOTE rest)
  = Ok (coerceUTF8 s) rest.
Proof. apply parseString_appendString. Qed.

(** One round of each of the three parsing functions. *)
Lemma parseValue_space (f d : nat) (s : string) :
  parseValue f d (String " " s) = parseValue f d s.
Proof. now destruct f. Qed.

Lemma parseValue_indent (f d : nat) (s : string) :
  parseValue f d (String LF (String " " (String " " s)))
  = parseValue f d s.
Proof. now destruct f. Qed.

Lemma parseElems_indent (f d : nat) (s : string) :
  parseElems f d (String LF (String " " (String " " s)))
  = parseElems f d s.
Proof.
  destruct f; [reflexivity|].
  cbn [parseElems]. now rewrite parseValue_indent.
Qed.

Lemma parseValue_quote (f d : nat) (r : string) :
  parseValue (S f) d (String DQUOTE r)
  = match parseString r with
    | Ok v rest => Ok (Str v) rest
    | SyntaxError => SyntaxError
    | OutOfFuel => OutOfFuel
    end.
Proof. reflexivity. Qed.

Lemma parseValue_brace (f d : nat) (r : string) :
  parseValue (S f) (S d) (String "{" r)
  = match skipSpace r with
    | String c' r' =>
        if isByte c' "}" then Ok (Object []) r'
        else
          match parseMembers f d r with
          | Ok ms rest => Ok (Object ms) rest
          | SyntaxError => SyntaxError
          | OutOfFuel => OutOfFuel
          end
    | EmptyString => SyntaxError
    end.
Proof. reflexivity. Qed.

Lemma parseValue_bracket (f d : nat) (r : string) :
  parseValue (S f) (S d) (String "[" r)
  = match skipSpace r with
    | String c' r' =>
        if isByte c' "]" then Ok (Array []) r'
        else
          match parseElems f d r with
          | Ok vs rest => Ok (Array vs) rest
          | SyntaxError => SyntaxError
          | OutOfFuel => OutOfFuel
          end
    | EmptyString => SyntaxError
    end.
Proof. reflexivity. Qed.

Lemma parseMembers_quote (f d : nat) (s r : string) :
  skipSpace s = String DQUOTE r ->
  parseMembers (S f) d s
  = match parseString r with
    | Ok key rest =>
        match skipSpace rest with
        | String c r1 =>
            if isByte c ":" then
              match parseValue f d r1 with
              | Ok v rest1 =>
                  match skipSpace rest1 with
                  | String c' r2 =>
                      if isByte c' "," then
                        match parseMembers f d r2 with
                        | Ok ms rest2 => Ok ((key, v) :: ms) rest2
                        | SyntaxError => SyntaxError
                        | OutOfFuel => OutOfFuel
                        end
                      else if isByte c' "}" then Ok [(key, v)] r2
                      else SyntaxError
                  | EmptyString => SyntaxError
                  end
              | SyntaxError => SyntaxError
              | OutOfFuel => OutOfFuel
              end
            else SyntaxError
        | EmptyString => SyntaxError
        end
    | SyntaxError => SyntaxError
    | OutOfFuel => OutOfFuel
    end.
Proof. intros H. cbn [parseMembers]. now rewrite H. Qed.

Lemma parseElems_eq (f d : nat) (s : string) :
  parseElems (S f) d s
  = match parseValue f d s with
    | Ok v rest =>
        match skipSpace rest with
        | String c r =>
            if isByte c "," then
              match parseElems f d r with
              | Ok vs rest' => Ok (v :: vs) rest'
              | SyntaxError => SyntaxError
              | OutOfFuel => OutOfFuel
              end
            else if isByte c "]" then Ok [v] r
            else SyntaxError
        | EmptyString => SyntaxError
        end
    | SyntaxError => SyntaxError
    | OutOfFuel => OutOfFuel
    end.
Proof. reflexivity. Qed.

Local Arguments parseValue : simpl never.
Local Arguments parseMembers : simpl never.
Local Arguments parseElems : simpl never.
Local Arguments marshalElems : simpl never.
Local Arguments marshalMessage : simpl never.

Lemma parseValue_message (f d : nat) (m : Message) (rest : string) :
  parseValue (S (S (S (S f)))) (S d) (marshalMessage m ++ rest)
  = Ok (treeOfMessage (coerceMessage m)) rest.
Proof.
  rewrite marshalMessage_shape. unfold NL. cbn [append].
  rewrite parseValue_brace. cbn.
  erewrite parseMembers_quote by reflexivity.
  rewrite parseString_role. cbn.
  rewrite parseValue_space, parseValue_quote, parseString_written.
  cbn.
  erewrite parseMembers_quote by reflexivity.
  rewrite parseString_content. cbn.
  rewrite parseValue_space, parseValue_quote, parseString_written.
  cbn. reflexivity.
Qed.

Lemma parseElems_messages (d : nat) (msgs : list Message) :
  forall (f : nat) (m : Message) (rest : string),
    parseElems (S (S (S (S (S (List.length msgs + f)))))) (S d)
      (marshalElems (m :: msgs) ++ String LF (String "]" rest))
    = Ok (map treeOfMessage (map coerceMessage (m :: msgs))) rest.
Proof.
  induction msgs as [|m' msgs IH]; intros f m rest.
  - change (marshalElems [m]) with (marshalMessage m).
    cbn [List.length Nat.add map].
    rewrite parseElems_eq, parseValue_message. reflexivity.
  - change (marshalElems (m :: m' :: msgs))
      with (marshalMessage m ++ "," ++ NL ++ "  "
            ++ marshalElems (m' :: msgs)).
    rewrite !append_assoc.
    cbn [List.length Nat.add].
    rewrite parseElems_eq, parseValue_message.
    unfold NL. cbn.
    rewrite parseElems_indent.
    rewrite (IH f m' rest). reflexivity.
Qed.

Lemma marshalMessage_length (m : Message) :
  (1 <= length (marshalMessage m))%nat.
Proof. unfold marshalMessage. cbn [append length]. lia. Qed.

Lemma marshalElems_length (msgs : list Message) :
  (List.length msgs <= length (marshalElems msgs))%nat.
Proof.
  induction msgs as [|m msgs IH]; [cbn; lia|].
  pose proof (marshalMessage_length m) as Hm.
  destruct msgs as [|m' msgs].
  - change (marshalElems [m]) with (marshalMessage m). cbn [List.length].
    lia.
  - change (marshalElems (m :: m' :: msgs))
      with (marshalMessage m ++ "," ++ NL ++ "  "
            ++ marshalElems (m' :: msgs)).
    rewrite !length_append. cbn [List.length] in *. lia.
Qed.

Lemma marshalElems_starts (m : Message) (msgs : list Message)
    (X : string) :
  exists Y : string, marshalElems (m :: msgs) ++ X = String "{" Y.
Proof.
  destruct msgs as [|m' msgs].
  - change (marshalElems [m]) with (marshalMessage m).
    unfold marshalMessage. cbn [append]. now eexists.
  - change (marshalElems (m :: m' :: msgs))
      with (marshalMessage m ++ "," ++ NL ++ "  "
            ++ marshalElems (m' :: msgs)).
    unfold marshalMessage. cbn [append]. now eexists.
Qed.

(** The transcript of a Conversation parses to the tree of that
    Conversation with the invalid bytes of its strings replaced. *)
Lemma parse_MarshalIndent (msgs : list Message) :
  parse (MarshalIndent msgs)
  = Some (treeOfMessages (map coerceMessage msgs)).
Proof.
  destruct msgs as [|m msgs]; [reflexivity|].
  unfold parse, MarshalIndent, fuelFor.
  set (text := "[" ++ NL ++ "  " ++ marshalElems (m :: msgs) ++ NL ++ "]").
  assert (Hlen : (List.length msgs + 7 <= length text)%nat).
  { subst text. rewrite !length_append.
    pose proof (marshalElems_length (m :: msgs)) as H.
    cbn [List.length] in H. cbn [length NL]. lia. }
  destruct (Nat.le_exists_sub _ _ Hlen) as [k [Ek _]].
  replace (2 * length text + 1)%nat
    with (S (S (S (S (S (S (List.length msgs
             + (List.length msgs + 9 + 2 * k))))))))
    by lia.
  replace maxNestingDepth with (S (S (N.to_nat 9998)))
    by (vm_compute; reflexivity).
  subst text. unfold NL at 1. cbn [append].
  rewrite parseValue_bracket.
  destruct (marshalElems_starts m msgs (NL ++ "]")) as [Y EY].
  replace (skipSpace (String LF (String " " (String " "
             (marshalElems (m :: msgs) ++ NL ++ "]")))))
    with (String "{" Y) by (now rewrite EY).
  change (isByte "{" "]") with false. cbv iota.
  rewrite parseElems_indent. unfold NL. cbn [append].
  now rewrite (parseElems_messages _ msgs _ m "").
Qed.

Lemma decodeMessage_tree (m old : Message) :
  decodeMessage (treeOfMessage m) old = (m, false).
Proof. now destruct m. Qed.

Lemma decodeElems_trees (msgs : list Message) :
  decodeElems decodeMessage zeroMessage (map treeOfMessage msgs) []
  = (msgs, [], false).
Proof.
  induction msgs as [|m msgs IH]; [reflexivity|].
  cbn [map decodeElems]. now rewrite decodeMessage_tree, IH.
Qed.

Lemma decodeMessages_tree (msgs : list Message) :
  decodeMessages (treeOfMessages msgs) emptySlice = (mkSlice msgs [], false).
Proof.
  destruct msgs as [|m msgs]; [reflexivity|].
  unfold decodeMessages, decodeSlice, treeOfMessages.
  cbn [map elems spare emptySlice app].
  change (treeOfMessage m :: map treeOfMessage msgs)
    with (map treeOfMessage (m :: msgs)).
  now rewrite decodeElems_trees.
Qed.

Lemma coerceMessage_valid (m : Message) :
  validMessage m = true -> coerceMessage m = m.
Proof.
  unfold validMessage, coerceMessage. intros H.
  apply andb_true_iff in H as [Hr Hc].
  rewrite (coerceUTF8_valid _ Hr), (coerceUTF8_valid _ Hc).
  now destruct m.
Qed.

Lemma coerceMessages_valid (msgs : list Message) :
  forallb validMessage msgs = true -> map coerceMessage msgs = msgs.
Proof.
  induction msgs as [|m msgs IH]; [reflexivity|].
  cbn [forallb map]. intros H. apply andb_true_iff in H as [Hm Hv].
  now rewrite (coerceMessage_valid _ Hm), (IH Hv).
Qed.

(** Reading a transcript back gives the Conversation that was written,
    up to the replacement of invalid bytes. *)
Lemma Unmarshal_MarshalIndent (msgs : list Message) :
  Unmarshal decodeMessages (MarshalIndent msgs) emptySlice
  = (mkSlice (map coerceMessage msgs) [], false).
Proof.
  unfold Unmarshal. rewrite parse_MarshalIndent.
  apply decodeMessages_tree.
Qed.

End transcript_facts.

Local Open Scope string_scope.
Local Open Scope list_scope.

(** ** The session: general facts *)

Lemma nth_pred_last {A : Type} (l : list A) (d : A) :
  nth (List.length l - 1) l d = last l d.
Proof.
  induction l as [|a l IH]; [reflexivity|].
  destruct l as [|b l]; [reflexivity|].
  simpl in *. now rewrite Nat.sub_0_r in IH.
Qed.

Lemma promptsFirst_last (msgs : list Message) :
  promptsFirst msgs
  = match msgs with
    | [] => true
    | _ => negb (String.eqb (Role (last msgs zeroMessage)) USER)
    end.
Proof.
  unfold promptsFirst. rewrite nth_pred_last.
  destruct msgs; reflexivity.
Qed.

Lemma posted_app (a b : list Event) : posted (a ++ b) = posted a ++ posted b.
Proof.
  induction a as [|e a IH]; [reflexivity|].
  destruct e; simpl; now rewrite ?IH.
Qed.

Section Session.

Variable path_Join : string -> string -> string.
Variable readFile : string -> FileRead.
Variable cfg : Config.


(** What [startup] does once the input file is read, decoded and
    loaded. *)
Lemma startup_loaded (stdin inputData : string)
    (messagesIn : json.Slice MessageIn) (msgs : list Message) :
  readFile (path_Join (InputDir cfg) (InputFile cfg)) = Contents inputData ->
  json.Unmarshal decodeMessagesIn inputData json.emptySlice
    = (messagesIn, false) ->
  loadMessages path_Join readFile cfg (json.elems messagesIn) 0 []
    = Loaded msgs ->
  startup path_Join readFile cfg stdin
  = (mkState (if promptsFirst msgs then FirstPrompt else RemoteCall)
       msgs zeroResponseBody stdin,
     [displayInitScreen msgs (CfgModel cfg)
        (toFloat32 (CfgTemperature cfg))]).
Proof.
  intros Hf Hu Hl. unfold startup. now rewrite Hf, Hu, Hl.
Qed.

Lemma firstAction_displayInitScreen (msgs : list Message) (model : string)
    (t : float32) (rest : list Event) :
  firstAction ([displayInitScreen msgs model t] ++ rest) = firstAction rest.
Proof.
  unfold displayInitScreen.
  now destruct (countRoles msgs 0 0 0) as [[? ?] ?].
Qed.

(** A prompt step shows the prompt before anything else. *)
Lemma promptStep_starts_with_Prompt (first : bool) (st : State) (env : Env) :
  exists more, snd (promptStep path_Join cfg first st env) = Prompt :: more.
Proof.
  unfold promptStep.
  destruct (readUserInput (reader st)) as [[line|] rest].
  - destruct (String.eqb line "/quit!"); [now eexists|].
    destruct (String.eqb line "/quit"); [|now eexists].
    destruct (saveConversationLog _ _ _ _ _) as [events ok].
    now eexists.
  - destruct first; now eexists.
Qed.

(** A round of the loop that reaches no prompt leaves the state as it
    is or sends the request of the current Conversation first. *)
Lemma remoteStep_first_event (st : State) (env : Env) :
  ((remote env = MarshalError \/ remote env = NewRequestError)
   /\ exists site, remoteStep cfg st env = (st, [Log site]))
  \/ exists more,
       snd (remoteStep cfg st env) = requestOf cfg (messages st) :: more.
Proof.
  unfold remoteStep, requestOf.
  destruct (remote env) as [| | |status body readError].
  - left. split; [now left | now eexists].
  - left. split; [now right | now eexists].
  - right. now eexists.
  - right.
    destruct (negb (status =? StatusOK)%Z); [now eexists|].
    destruct readError; [now eexists|].
    destruct (json.Unmarshal _ _ _) as [rb err].
    destruct err; [now eexists|].
    destruct (json.elems (Choices rb)); now eexists.
Qed.

Lemma firstAction_from_RemoteCall (envs : list Env) (st : State) :
  control st = RemoteCall ->
  firstAction (snd (run path_Join cfg st envs)) = None
  \/ firstAction (snd (run path_Join cfg st envs))
     = Some (requestOf cfg (messages st)).
Proof.
  revert st. induction envs as [|env envs IH]; intros st Hc.
  - now left.
  - simpl. unfold step. rewrite Hc.
    destruct (remoteStep_first_event st env) as [[_ [site E]]|[more E]].
    + rewrite E. specialize (IH st Hc).
      destruct (run path_Join cfg st envs) as [st2 ev2]. simpl in *. exact IH.
    + destruct (remoteStep cfg st env) as [st1 ev1]. simpl in E. subst ev1.
      destruct (run path_Join cfg st1 envs) as [st2 ev2]. simpl. now right.
Qed.

(** C2: after loading, a Conversation that is empty or does not end with
    a user Turn makes the session prompt first, before any remote call; a
    Conversation that ends with a user Turn makes the first prompt or
    remote call of the session a remote call that carries exactly the
    loaded Conversation. *)
Theorem first_action_follows_last_role
    (stdin inputData : string) (messagesIn : json.Slice MessageIn)
    (msgs : list Message) :
  readFile (path_Join (InputDir cfg) (InputFile cfg)) = Contents inputData ->
  json.Unmarshal decodeMessagesIn inputData json.emptySlice
    = (messagesIn, false) ->
  loadMessages path_Join readFile cfg (json.elems messagesIn) 0 []
    = Loaded msgs ->
  messages (fst (startup path_Join readFile cfg stdin)) = msgs
  /\ firstAction (snd (startup path_Join readFile cfg stdin)) = None
  /\ ((msgs = [] \/ Role (last msgs zeroMessage) <> USER) ->
      control (fst (startup path_Join readFile cfg stdin)) = FirstPrompt
      /\ forall env envs,
           firstAction (snd (main path_Join readFile cfg stdin (env :: envs)))
           = Some Prompt)
  /\ ((msgs <> [] /\ Role (last msgs zeroMessage) = USER) ->
      control (fst (startup path_Join readFile cfg stdin)) = RemoteCall
      /\ (forall envs,
            firstAction (snd (main path_Join readFile cfg stdin envs)) = None
            \/ firstAction (snd (main path_Join readFile cfg stdin envs))
               = Some (requestOf cfg msgs))
      /\ (forall env envs,
            remote env <> MarshalError -> remote env <> NewRequestError ->
            firstAction (snd (main path_Join readFile cfg stdin (env :: envs)))
            = Some (requestOf cfg msgs))).
Proof.
  intros Hf Hu Hl.
  pose proof (startup_loaded stdin _ _ _ Hf Hu Hl) as Hs.
  unfold main. rewrite Hs. cbn [fst snd messages control].
  rewrite promptsFirst_last.
  split; [reflexivity|].
  split; [apply (firstAction_displayInitScreen _ _ _ [])|]. split.
  - intros Hlast.
    assert (Hp : match msgs with
                 | [] => true
                 | _ => negb (String.eqb (Role (last msgs zeroMessage)) USER)
                 end = true).
    { destruct Hlast as [-> | Hne]; [reflexivity|].
      destruct msgs; [reflexivity|].
      apply negb_true_iff, String.eqb_neq, Hne. }
    rewrite Hp. split; [reflexivity|].
    intros env envs. cbn [run]. unfold step at 1.
    cbn [control].
    destruct (promptStep_starts_with_Prompt true
                (mkState FirstPrompt msgs zeroResponseBody stdin) env)
      as [more E].
    destruct (promptStep path_Join cfg true _ env) as [st1 ev1].
    simpl in E. subst ev1.
    destruct (run path_Join cfg st1 envs) as [st2 ev2].
    cbn [snd]. rewrite firstAction_displayInitScreen. reflexivity.
  - intros [Hne Hlast].
    assert (Hp : match msgs with
                 | [] => true
                 | _ => negb (String.eqb (Role (last msgs zeroMessage)) USER)
                 end = false).
    { destruct msgs; [contradiction|].
      apply negb_false_iff, String.eqb_eq, Hlast. }
    rewrite Hp. split; [reflexivity|].
    set (st0 := mkState RemoteCall msgs zeroResponseBody stdin).
    split.
    + intros envs.
      pose proof (firstAction_from_RemoteCall envs st0 eq_refl) as H.
      destruct (run path_Join cfg st0 envs) as [st2 ev2].
      cbn [snd] in *. rewrite firstAction_displayInitScreen.
      exact H.
    + intros env envs Hm Hn. cbn [run].
      unfold step at 1. cbn [control st0].
      destruct (remoteStep_first_event st0 env) as [[[E|E] _]|[more E]].
      * contradiction.
      * contradiction.
      * destruct (remoteStep cfg st0 env) as [st1 ev1]. simpl in E. subst ev1.
        destruct (run path_Join cfg st1 envs) as [st2 ev2].
        cbn [snd]. rewrite firstAction_displayInitScreen.
        reflexivity.
Qed.

End Session.

(** ** The loader *)

Lemma setContent_last (acc : list Message) (m : Message) (data : string) :
  setContent (acc ++ [m]) (List.length acc) data
  = Some (acc ++ [mkMessage (Role m) data]).
Proof.
  induction acc as [|a acc IH]; simpl; [reflexivity|].
  now rewrite IH.
Qed.

Section Loader.

Variable path_Join : string -> string -> string.
Variable readFile : string -> FileRead.
Variable cfg : Config.

(** The loop invariant of the loader: [i] is the length of [messages],
    so the assignment to [messages[i]] hits the Turn just appended. *)
Lemma loadMessages_turnsOf (records : list MessageIn) :
  forall acc : list Message,
    loadMessages path_Join readFile cfg records (List.length acc) acc
    = match turnsOf path_Join readFile cfg records with
      | Some ms => Loaded (acc ++ ms)
      | None => LoadFatal
      end.
Proof.
  induction records as [|record rest IH]; intros acc; simpl.
  - now rewrite app_nil_r.
  - unfold turnOf, namesFile.
    destruct (String.eqb (InRole record) SYSTEM
              && negb (String.eqb (File record) "")).
    + destruct (readFile _) as [| |data]; try reflexivity.
      rewrite setContent_last.
      cbn [Role].
      replace (S (List.length acc))
        with (List.length (acc ++ [mkMessage (InRole record) data]))
        by (rewrite length_app; simpl; lia).
      rewrite IH.
      destruct (turnsOf _ _ _ rest); [|reflexivity].
      now rewrite <- app_assoc.
    + set (m := mkMessage (InRole record) (InContent record)).
      replace (S (List.length acc)) with (List.length (acc ++ [m]))
        by (rewrite length_app; simpl; lia).
      rewrite IH.
      destruct (turnsOf _ _ _ rest); [|reflexivity].
      now rewrite <- app_assoc.
Qed.

Lemma turnsOf_nth (records : list MessageIn) :
  forall (ms : list Message),
    turnsOf path_Join readFile cfg records = Some ms ->
    List.length ms = List.length records
    /\ forall i record,
         nth_error records i = Some record ->
         exists m, nth_error ms i = Some m
                   /\ turnOf path_Join readFile cfg record = Some m.
Proof.
  induction records as [|r rest IH]; intros ms H; simpl in H.
  - injection H as <-. split; [reflexivity|]. now intros [|i] record.
  - destruct (turnOf _ _ _ r) as [m|] eqn:Em; [|discriminate].
    destruct (turnsOf _ _ _ rest) as [ms'|]; [|discriminate].
    injection H as <-. destruct (IH ms' eq_refl) as [Hlen Hnth].
    split; [simpl; now rewrite Hlen|].
    intros [|i] record Hi; simpl in *.
    + injection Hi as <-. now exists m.
    + now apply Hnth.
Qed.

Lemma turnsOf_unreadable (records : list MessageIn) (record : MessageIn) :
  In record records ->
  turnOf path_Join readFile cfg record = None ->
  turnsOf path_Join readFile cfg records = None.
Proof.
  induction records as [|r rest IH]; intros Hin Hnone; [contradiction|].
  simpl. destruct Hin as [-> | Hin].
  - now rewrite Hnone.
  - rewrite (IH Hin Hnone). now destruct (turnOf _ _ _ r).
Qed.

Lemma turnOf_Some (record : MessageIn) (m : Message) :
  turnOf path_Join readFile cfg record = Some m ->
  Role m = InRole record
  /\ if namesFile record
     then readFile (path_Join (PromptsDir cfg) (File record))
          = Contents (Content m)
     else Content m = InContent record.
Proof.
  unfold turnOf. destruct (namesFile record).
  - destruct (readFile _) as [| |data]; try discriminate.
    now intros [= <-].
  - now intros [= <-].
Qed.

Lemma loadMessages_from_start (records : list MessageIn) :
  loadMessages path_Join readFile cfg records 0 []
  = match turnsOf path_Join readFile cfg records with
    | Some ms => Loaded ms
    | None => LoadFatal
    end.
Proof. exact (loadMessages_turnsOf records []). Qed.

(** What a loaded Conversation holds at each index. *)
Lemma loadMessages_Loaded (records : list MessageIn) (msgs : list Message) :
  loadMessages path_Join readFile cfg records 0 [] = Loaded msgs ->
  List.length msgs = List.length records
  /\ forall i record,
       nth_error records i = Some record ->
       exists m,
         nth_error msgs i = Some m
         /\ Role m = InRole record
         /\ if namesFile record
            then readFile (path_Join (PromptsDir cfg) (File record))
                 = Contents (Content m)
            else Content m = InContent record.
Proof.
  intros Hl. rewrite loadMessages_from_start in Hl.
  destruct (turnsOf _ _ _ records) as [ms|] eqn:Et; [|discriminate].
  injection Hl as <-. destruct (turnsOf_nth _ _ Et) as [Hlen Hnth].
  split; [exact Hlen|]. intros i record Hi.
  destruct (Hnth i record Hi) as [m [Hm Ht]].
  exists m. split; [exact Hm|]. now apply turnOf_Some.
Qed.

(** C4: the loader produces one Turn for each record, in order, with
    the record's role and inline content, or, for a system record that
    names a file, the contents of that file under the prompts directory;
    the index assignment never goes out of range; and when such a file
    cannot be opened or read the process ends fatally before any
    session. *)
Theorem loader_follows_records (records : list MessageIn) :
  loadMessages path_Join readFile cfg records 0 []
  = match turnsOf path_Join readFile cfg records with
    | Some ms => Loaded ms
    | None => LoadFatal
    end
  /\ (forall msgs,
        loadMessages path_Join readFile cfg records 0 [] = Loaded msgs ->
        List.length msgs = List.length records
        /\ forall i record,
             nth_error records i = Some record ->
             exists m,
               nth_error msgs i = Some m
               /\ Role m = InRole record
               /\ if namesFile record
                  then readFile (path_Join (PromptsDir cfg) (File record))
                       = Contents (Content m)
                  else Content m = InContent record)
  /\ (forall record,
        In record records ->
        namesFile record = true ->
        (forall data,
           readFile (path_Join (PromptsDir cfg) (File record))
           <> Contents data) ->
        loadMessages path_Join readFile cfg records 0 [] = LoadFatal
        /\ forall stdin inputData spare,
             readFile (path_Join (InputDir cfg) (InputFile cfg))
             = Contents inputData ->
             json.Unmarshal decodeMessagesIn inputData json.emptySlice
             = (json.mkSlice records spare, false) ->
             startup path_Join readFile cfg stdin
             = (mkState (Exited Fatal) [] zeroResponseBody stdin, [])).
Proof.
  pose proof (loadMessages_from_start records) as Hspec.
  split; [exact Hspec|]. split.
  - apply loadMessages_Loaded.
  - intros record Hin Hnames Hbad.
    assert (Hnone : turnOf path_Join readFile cfg record = None).
    { unfold turnOf. rewrite Hnames.
      destruct (readFile _) as [| |data] eqn:E; try reflexivity.
      now elim (Hbad data). }
    assert (Hfatal :
              loadMessages path_Join readFile cfg records 0 [] = LoadFatal).
    { rewrite Hspec. now rewrite (turnsOf_unreadable _ _ Hin Hnone). }
    split; [exact Hfatal|].
    intros stdin inputData spare Hf Hu. unfold startup.
    rewrite Hf, Hu. cbn [json.elems]. now rewrite Hfatal.
Qed.

End Loader.

(** ** The prompt and the quit commands *)

Section Prompt.

Variable path_Join : string -> string -> string.
Variable cfg : Config.

(** What a prompt does with a line that is not a quit command. *)
Lemma promptStep_line (first : bool) (c : Control) (msgs : list Message)
    (rb : ResponseBody) (line rest : string) (env : Env) :
  contains line LF = false ->
  String.eqb line "/quit!" = false ->
  String.eqb line "/quit" = false ->
  promptStep path_Join cfg first
    (mkState c msgs rb (line ++ String LF rest)%string) env
  = (mkState RemoteCall (msgs ++ [mkMessage USER line]) rb rest, [Prompt]).
Proof.
  intros Hl H1 H2. unfold promptStep. cbn [reader].
  rewrite (readUserInput_line _ _ Hl), H1, H2. reflexivity.
Qed.

(** C3, as the code has it: at every prompt, the line [/quit!] ends the
    process with no file system action at all, and the line [/quit] ends
    it after one call of the transcript logger on the Conversation of
    that moment; the logger writes one file, the indented JSON array of
    the Conversation, when the log directory can be made, and writes no
    file when it cannot.  Neither line is appended to the
    Conversation. *)
Theorem quit_commands_at_any_prompt (first : bool) (c : Control)
    (msgs : list Message) (rb : ResponseBody) (rest : string) (env : Env) :
  promptStep path_Join cfg first
    (mkState c msgs rb ("/quit!" ++ String LF rest)%string) env
  = (mkState (Exited Returned) msgs rb rest, [Prompt])
  /\ let logDir :=
       path_Join (LogsDir cfg) (ReplaceByte (CfgModel cfg) "/" "_") in
     let fileName := path_Join logDir (now env ++ ".log.json")%string in
     let '(st, events) :=
       promptStep path_Join cfg first
         (mkState c msgs rb ("/quit" ++ String LF rest)%string) env in
     st = mkState (Exited Returned) msgs rb rest
     /\ if mkdirAllOk env then
          filter isWriteFile events
          = [WriteFile fileName (MarshalIndent msgs)]
          /\ events
             = Prompt :: MkdirAll logDir
                 :: WriteFile fileName (MarshalIndent msgs)
                 :: (if writeFileOk env then [ShowSaved fileName]
                     else [Log ErrSaveLog])
        else events = [Prompt; MkdirAll logDir; Log ErrSaveLog].
Proof.
  split.
  - unfold promptStep. cbn [reader].
    now rewrite (readUserInput_line "/quit!" rest eq_refl).
  - unfold promptStep. cbn [reader].
    rewrite (readUserInput_line "/quit" rest eq_refl).
    cbn [String.eqb Ascii.eqb Bool.eqb]. cbv iota.
    unfold saveConversationLog.
    destruct (mkdirAllOk env); cbn [negb].
    + destruct (writeFileOk env); cbn [negb]; now repeat split.
    + now split.
Qed.

(** C5, on the code: a line that ends with a carriage return and a line
    feed keeps its carriage return, because the line feed is trimmed
    first and the trim of the pair then finds nothing to match; the line
    is therefore not taken as a quit command but appended as a user
    Turn. *)
Theorem crlf_quit_is_appended (first : bool) (c : Control)
    (msgs : list Message) (rb : ResponseBody) (rest : string) (env : Env) :
  readUserInput ("/quit" ++ String CR (String LF rest))%string
  = (Some ("/quit" ++ String CR "")%string, rest)
  /\ promptStep path_Join cfg first
       (mkState c msgs rb ("/quit" ++ String CR (String LF rest))%string)
       env
     = (mkState RemoteCall
          (msgs ++ [mkMessage USER ("/quit" ++ String CR "")%string])
          rb rest,
        [Prompt]).
Proof.
  split.
  - exact (readUserInput_line ("/quit" ++ String CR "")%string rest eq_refl).
  - exact (promptStep_line first c msgs rb ("/quit" ++ String CR "")%string
             rest env eq_refl eq_refl eq_refl).
Qed.

(** The comparison itself is exact: a line without a carriage return is
    a quit command only if it is [/quit] or [/quit!], byte for byte. *)
Lemma other_line_is_appended (first : bool) (c : Control)
    (msgs : list Message) (rb : ResponseBody) (line rest : string)
    (env : Env) :
  contains line LF = false ->
  line <> "/quit!"%string -> line <> "/quit"%string ->
  promptStep path_Join cfg first
    (mkState c msgs rb (line ++ String LF rest)%string) env
  = (mkState RemoteCall (msgs ++ [mkMessage USER line]) rb rest, [Prompt]).
Proof.
  intros Hl H1 H2. apply promptStep_line; [exact Hl| |];
    now apply String.eqb_neq.
Qed.

End Prompt.

(** ** The remote call *)

Section Remote.

Variable path_Join : string -> string -> string.
Variable cfg : Config.

(** Every request of a round carries the Conversation the round started
    with. *)
Lemma remoteStep_posted (st : State) (env : Env) (p : RequestPayload) :
  In p (posted (snd (remoteStep cfg st env))) ->
  p = mkRequestPayload (CfgModel cfg) (messages st)
        (toFloat32 (CfgTemperature cfg)).
Proof.
  unfold remoteStep.
  destruct (remote env) as [| | |status body readError]; simpl;
    try tauto; try (now intros [<- | []]).
  destruct (negb (status =? StatusOK)%Z); simpl;
    try (now intros [<- | []]).
  destruct readError; simpl; try (now intros [<- | []]).
  destruct (json.Unmarshal decodeResponseBody body (responseBody st))
    as [rb err].
  destruct err; simpl; try (now intros [<- | []]).
  destruct (json.elems (Choices rb)); simpl; now intros [<- | []].
Qed.

(** A round whose request can be built sends it, once, with the
    Conversation the round started with. *)
Lemma remoteStep_posts (st : State) (env : Env) :
  remote env <> MarshalError -> remote env <> NewRequestError ->
  posted (snd (remoteStep cfg st env))
  = [mkRequestPayload (CfgModel cfg) (messages st)
       (toFloat32 (CfgTemperature cfg))].
Proof.
  unfold remoteStep. intros H1 H2.
  destruct (remote env) as [| | |status body readError];
    try contradiction; try reflexivity.
  destruct (negb (status =? StatusOK)%Z); [reflexivity|].
  destruct readError; [reflexivity|].
  destruct (json.Unmarshal decodeResponseBody body (responseBody st))
    as [rb err].
  destruct err; [reflexivity|].
  now destruct (json.elems (Choices rb)).
Qed.

Lemma remoteStep_sends_first (st : State) (env : Env) :
  remote env <> MarshalError -> remote env <> NewRequestError ->
  exists more,
    snd (remoteStep cfg st env) = requestOf cfg (messages st) :: more.
Proof.
  intros H1 H2.
  destruct (remoteStep_first_event cfg st env) as [[[E | E] _] | H];
    [contradiction | contradiction | exact H].
Qed.

(** C6: a remote call that fails at the transport level, returns a
    status other than 200, or returns a body that cannot be read or
    decoded, leaves the Conversation and the pending input as they are
    and leaves the session at the top of the loop, with no prompt shown.
    The next step is therefore the same remote call: whenever its
    request can be built it is sent, as the first thing the step does
    and exactly once, and it carries the identical Conversation; so
    did the request of the failed call, when one was sent. *)
Theorem failed_call_is_retried_unchanged (st : State) (env : Env) :
  control st = RemoteCall ->
  remoteFails (responseBody st) (remote env) = true ->
  messages (fst (step path_Join cfg st env)) = messages st
  /\ reader (fst (step path_Join cfg st env)) = reader st
  /\ control (fst (step path_Join cfg st env)) = RemoteCall
  /\ filter isPrompt (snd (step path_Join cfg st env)) = []
  /\ (forall env',
        step path_Join cfg (fst (step path_Join cfg st env)) env'
        = remoteStep cfg (fst (step path_Join cfg st env)) env'
        /\ forall p,
             In p (posted (snd (step path_Join cfg st env)))
             \/ In p (posted (snd (step path_Join cfg
                                     (fst (step path_Join cfg st env))
                                     env'))) ->
             Messages p = messages st)
  /\ (remote env <> MarshalError -> remote env <> NewRequestError ->
      posted (snd (step path_Join cfg st env))
      = [mkRequestPayload (CfgModel cfg) (messages st)
           (toFloat32 (CfgTemperature cfg))])
  /\ forall env',
       remote env' <> MarshalError -> remote env' <> NewRequestError ->
       posted (snd (step path_Join cfg (fst (step path_Join cfg st env))
                      env'))
       = [mkRequestPayload (CfgModel cfg) (messages st)
            (toFloat32 (CfgTemperature cfg))]
       /\ exists more,
            snd (step path_Join cfg (fst (step path_Join cfg st env)) env')
            = requestOf cfg (messages st) :: more.
Proof.
  intros Hc Hfail.
  assert (H : messages (fst (remoteStep cfg st env)) = messages st
              /\ reader (fst (remoteStep cfg st env)) = reader st
              /\ control (fst (remoteStep cfg st env)) = RemoteCall
              /\ filter isPrompt (snd (remoteStep cfg st env)) = []).
  { unfold remoteStep, remoteFails in *.
    destruct (remote env) as [| | |status body readError];
      try (now repeat split).
    destruct (negb (status =? StatusOK)%Z); [now repeat split|].
    destruct readError; [now repeat split|].
    destruct (json.Unmarshal decodeResponseBody body (responseBody st))
      as [rb err].
    simpl in Hfail. subst err. now repeat split. }
  assert (S0 : step path_Join cfg st env = remoteStep cfg st env).
  { unfold step. now rewrite Hc. }
  rewrite S0.
  destruct H as [Hm [Hr [Hc' Hp]]].
  assert (Hstep : forall env',
             step path_Join cfg (fst (remoteStep cfg st env)) env'
             = remoteStep cfg (fst (remoteStep cfg st env)) env').
  { intros env'. unfold step. now rewrite Hc'. }
  repeat (split; [assumption|]).
  split; [|split].
  - intros env'. split; [apply Hstep|].
    intros p [Hin | Hin].
    + now rewrite (remoteStep_posted _ _ _ Hin).
    + rewrite Hstep in Hin. rewrite (remoteStep_posted _ _ _ Hin).
      cbn [Messages]. exact Hm.
  - intros H1 H2. now apply remoteStep_posts.
  - intros env' H1 H2. rewrite Hstep. split.
    + rewrite (remoteStep_posts _ env' H1 H2). now rewrite Hm.
    + destruct (remoteStep_sends_first (fst (remoteStep cfg st env)) env'
                  H1 H2) as [more E].
      exists more. now rewrite E, Hm.
Qed.

(** A reply whose decoded choices are empty changes nothing but the
    place in the loop. *)
Lemma no_choice_keeps_conversation (st : State) (env : Env)
    (body : string) (rb : ResponseBody) :
  remote env = Response StatusOK body false ->
  json.Unmarshal decodeResponseBody body (responseBody st) = (rb, false) ->
  json.elems (Choices rb) = [] ->
  remoteStep cfg st env
  = (mkState NextPrompt (messages st) rb (reader st),
     [requestOf cfg (messages st); ShowNoResponse body]).
Proof.
  intros He Hu Hn. unfold remoteStep. rewrite He. cbn.
  now rewrite Hu, Hn.
Qed.

(** A body that spells out an empty list of choices does reset what an
    earlier round stored, and the Conversation stays as it is. *)
Lemma explicit_empty_choices_keep_conversation (msgs : list Message)
    (rb : ResponseBody) (stdin : string) (dirOk fileOk : bool)
    (time : string) :
  step path_Join cfg (mkState RemoteCall msgs rb stdin)
    (mkEnv (Response 200 (jsonText "{'choices':[]}") false)
       dirOk fileOk time)
  = (mkState NextPrompt msgs
       (mkResponseBody json.emptySlice (UsageOf rb)) stdin,
     [requestOf cfg msgs; ShowNoResponse (jsonText "{'choices':[]}")]).
Proof.
  unfold step, remoteStep. cbn [control remote].
  change (negb (200 =? StatusOK)%Z) with false. cbv iota.
  unfold json.Unmarshal.
  replace (json.parse (jsonText "{'choices':[]}"))
    with (Some (json.Object [("choices"%string, json.Array [])]))
    by (vm_compute; reflexivity).
  reflexivity.
Qed.

(** C1, on the code: [responseBody] outlives the rounds of the loop and
    [json.Unmarshal] leaves alone what a body does not mention.  The
    body [{}] decodes without error and, on its own, to zero choices; yet
    after a round that stored a choice, the round that receives [{}]
    finds that choice still there and appends its message once more. *)
Theorem stale_choice_is_appended_again (msgs : list Message)
    (choice : ResponseChoice) (others behind : list ResponseChoice)
    (usage : Usage) (stdin : string) (dirOk fileOk : bool)
    (time : string) :
  json.Unmarshal decodeResponseBody (jsonText "{}") zeroResponseBody
  = (zeroResponseBody, false)
  /\ step path_Join cfg
       (mkState RemoteCall msgs
          (mkResponseBody (json.mkSlice (choice :: others) behind) usage)
          stdin)
       (mkEnv (Response 200 (jsonText "{}") false) dirOk fileOk time)
     = (mkState NextPrompt (msgs ++ [ChoiceMessage choice])
          (mkResponseBody (json.mkSlice (choice :: others) behind) usage)
          stdin,
        [requestOf cfg msgs;
         ShowReply (Content (ChoiceMessage choice))
           (PromptTokens usage) (CompletionTokens usage)]).
Proof.
  split; [vm_compute; reflexivity|].
  unfold step, remoteStep. cbn [control remote].
  change (negb (200 =? StatusOK)%Z) with false. cbv iota.
  replace (json.Unmarshal decodeResponseBody (jsonText "{}")
             (responseBody
                (mkState RemoteCall msgs
                   (mkResponseBody (json.mkSlice (choice :: others) behind)
                      usage) stdin)))
    with (mkResponseBody (json.mkSlice (choice :: others) behind) usage,
          false)
    by (unfold json.Unmarshal;
        replace (json.parse (jsonText "{}")) with (Some (json.Object []))
          by (vm_compute; reflexivity);
        reflexivity).
  reflexivity.
Qed.


End Remote.

(** ** The Conversation only grows *)

Section Growth.

Variable path_Join : string -> string -> string.
Variable cfg : Config.

Lemma promptStep_extends (first : bool) (st : State) (env : Env) :
  (exists more,
     messages (fst (promptStep path_Join cfg first st env))
     = messages st ++ more)
  /\ posted (snd (promptStep path_Join cfg first st env)) = [].
Proof.
  unfold promptStep.
  destruct (readUserInput (reader st)) as [[line|] rest].
  - destruct (String.eqb line "/quit!").
    + split; [exists []; now rewrite app_nil_r | reflexivity].
    + destruct (String.eqb line "/quit").
      * unfold saveConversationLog.
        destruct (mkdirAllOk env), (writeFileOk env); cbn;
          (split; [exists []; now rewrite app_nil_r | reflexivity]).
      * split; [now eexists | reflexivity].
  - destruct first;
      (split; [exists []; now rewrite app_nil_r | reflexivity]).
Qed.

Lemma remoteStep_extends (st : State) (env : Env) :
  exists more,
    messages (fst (remoteStep cfg st env)) = messages st ++ more.
Proof.
  unfold remoteStep.
  destruct (remote env) as [| | |status body readError];
    try (exists []; now rewrite app_nil_r).
  destruct (negb (status =? StatusOK)%Z);
    [exists []; now rewrite app_nil_r|].
  destruct readError; [exists []; now rewrite app_nil_r|].
  destruct (json.Unmarshal decodeResponseBody body (responseBody st))
    as [rb err].
  destruct err; [exists []; now rewrite app_nil_r|].
  destruct (json.elems (Choices rb));
    [exists []; now rewrite app_nil_r | now eexists].
Qed.

(** The monotonic append law: a step never reorders or removes Turns,
    and what it sends is the Conversation it started with. *)
Lemma step_extends (st : State) (env : Env) :
  (exists more,
     messages (fst (step path_Join cfg st env)) = messages st ++ more)
  /\ forall p, In p (posted (snd (step path_Join cfg st env))) ->
               Messages p = messages st.
Proof.
  unfold step. destruct (control st).
  - destruct (promptStep_extends true st env) as [H E].
    split; [exact H|]. rewrite E. contradiction.
  - split; [apply remoteStep_extends|].
    intros p Hin. now rewrite (remoteStep_posted _ _ _ _ Hin).
  - destruct (promptStep_extends false st env) as [H E].
    split; [exact H|]. rewrite E. contradiction.
  - split; [exists []; now rewrite app_nil_r | contradiction].
Qed.

Lemma run_extends (envs : list Env) :
  forall st : State,
    (exists more,
       messages (fst (run path_Join cfg st envs)) = messages st ++ more)
    /\ forall p, In p (posted (snd (run path_Join cfg st envs))) ->
                 exists more, Messages p = messages st ++ more.
Proof.
  induction envs as [|env envs IH]; intros st.
  - split; [exists []; now rewrite app_nil_r | contradiction].
  - cbn [run]. destruct (step_extends st env) as [[m1 H1] P1].
    destruct (step path_Join cfg st env) as [st1 ev1].
    destruct (IH st1) as [[m2 H2] P2].
    destruct (run path_Join cfg st1 envs) as [st2 ev2].
    cbn [fst snd] in *. split.
    + exists (m1 ++ m2). now rewrite H2, H1, app_assoc.
    + intros p Hin. rewrite posted_app in Hin.
      apply in_app_or in Hin as [Hin | Hin].
      * exists []. now rewrite app_nil_r, (P1 p Hin).
      * destruct (P2 p Hin) as [more Hp].
        exists (m1 ++ more). now rewrite Hp, H1, app_assoc.
Qed.

End Growth.

(** ** Roles are not checked *)

Lemma countRoles_unknown (before after : list Message) (m : Message) :
  knownRole (Role m) = false ->
  forall s u a : nat,
    countRoles (before ++ m :: after) s u a
    = countRoles (before ++ after) s u a.
Proof.
  intros Hk. unfold knownRole in Hk.
  apply orb_false_iff in Hk as [Hk Hs].
  apply orb_false_iff in Hk as [Hu Ha].
  induction before as [|b before IH]; intros s u a; simpl.
  - now rewrite Hu, Ha, Hs.
  - destruct (String.eqb (Role b) USER); [apply IH|].
    destruct (String.eqb (Role b) ASSISTANT); [apply IH|].
    destruct (String.eqb (Role b) SYSTEM); apply IH.
Qed.

Lemma namesFile_unknown (record : MessageIn) :
  knownRole (InRole record) = false -> namesFile record = false.
Proof.
  unfold knownRole, namesFile. intros H.
  apply orb_false_iff in H as [_ H]. now rewrite H.
Qed.

Section Roles.

Variable path_Join : string -> string -> string.
Variable readFile : string -> FileRead.
Variable cfg : Config.

(** C10: a record whose role is none of [system], [user], [assistant]
    is loaded as it is, at its place; every request the session sends
    carries it unchanged at that place, and a request is sent: at once
    when the loaded Conversation ends with a user Turn, and after the
    first line typed otherwise, as soon as a request can be built; and
    the banner counts the record under none of the three roles: the
    counters are those of the Conversation without it. *)
Theorem unknown_role_is_loaded_sent_and_not_counted
    (stdin inputData : string) (messagesIn : json.Slice MessageIn)
    (msgs : list Message) (i : nat) (record : MessageIn) :
  readFile (path_Join (InputDir cfg) (InputFile cfg)) = Contents inputData ->
  json.Unmarshal decodeMessagesIn inputData json.emptySlice
    = (messagesIn, false) ->
  loadMessages path_Join readFile cfg (json.elems messagesIn) 0 []
    = Loaded msgs ->
  nth_error (json.elems messagesIn) i = Some record ->
  knownRole (InRole record) = false ->
  let turn := mkMessage (InRole record) (InContent record) in
  nth_error (messages (fst (startup path_Join readFile cfg stdin))) i
  = Some turn
  /\ (forall envs p,
        In p (posted (snd (main path_Join readFile cfg stdin envs))) ->
        nth_error (Messages p) i = Some turn)
  /\ (promptsFirst msgs = false ->
      forall env envs,
        remote env <> MarshalError -> remote env <> NewRequestError ->
        exists ps,
          posted (snd (main path_Join readFile cfg stdin (env :: envs)))
          = mkRequestPayload (CfgModel cfg) msgs
              (toFloat32 (CfgTemperature cfg)) :: ps
          /\ nth_error msgs i = Some turn)
  /\ (promptsFirst msgs = true ->
      forall line rest env env' envs,
        contains line LF = false ->
        line <> "/quit!"%string -> line <> "/quit"%string ->
        remote env' <> MarshalError -> remote env' <> NewRequestError ->
        exists ps,
          posted (snd (main path_Join readFile cfg
                         (line ++ String LF rest)%string
                         (env :: env' :: envs)))
          = mkRequestPayload (CfgModel cfg)
              (msgs ++ [mkMessage USER line])
              (toFloat32 (CfgTemperature cfg)) :: ps
          /\ nth_error (msgs ++ [mkMessage USER line]) i = Some turn)
  /\ countRoles [turn] 0 0 0 = (0, 0, 0)
  /\ exists before after,
       msgs = before ++ turn :: after
       /\ List.length before = i
       /\ snd (startup path_Join readFile cfg stdin)
          = [displayInitScreen (before ++ after) (CfgModel cfg)
               (toFloat32 (CfgTemperature cfg))].
Proof.
  intros Hf Hu Hl Hi Hk turn.
  pose proof (startup_loaded path_Join readFile cfg stdin _ _ _ Hf Hu Hl)
    as Hs.
  destruct (loadMessages_Loaded path_Join readFile cfg _ _ Hl)
    as [Hlen Hrec].
  destruct (Hrec i record Hi) as [m [Hm [Hrole Hcontent]]].
  rewrite (namesFile_unknown _ Hk) in Hcontent.
  assert (Em : m = turn) by (destruct m; simpl in *; now subst).
  subst m.
  assert (Hturn : knownRole (Role turn) = false) by exact Hk.
  assert (Hbanner : forall events,
             posted ([displayInitScreen msgs (CfgModel cfg)
                        (toFloat32 (CfgTemperature cfg))] ++ events)
             = posted events).
  { intros events. unfold displayInitScreen.
    now destruct (countRoles msgs 0 0 0) as [[? ?] ?]. }
  split; [now rewrite Hs|]. split; [|split; [|split; [|split]]].
  - intros envs p Hin. unfold main in Hin. rewrite Hs in Hin.
    set (st0 := mkState _ msgs zeroResponseBody stdin) in Hin.
    destruct (run_extends path_Join cfg envs st0) as [_ Hp].
    destruct (run path_Join cfg st0 envs) as [st2 ev2].
    cbn [snd] in *. rewrite posted_app in Hin.
    unfold displayInitScreen in Hin.
    destruct (countRoles msgs 0 0 0) as [[? ?] ?]. simpl in Hin.
    destruct (Hp p Hin) as [more ->]. cbn [messages st0].
    rewrite nth_error_app1; [exact Hm|].
    apply nth_error_Some. now rewrite Hm.
  - intros Hpf env envs H1 H2. unfold main. rewrite Hs, Hpf.
    cbn [run]. unfold step at 1. cbn [control].
    pose proof (remoteStep_posts cfg
                  (mkState RemoteCall msgs zeroResponseBody stdin) env
                  H1 H2) as P.
    destruct (remoteStep cfg
                (mkState RemoteCall msgs zeroResponseBody stdin) env)
      as [st1 ev1].
    destruct (run path_Join cfg st1 envs) as [st2 ev2].
    cbn [fst snd messages] in *.
    exists (posted ev2). split; [|exact Hm].
    now rewrite Hbanner, posted_app, P.
  - intros Hpf line rest env env' envs Hline Hq1 Hq2 H1 H2.
    pose proof (startup_loaded path_Join readFile cfg
                  (line ++ String LF rest)%string _ _ _ Hf Hu Hl) as Hs'.
    unfold main. rewrite Hs', Hpf.
    cbn [run]. unfold step at 1. cbn [control].
    rewrite (other_line_is_appended path_Join cfg true FirstPrompt msgs
               zeroResponseBody line rest env Hline Hq1 Hq2).
    unfold step at 1. cbn [control].
    pose proof (remoteStep_posts cfg
                  (mkState RemoteCall (msgs ++ [mkMessage USER line])
                     zeroResponseBody rest) env' H1 H2) as P.
    destruct (remoteStep cfg
                (mkState RemoteCall (msgs ++ [mkMessage USER line])
                   zeroResponseBody rest) env')
      as [st1 ev1].
    destruct (run path_Join cfg st1 envs) as [st2 ev2].
    cbn [fst snd messages] in *.
    exists (posted ev2). split.
    + rewrite Hbanner. cbn [app posted]. now rewrite posted_app, P.
    + rewrite nth_error_app1; [exact Hm|].
      apply nth_error_Some. now rewrite Hm.
  - unfold knownRole in Hk. cbn [countRoles Role turn].
    apply orb_false_iff in Hk as [Hk Hsys].
    apply orb_false_iff in Hk as [Husr Hasst].
    now rewrite Husr, Hasst, Hsys.
  - destruct (nth_error_split msgs i Hm) as [before [after [E Hb]]].
    exists before, after. split; [exact E|]. split; [exact Hb|].
    rewrite Hs. cbn [snd]. unfold displayInitScreen.
    now rewrite E, (countRoles_unknown before after turn Hturn).
Qed.

End Roles.

(** ** The transcript round trip *)

(** C7, as the code has it: writing a Conversation whose roles and
    contents are valid UTF-8 as a transcript and decoding that text gives
    back the same Turns in the same order. *)
Theorem transcript_round_trip (msgs : list Message) :
  forallb validMessage msgs = true ->
  json.Unmarshal decodeMessages (MarshalIndent msgs) json.emptySlice
  = (json.mkSlice msgs [], false).
Proof.
  intros Hv. rewrite transcript_facts.Unmarshal_MarshalIndent.
  now rewrite (transcript_facts.coerceMessages_valid msgs Hv).
Qed.

(** ** The input file *)

Lemma decodeString_error (v : json.Value) (old : string) :
  snd (json.decodeString v old) = negb (stringOrNull v).
Proof. now destruct v. Qed.

Lemma fieldMessageIn_error (key : string) (v : json.Value) (m : MessageIn) :
  snd (fieldMessageIn key v m) = negb (memberFits (key, v)).
Proof.
  unfold fieldMessageIn, memberFits. cbn [fst snd].
  destruct (json.fieldIs key "role"), (json.fieldIs key "content"),
    (json.fieldIs key "file"), v; reflexivity.
Qed.

Lemma decodeMessageIn_members (members : list (string * json.Value)) :
  forall (m : MessageIn) (e : bool),
    snd (fold_left
           (fun (acc : MessageIn * bool) (kv : string * json.Value) =>
              let '(a, e) := acc in
              let '(a', e') := fieldMessageIn (fst kv) (snd kv) a in
              (a', e || e'))
           members (m, e))
    = e || negb (forallb memberFits members).
Proof.
  induction members as [|[k v] members IH]; intros m e; cbn [fold_left].
  - now rewrite orb_false_r.
  - cbn [fst snd forallb].
    pose proof (fieldMessageIn_error k v m) as H.
    destruct (fieldMessageIn k v m) as [a' e']. cbn [snd] in H. subst e'.
    rewrite IH. destruct e, (memberFits (k, v)); reflexivity.
Qed.

Lemma decodeMessageIn_error (v : json.Value) (old : MessageIn) :
  snd (decodeMessageIn v old) = negb (recordShaped v).
Proof.
  destruct v; try reflexivity.
  unfold decodeMessageIn, json.decodeStruct, recordShaped.
  apply decodeMessageIn_members.
Qed.

Lemma decodeElems_error (vs : list json.Value) :
  forall pool : list MessageIn,
    snd (json.decodeElems decodeMessageIn zeroMessageIn vs pool)
    = negb (forallb recordShaped vs).
Proof.
  induction vs as [|v vs IH]; intros pool; [reflexivity|].
  cbn [json.decodeElems forallb].
  destruct pool as [|a pool].
  - pose proof (decodeMessageIn_error v zeroMessageIn) as H.
    destruct (decodeMessageIn v zeroMessageIn) as [a' e]. cbn [snd] in H.
    specialize (IH []).
    destruct (json.decodeElems decodeMessageIn zeroMessageIn vs [])
      as [[rest behind] e'].
    cbn [snd] in *. subst. now destruct (recordShaped v).
  - pose proof (decodeMessageIn_error v a) as H.
    destruct (decodeMessageIn v a) as [a' e]. cbn [snd] in H.
    specialize (IH pool).
    destruct (json.decodeElems decodeMessageIn zeroMessageIn vs pool)
      as [[rest behind] e'].
    cbn [snd] in *. subst. now destruct (recordShaped v).
Qed.

(** [json.Unmarshal] into a [[]MessageIn] reports an error exactly on the
    inputs that [acceptedInput] refuses. *)
Lemma Unmarshal_MessagesIn_error (data : string) :
  snd (json.Unmarshal decodeMessagesIn data json.emptySlice)
  = negb (acceptedInput data).
Proof.
  unfold json.Unmarshal, acceptedInput.
  destruct (json.parse data) as [v|]; [|reflexivity].
  destruct v as [| | | |vs|]; try reflexivity.
  destruct vs as [|v vs]; [reflexivity|].
  unfold decodeMessagesIn, json.decodeSlice.
  pose proof (decodeElems_error (v :: vs)
                (json.elems json.emptySlice ++ json.spare json.emptySlice))
    as H.
  destruct (json.decodeElems decodeMessageIn zeroMessageIn (v :: vs) _)
    as [[es behind] e].
  exact H.
Qed.

Section InputFile.

Variable path_Join : string -> string -> string.
Variable readFile : string -> FileRead.
Variable cfg : Config.

(** C8, as the code has it: the process ends fatally, before any
    session and with nothing shown, on every input file that is not
    syntactically valid JSON, whose value is a number, a string, a
    boolean or an object, or that is an array with an element other than
    [null] and objects whose role, content and file are strings or
    [null].  Every other input passes the decoding: a valid array of
    such elements, possibly empty, and also the value [null], which is
    loaded as the empty Conversation and leads to the first prompt. *)
Theorem input_file_is_validated_by_Unmarshal (stdin inputData : string) :
  readFile (path_Join (InputDir cfg) (InputFile cfg)) = Contents inputData ->
  snd (json.Unmarshal decodeMessagesIn inputData json.emptySlice)
  = negb (acceptedInput inputData)
  /\ (acceptedInput inputData = false ->
      startup path_Join readFile cfg stdin
      = (mkState (Exited Fatal) [] zeroResponseBody stdin, []))
  /\ (json.parse inputData = None -> acceptedInput inputData = false)
  /\ (forall v,
        json.parse inputData = Some v ->
        match v with
        | json.Null => acceptedInput inputData = true
        | json.Array vs => acceptedInput inputData = forallb recordShaped vs
        | _ => acceptedInput inputData = false
        end)
  /\ (json.parse inputData = Some json.Null
      \/ json.parse inputData = Some (json.Array []) ->
      startup path_Join readFile cfg stdin
      = (mkState FirstPrompt [] zeroResponseBody stdin,
         [displayInitScreen [] (CfgModel cfg)
            (toFloat32 (CfgTemperature cfg))])).
Proof.
  intros Hf. split; [apply Unmarshal_MessagesIn_error|].
  split; [|split; [|split]].
  - intros Hacc. unfold startup. rewrite Hf.
    pose proof (Unmarshal_MessagesIn_error inputData) as H.
    rewrite Hacc in H.
    destruct (json.Unmarshal decodeMessagesIn inputData json.emptySlice)
      as [messagesIn err].
    cbn [snd negb] in H. now subst err.
  - intros Hp. unfold acceptedInput. now rewrite Hp.
  - intros v Hp. unfold acceptedInput. rewrite Hp. now destruct v.
  - intros Hp. unfold startup. rewrite Hf. unfold json.Unmarshal.
    destruct Hp as [-> | ->]; reflexivity.
Qed.

End InputFile.

(** ** The scenarios of the specification and the claims, at concrete
    inputs *)

(** Input [[]]; the human types [hello]; the remote returns the choice
    [{assistant, "hi"}]. *)
Example scenario_hello :
  messages
    (fst (main joinSlash (exampleFiles emptyInput) exampleConfig
            ("hello" ++ NL)%string [unreachable; replies replyHi]))
  = [mkMessage USER "hello"; hi].
Proof. vm_compute. reflexivity. Qed.

(** Input [[{user, "ping"}]]: the remote is called at once, and the request
    carries that one Turn. *)
Example scenario_ping :
  snd (main joinSlash (exampleFiles pingInput) exampleConfig ""
         [replies replyHi])
  = [Banner "org/model" (toFloat32 0) 0 1 0;
     requestOf exampleConfig [ping];
     ShowReply "hi" 3 1].
Proof. vm_compute. reflexivity. Qed.

(** A system prompt taken from its file. *)
Example scenario_system_prompt :
  fst (startup joinSlash (exampleFiles promptInput) exampleConfig "")
  = mkState FirstPrompt
      [mkMessage SYSTEM "You are a helpful assistant."]
      zeroResponseBody "".
Proof. vm_compute. reflexivity. Qed.

(** A whole session in which the remote answers [{}] after a reply: the
    earlier reply enters the Conversation a second time. *)
Example scenario_stale_reply :
  messages
    (fst (main joinSlash (exampleFiles pingInput) exampleConfig
            ("more" ++ NL)%string
            [replies replyHi; unreachable; replies "{}"]))
  = [ping; hi; mkMessage USER "more"; hi].
Proof. vm_compute. reflexivity. Qed.

(** End of input after a reply: the call is repeated and a second reply
    follows the first with no user Turn between them. *)
Example scenario_end_of_input :
  messages
    (fst (main joinSlash (exampleFiles pingInput) exampleConfig ""
            [replies replyHi; unreachable; replies replyHi]))
  = [ping; hi; hi].
Proof. vm_compute. reflexivity. Qed.

Lemma first_action_follows_last_role_witness :
  exampleFiles pingInput
    (joinSlash (InputDir exampleConfig) (InputFile exampleConfig))
  = Contents pingInput
  /\ json.Unmarshal decodeMessagesIn pingInput json.emptySlice
     = (json.mkSlice [mkMessageIn USER "ping" ""] [], false)
  /\ loadMessages joinSlash (exampleFiles pingInput) exampleConfig
       [mkMessageIn USER "ping" ""] 0 []
     = Loaded [ping]
  /\ control (fst (startup joinSlash (exampleFiles pingInput)
                     exampleConfig ""))
     = RemoteCall.
Proof.
  assert (H1 : exampleFiles pingInput
                 (joinSlash (InputDir exampleConfig) (InputFile exampleConfig))
               = Contents pingInput) by reflexivity.
  assert (H2 : json.Unmarshal decodeMessagesIn pingInput json.emptySlice
               = (json.mkSlice [mkMessageIn USER "ping" ""] [], false))
    by (vm_compute; reflexivity).
  assert (H3 : loadMessages joinSlash (exampleFiles pingInput) exampleConfig
                 (json.elems (json.mkSlice [mkMessageIn USER "ping" ""] []))
                 0 []
               = Loaded [ping]) by reflexivity.
  pose proof (first_action_follows_last_role joinSlash
                (exampleFiles pingInput) exampleConfig "" pingInput _ _
                H1 H2 H3) as [_ [_ [_ Hu]]].
  assert (Hlast : [ping] <> [] /\ Role (last [ping] zeroMessage) = USER)
    by (split; [discriminate | reflexivity]).
  exact (conj H1 (conj H2 (conj H3 (proj1 (Hu Hlast))))).
Defined.

(** With a log directory that cannot be made, [/quit] writes no file. *)
Lemma quit_without_log_directory_writes_nothing :
  promptStep joinSlash exampleConfig false
    (mkState NextPrompt [ping; hi] zeroResponseBody ("/quit" ++ NL)%string)
    readOnlyDisk
  = (mkState (Exited Returned) [ping; hi] zeroResponseBody "",
     [Prompt; MkdirAll "logs/org_model"; Log ErrSaveLog])
  /\ count isWriteFile
       (snd (promptStep joinSlash exampleConfig false
               (mkState NextPrompt [ping; hi] zeroResponseBody
                  ("/quit" ++ NL)%string)
               readOnlyDisk))
     = 0.
Proof. split; vm_compute; reflexivity. Qed.

Lemma failed_call_is_retried_unchanged_witness :
  control (mkState RemoteCall [ping] zeroResponseBody "") = RemoteCall
  /\ remoteFails zeroResponseBody (remote unreachable) = true
  /\ messages (fst (step joinSlash exampleConfig
                      (mkState RemoteCall [ping] zeroResponseBody "")
                      unreachable))
     = [ping]
  /\ posted
       (snd (step joinSlash exampleConfig
               (fst (step joinSlash exampleConfig
                       (mkState RemoteCall [ping] zeroResponseBody "")
                       unreachable))
               unreachable))
     = [mkRequestPayload (CfgModel exampleConfig) [ping]
          (toFloat32 (CfgTemperature exampleConfig))].
Proof.
  split; [reflexivity|]. split; [reflexivity|].
  pose (T := failed_call_is_retried_unchanged joinSlash exampleConfig
               (mkState RemoteCall [ping] zeroResponseBody "")
               unreachable eq_refl eq_refl).
  split; [exact (proj1 T)|].
  exact (proj1 (proj2 (proj2 (proj2 (proj2 (proj2 (proj2 T)))))
                  unreachable ltac:(discriminate) ltac:(discriminate))).
Defined.

Lemma transcript_round_trip_witness :
  forallb validMessage
    [ping; cafe]
  = true
  /\ json.Unmarshal decodeMessages
       (MarshalIndent
          [ping;
           cafe])
       json.emptySlice
     = (json.mkSlice
          [ping;
           cafe]
          [],
        false).
Proof.
  assert (Hv : forallb validMessage
                 [ping; cafe]
               = true) by (vm_compute; reflexivity).
  exact (conj Hv (transcript_round_trip _ Hv)).
Defined.

(** A byte that is not UTF-8 can be typed at the prompt and is appended as
    it is; the transcript holds the escape of U+FFFD in its place, and
    decoding gives the three bytes of U+FFFD, not the byte typed. *)
Lemma invalid_utf8_is_not_read_back :
  messages
    (fst (promptStep joinSlash exampleConfig true
            (mkState FirstPrompt [] zeroResponseBody
               (invalidByte ++ NL)%string)
            unreachable))
  = [mkMessage USER invalidByte]
  /\ json.Unmarshal decodeMessages
       (MarshalIndent [mkMessage USER invalidByte]) json.emptySlice
     = (json.mkSlice [mkMessage USER (utf8.EncodeRune utf8.RuneError)] [],
        false)
  /\ eqMessage (mkMessage USER (utf8.EncodeRune utf8.RuneError))
       (mkMessage USER invalidByte)
     = false.
Proof. repeat split; vm_compute; reflexivity. Qed.

Lemma input_file_is_validated_by_Unmarshal_witness :
  exampleFiles emptyInput
    (joinSlash (InputDir exampleConfig) (InputFile exampleConfig))
  = Contents emptyInput
  /\ snd (json.Unmarshal decodeMessagesIn emptyInput json.emptySlice)
     = negb (acceptedInput emptyInput).
Proof.
  split; [reflexivity|].
  exact (proj1 (input_file_is_validated_by_Unmarshal joinSlash
                  (exampleFiles emptyInput) exampleConfig "" emptyInput
                  eq_refl)).
Defined.

(** The input file [null] is no array, and a session starts on it. *)
Lemma null_input_starts_a_session :
  json.parse (jsonText "null") = Some json.Null
  /\ startup joinSlash (exampleFiles (jsonText "null")) exampleConfig ""
     = (mkState FirstPrompt [] zeroResponseBody "",
        [Banner "org/model" (toFloat32 0) 0 0 0]).
Proof. split; vm_compute; reflexivity. Qed.


Lemma unknown_role_is_loaded_sent_and_not_counted_witness :
  knownRole "tool" = false
  /\ nth_error
       (messages (fst (startup joinSlash (exampleFiles toolInput)
                         exampleConfig "")))
       0
     = Some (mkMessage "tool" "42")
  /\ exists ps,
       posted (snd (main joinSlash (exampleFiles toolInput) exampleConfig ""
                      [unreachable]))
       = mkRequestPayload (CfgModel exampleConfig)
           [mkMessage "tool" "42"; ping]
           (toFloat32 (CfgTemperature exampleConfig)) :: ps
       /\ nth_error [mkMessage "tool" "42"; ping] 0
          = Some (mkMessage "tool" "42").
Proof.
  split; [reflexivity|].
  assert (H2 : json.Unmarshal decodeMessagesIn toolInput json.emptySlice
               = (json.mkSlice
                    [mkMessageIn "tool" "42" ""; mkMessageIn USER "ping" ""]
                    [],
                  false))
    by (vm_compute; reflexivity).
  pose (T := unknown_role_is_loaded_sent_and_not_counted joinSlash
               (exampleFiles toolInput) exampleConfig "" toolInput _
               [mkMessage "tool" "42"; ping] 0
               (mkMessageIn "tool" "42" "")
               eq_refl H2 eq_refl eq_refl eq_refl).
  split; [exact (proj1 T)|].
  exact (proj1 (proj2 (proj2 T)) eq_refl unreachable []
           ltac:(discriminate) ltac:(discriminate)).
Defined.

(** * Further properties of the program *)

(** ** The helper functions *)

Lemma first_LF (s : string) :
  contains s LF = true ->
  exists line rest,
    s = (line ++ String LF rest)%string /\ contains line LF = false.
Proof.
  induction s as [|c s IH]; simpl; [discriminate|].
  destruct (Ascii.eqb c LF) eqn:E.
  - intros _. apply Ascii.eqb_eq in E. subst c.
    now exists ""%string, s.
  - intros H. destruct (IH H) as [line [rest [-> Hl]]].
    exists (String c line), rest. split; [reflexivity|].
    simpl. now rewrite E.
Qed.

Lemma line_unique (line line' rest rest' : string) :
  contains line LF = false -> contains line' LF = false ->
  (line ++ String LF rest)%string = (line' ++ String LF rest')%string ->
  line = line' /\ rest = rest'.
Proof.
  revert line'.
  induction line as [|c line IH]; intros [|c' line']; simpl; intros H H' E.
  - now injection E.
  - injection E as <- _. now rewrite Ascii.eqb_refl in H'.
  - injection E as -> _. now rewrite Ascii.eqb_refl in H.
  - injection E as <- E.
    apply orb_false_iff in H as [_ H]. apply orb_false_iff in H' as [_ H'].
    destruct (IH _ H H' E) as [-> ->]. now split.
Qed.

(** X1: [readUserInput] returns the bytes in front of the first line
    feed of the input, all of them (a carriage return in front of the
    line feed stays, no white space is trimmed), and leaves what follows
    the line feed unread.  It returns an error exactly when the input
    ends before a line feed, and then nothing of the input is left. *)
Theorem readUserInput_reads_one_line (input : string) :
  (forall line rest,
     readUserInput input = (Some line, rest)
     <-> input = (line ++ String LF rest)%string
         /\ contains line LF = false)
  /\ (fst (readUserInput input) = None <-> contains input LF = false)
  /\ (fst (readUserInput input) = None ->
      snd (readUserInput input) = ""%string).
Proof.
  destruct (contains input LF) eqn:E.
  - destruct (first_LF _ E) as [l [r [-> Hl]]].
    rewrite (readUserInput_line _ _ Hl). cbn [fst snd].
    split; [|split].
    + intros line rest. split.
      * intros [= <- <-]. now split.
      * intros [Heq Hline].
        destruct (line_unique _ _ _ _ Hl Hline Heq) as [-> ->]. reflexivity.
    + split; discriminate.
    + discriminate.
  - rewrite (readUserInput_eof _ E). cbn [fst snd].
    split; [|split].
    + intros line rest. split; [discriminate|].
      intros [-> Hl]. rewrite contains_app in E.
      apply orb_false_iff in E as [_ E]. cbn in E. discriminate E.
    + now split.
    + reflexivity.
Qed.

Lemma countRoles_roleCount (msgs : list Message) :
  forall s u a : nat,
    countRoles msgs s u a
    = (s + roleCount SYSTEM msgs, u + roleCount USER msgs,
       a + roleCount ASSISTANT msgs).
Proof.
  unfold roleCount.
  induction msgs as [|m msgs IH]; intros s u a; cbn [countRoles filter].
  - cbn [List.length]. now rewrite !Nat.add_0_r.
  - destruct (String.eqb (Role m) USER) eqn:Eu.
    + apply String.eqb_eq in Eu. rewrite Eu.
      cbn [String.eqb Ascii.eqb Bool.eqb USER ASSISTANT SYSTEM].
      cbv iota. rewrite IH. cbn [List.length].
        apply f_equal2; [apply f_equal2|]; lia.
    + destruct (String.eqb (Role m) ASSISTANT) eqn:Ea.
      * apply String.eqb_eq in Ea. rewrite Ea.
        cbn [String.eqb Ascii.eqb Bool.eqb USER ASSISTANT SYSTEM].
        cbv iota. rewrite IH. cbn [List.length].
        apply f_equal2; [apply f_equal2|]; lia.
      * destruct (String.eqb (Role m) SYSTEM) eqn:Es; rewrite IH;
          cbn [List.length]; (apply f_equal2; [apply f_equal2|]; lia).
Qed.

Lemma known_roles (msgs : list Message) :
  roleCount SYSTEM msgs + roleCount USER msgs + roleCount ASSISTANT msgs
  = List.length (filter (fun m => knownRole (Role m)) msgs).
Proof.
  unfold roleCount, knownRole.
  induction msgs as [|m msgs IH]; [reflexivity|].
  cbn [filter].
  destruct (String.eqb (Role m) USER) eqn:Eu.
  - apply String.eqb_eq in Eu. rewrite Eu.
    cbn [String.eqb Ascii.eqb Bool.eqb USER ASSISTANT SYSTEM orb].
    cbv iota. cbn [List.length]. lia.
  - destruct (String.eqb (Role m) ASSISTANT) eqn:Ea.
    + apply String.eqb_eq in Ea. rewrite Ea.
      cbn [String.eqb Ascii.eqb Bool.eqb USER ASSISTANT SYSTEM orb].
      cbv iota. cbn [List.length]. lia.
    + destruct (String.eqb (Role m) SYSTEM) eqn:Es;
        cbn [orb List.length]; lia.
Qed.

(** X2: the three counters of the banner are the numbers of Turns whose
    role is exactly [system], [user] and [assistant]; together they count
    the Turns with one of these roles, so they add up to the length of
    the Conversation exactly when every role is one of the three. *)
Theorem banner_counts_the_known_roles (msgs : list Message)
    (model : string) (temperature : float32) :
  displayInitScreen msgs model temperature
  = Banner model temperature (roleCount SYSTEM msgs) (roleCount USER msgs)
      (roleCount ASSISTANT msgs)
  /\ roleCount SYSTEM msgs + roleCount USER msgs + roleCount ASSISTANT msgs
     = List.length (filter (fun m => knownRole (Role m)) msgs)
  /\ (roleCount SYSTEM msgs + roleCount USER msgs + roleCount ASSISTANT msgs
      = List.length msgs
      <-> forallb (fun m => knownRole (Role m)) msgs = true).
Proof.
  split; [|split].
  - unfold displayInitScreen. now rewrite countRoles_roleCount.
  - apply known_roles.
  - rewrite known_roles. split.
    + intros H. apply forallb_forall. intros m Hin.
      induction msgs as [|x msgs IH]; [contradiction|].
      cbn [filter] in H.
      pose proof (filter_length_le (fun m => knownRole (Role m)) msgs) as L.
      destruct (knownRole (Role x)) eqn:Ex; cbn [List.length] in H.
      * destruct Hin as [<- | Hin]; [exact Ex|]. apply IH; [lia | exact Hin].
      * lia.
    + intros H. induction msgs as [|x msgs IH]; [reflexivity|].
      cbn [forallb] in H. apply andb_true_iff in H as [Hx H].
      cbn [filter]. rewrite Hx. cbn [List.length]. now rewrite (IH H).
Qed.

Lemma ReplaceByte_clean (s : string) (old new : ascii) :
  Ascii.eqb new old = false -> contains (ReplaceByte s old new) old = false.
Proof.
  intros H. induction s as [|c s IH]; [reflexivity|].
  cbn [ReplaceByte contains]. rewrite IH, orb_false_r.
  destruct (Ascii.eqb c old) eqn:E; [exact H | exact E].
Qed.

Lemma ReplaceByte_length (s : string) (old new : ascii) :
  length (ReplaceByte s old new) = length s.
Proof. induction s as [|c s IH]; simpl; [reflexivity | now rewrite IH]. Qed.

Lemma ReplaceByte_absent (s : string) (old new : ascii) :
  contains s old = false -> ReplaceByte s old new = s.
Proof.
  induction s as [|c s IH]; [reflexivity|].
  cbn [ReplaceByte contains]. intros H.
  apply orb_false_iff in H as [Hc Hs]. now rewrite Hc, (IH Hs).
Qed.

Section Logger.

Variable path_Join : string -> string -> string.

(** X3: [saveConversationLog] makes the directory before anything
    else, writes the file only if the directory could be made, and
    reports success, on the screen and to its caller, exactly when both
    operations succeeded.  The directory is the logs directory joined
    with the model name in which every slash has become an underscore:
    a name of the same length without a slash, and the model name
    itself when that has none. *)
Theorem saveConversationLog_outcome (msgs : list Message)
    (model logsDir : string) (env : Env) :
  let logDir := path_Join logsDir (ReplaceByte model "/" "_") in
  let fileName := path_Join logDir (now env ++ ".log.json")%string in
  fst (saveConversationLog path_Join msgs model logsDir env)
  = MkdirAll logDir
      :: (if mkdirAllOk env
          then WriteFile fileName (MarshalIndent msgs)
                 :: (if writeFileOk env then [ShowSaved fileName] else [])
          else [])
  /\ snd (saveConversationLog path_Join msgs model logsDir env)
     = mkdirAllOk env && writeFileOk env
  /\ contains (ReplaceByte model "/" "_") "/" = false
  /\ length (ReplaceByte model "/" "_") = length model
  /\ (contains model "/" = false -> ReplaceByte model "/" "_" = model).
Proof.
  cbv zeta. unfold saveConversationLog.
  repeat split.
  - now destruct (mkdirAllOk env), (writeFileOk env).
  - now destruct (mkdirAllOk env), (writeFileOk env).
  - now apply ReplaceByte_clean.
  - apply ReplaceByte_length.
  - apply ReplaceByte_absent.
Qed.

End Logger.

(** ** The session as a whole *)

Section Invariants.

Variable path_Join : string -> string -> string.
Variable readFile : string -> FileRead.
Variable cfg : Config.

Lemma promptStep_appends (first : bool) (st : State) (env : Env) :
  messages (fst (promptStep path_Join cfg first st env)) = messages st
  \/ exists m,
       messages (fst (promptStep path_Join cfg first st env))
       = messages st ++ [m].
Proof.
  unfold promptStep.
  destruct (readUserInput (reader st)) as [[line|] rest].
  - destruct (String.eqb line "/quit!"); [now left|].
    destruct (String.eqb line "/quit").
    + destruct (saveConversationLog _ _ _ _ _). now left.
    + right. now eexists.
  - destruct first; now left.
Qed.

Lemma remoteStep_appends (st : State) (env : Env) :
  messages (fst (remoteStep cfg st env)) = messages st
  \/ exists m,
       messages (fst (remoteStep cfg st env)) = messages st ++ [m].
Proof.
  unfold remoteStep.
  destruct (remote env) as [| | |status body readError]; try (now left).
  destruct (negb (status =? StatusOK)%Z); [now left|].
  destruct readError; [now left|].
  destruct (json.Unmarshal decodeResponseBody body (responseBody st))
    as [rb err].
  destruct err; [now left|].
  destruct (json.elems (Choices rb)); [now left|].
  right. now eexists.
Qed.

Lemma step_appends (st : State) (env : Env) :
  exists more,
    messages (fst (step path_Join cfg st env)) = messages st ++ more
    /\ List.length more <= 1.
Proof.
  assert (H : messages (fst (step path_Join cfg st env)) = messages st
              \/ exists m,
                   messages (fst (step path_Join cfg st env))
                   = messages st ++ [m]).
  { unfold step. destruct (control st).
    - apply promptStep_appends.
    - apply remoteStep_appends.
    - apply promptStep_appends.
    - now left. }
  destruct H as [H | [m H]].
  - exists []. rewrite app_nil_r. split; [exact H | simpl; lia].
  - exists [m]. split; [exact H | simpl; lia].
Qed.

(** X4: the Conversation only grows.  Whatever the human types and the
    remote answers, a session never removes, reorders or rewrites a
    Turn; each prompt and each remote call appends at most one Turn;
    and every request sent on the way carries the Conversation the
    session started from, followed by some of the Turns appended since,
    in the order of their appending. *)
Theorem conversation_only_grows (envs : list Env) (st : State) :
  exists added,
    messages (fst (run path_Join cfg st envs)) = messages st ++ added
    /\ List.length added <= List.length envs
    /\ forall p,
         In p (posted (snd (run path_Join cfg st envs))) ->
         exists k, Messages p = messages st ++ firstn k added.
Proof.
  revert st. induction envs as [|env envs IH]; intros st.
  - exists []. cbn. rewrite app_nil_r. repeat split; [lia | contradiction].
  - cbn [run].
    destruct (step_appends st env) as [m1 [H1 L1]].
    destruct (step_extends path_Join cfg st env) as [_ P1].
    destruct (step path_Join cfg st env) as [st1 ev1].
    destruct (IH st1) as [m2 [H2 [L2 P2]]].
    destruct (run path_Join cfg st1 envs) as [st2 ev2].
    cbn [fst snd] in *.
    exists (m1 ++ m2). split; [|split].
    + now rewrite H2, H1, app_assoc.
    + rewrite length_app. cbn [List.length]. lia.
    + intros p Hin. rewrite posted_app in Hin.
      apply in_app_or in Hin as [Hin | Hin].
      * exists 0. cbn [firstn]. now rewrite app_nil_r, (P1 p Hin).
      * destruct (P2 p Hin) as [k Hp].
        exists (List.length m1 + k).
        now rewrite firstn_app_2, Hp, H1, app_assoc.
Qed.

Lemma remoteStep_noReply (st : State) (env : Env) :
  noReply (remote env) = true ->
  fst (remoteStep cfg st env) = st
  /\ filter isPrompt (snd (remoteStep cfg st env)) = []
  /\ filter isWriteFile (snd (remoteStep cfg st env)) = [].
Proof.
  unfold remoteStep, noReply.
  destruct (remote env) as [| | |status body readError];
    try (now repeat split).
  destruct (negb (status =? StatusOK)%Z); [now repeat split|].
  destruct readError; [now repeat split | discriminate].
Qed.

(** X5: while the remote call keeps failing before a body is decoded
    (no request can be built or sent, the status is not 200, or the body
    cannot be read), the loop goes round without a prompt: the state
    of the session stays exactly as it was, the input is not read, so
    the human gets no chance to enter a quit command, nothing is
    written, and every request carries the same Conversation. *)
Theorem failing_endpoint_is_called_again_without_a_prompt
    (envs : list Env) (st : State) :
  control st = RemoteCall ->
  forallb (fun env => noReply (remote env)) envs = true ->
  fst (run path_Join cfg st envs) = st
  /\ filter isPrompt (snd (run path_Join cfg st envs)) = []
  /\ filter isWriteFile (snd (run path_Join cfg st envs)) = []
  /\ forall p,
       In p (posted (snd (run path_Join cfg st envs))) ->
       Messages p = messages st.
Proof.
  intros Hc. induction envs as [|env envs IH]; intros Hall.
  - cbn. now repeat split.
  - cbn [forallb] in Hall. apply andb_true_iff in Hall as [He Hall].
    destruct (IH Hall) as [I1 [I2 [I3 I4]]].
    cbn [run]. unfold step. rewrite Hc.
    destruct (remoteStep_noReply st env He) as [R1 [R2 R3]].
    pose proof (remoteStep_posted cfg st env) as R4.
    destruct (remoteStep cfg st env) as [st1 ev1].
    cbn [fst snd] in *. subst st1.
    destruct (run path_Join cfg st envs) as [st2 ev2].
    cbn [fst snd] in *.
    repeat split.
    + exact I1.
    + now rewrite filter_app, R2, I2.
    + now rewrite filter_app, R3, I3.
    + intros p Hin. rewrite posted_app in Hin.
      apply in_app_or in Hin as [Hin | Hin]; [|now apply I4].
      now rewrite (R4 p Hin).
Qed.



(** X7: a line typed at a prompt that is neither quit command is
    appended as a user Turn byte for byte, an empty line or a line of
    spaces included, and the next remote call sends the Conversation
    with that Turn at its end. *)
Theorem typed_line_is_sent_verbatim (c : Control) (msgs : list Message)
    (rb : ResponseBody) (line rest : string) (env env' : Env) :
  c = FirstPrompt \/ c = NextPrompt ->
  contains line LF = false ->
  line <> "/quit"%string -> line <> "/quit!"%string ->
  remote env' <> MarshalError -> remote env' <> NewRequestError ->
  messages
    (fst (step path_Join cfg
            (mkState c msgs rb (line ++ String LF rest)%string) env))
  = msgs ++ [mkMessage USER line]
  /\ posted
       (snd (run path_Join cfg
               (mkState c msgs rb (line ++ String LF rest)%string)
               [env; env']))
     = [mkRequestPayload (CfgModel cfg) (msgs ++ [mkMessage USER line])
          (toFloat32 (CfgTemperature cfg))].
Proof.
  intros Hc Hl Hq Hq' H1 H2.
  assert (S1 : step path_Join cfg
                 (mkState c msgs rb (line ++ String LF rest)%string) env
               = (mkState RemoteCall (msgs ++ [mkMessage USER line]) rb
                    rest, [Prompt])).
  { unfold step. cbn [control].
    destruct Hc as [-> | ->];
      now apply other_line_is_appended. }
  split; [now rewrite S1|].
  cbn [run]. rewrite S1.
  unfold step at 1. cbn [control].
  pose proof (remoteStep_posts cfg
                (mkState RemoteCall (msgs ++ [mkMessage USER line]) rb rest)
                env' H1 H2) as P.
  destruct (remoteStep cfg _ env') as [st2 ev2].
  cbn [fst snd messages] in *.
  rewrite app_nil_r. cbn [app posted]. exact P.
Qed.

Lemma startup_shows (stdin : string) :
  snd (startup path_Join readFile cfg stdin) = []
  \/ exists msgs,
       snd (startup path_Join readFile cfg stdin)
       = [displayInitScreen msgs (CfgModel cfg)
            (toFloat32 (CfgTemperature cfg))].
Proof.
  unfold startup.
  destruct (readFile (path_Join (InputDir cfg) (InputFile cfg)))
    as [| |data]; try (now left).
  destruct (json.Unmarshal decodeMessagesIn data json.emptySlice)
    as [messagesIn err].
  destruct err; [now left|].
  destruct (loadMessages path_Join readFile cfg (json.elems messagesIn) 0 [])
    as [msgs| |]; try (now left).
  right. now exists msgs.
Qed.

(** X8: [main] up to its first prompt or remote call either ends the
    process fatally, with nothing shown and no Conversation, or shows
    the banner once for the loaded Conversation and goes on to the
    prompt or to the remote call as its last Turn decides.  It never
    panics, it reads nothing from the standard input, and it ends
    fatally whenever the input file cannot be opened or read. *)
Theorem startup_outcomes (stdin : string) :
  reader (fst (startup path_Join readFile cfg stdin)) = stdin
  /\ responseBody (fst (startup path_Join readFile cfg stdin))
     = zeroResponseBody
  /\ (startup path_Join readFile cfg stdin
      = (mkState (Exited Fatal) [] zeroResponseBody stdin, [])
      \/ exists msgs,
           startup path_Join readFile cfg stdin
           = (mkState
                (if promptsFirst msgs then FirstPrompt else RemoteCall)
                msgs zeroResponseBody stdin,
              [displayInitScreen msgs (CfgModel cfg)
                 (toFloat32 (CfgTemperature cfg))]))
  /\ ((forall data,
         readFile (path_Join (InputDir cfg) (InputFile cfg))
         <> Contents data) ->
      startup path_Join readFile cfg stdin
      = (mkState (Exited Fatal) [] zeroResponseBody stdin, [])).
Proof.
  unfold startup.
  destruct (readFile (path_Join (InputDir cfg) (InputFile cfg)))
    as [| |data] eqn:Ef.
  - repeat split; auto.
  - repeat split; auto.
  - destruct (json.Unmarshal decodeMessagesIn data json.emptySlice)
      as [messagesIn err].
    destruct err.
    + repeat split; auto.
    + rewrite loadMessages_from_start.
      destruct (turnsOf path_Join readFile cfg (json.elems messagesIn))
        as [ms|].
      * repeat split; [right; now exists ms|].
        intros H. now destruct (H data).
      * repeat split; auto.
Qed.

End Invariants.

(** ** What a reply leaves of the previous one *)

(** A struct field that no member of the object selects keeps its old
    value. *)
Lemma decodeStruct_keeps {A B : Type} (field : string -> json.Dec A)
    (proj : A -> B) (members : list (string * json.Value)) :
  (forall kv a, In kv members ->
                proj (fst (field (fst kv) (snd kv) a)) = proj a) ->
  forall old,
    proj (fst (json.decodeStruct field (json.Object members) old))
    = proj old.
Proof.
  unfold json.decodeStruct. intros H old.
  change old with (fst (old, false)) at 2.
  generalize (old, false) as acc.
  induction members as [|kv members IH]; intros acc; [reflexivity|].
  cbn [fold_left]. rewrite IH.
  - destruct acc as [a e]. specialize (H kv a (or_introl eq_refl)).
    destruct (field (fst kv) (snd kv) a) as [a' e']. exact H.
  - intros kv' a Hin. apply H. now right.
Qed.

Lemma decodeResponseBody_lacks_choices
    (members : list (string * json.Value)) (old : ResponseBody) :
  lacks "choices" members = true ->
  Choices (fst (decodeResponseBody (json.Object members) old))
  = Choices old.
Proof.
  intros H. unfold decodeResponseBody. apply decodeStruct_keeps.
  intros kv a Hin. unfold lacks in H.
  rewrite forallb_forall in H. specialize (H kv Hin).
  apply negb_true_iff in H. unfold fieldResponseBody. rewrite H.
  destruct (json.fieldIs (fst kv) "usage"); [|reflexivity].
  now destruct (decodeUsage (snd kv) (UsageOf a)).
Qed.

Lemma decodeResponseBody_lacks_usage
    (members : list (string * json.Value)) (old : ResponseBody) :
  lacks "usage" members = true ->
  UsageOf (fst (decodeResponseBody (json.Object members) old))
  = UsageOf old.
Proof.
  intros H. unfold decodeResponseBody. apply decodeStruct_keeps.
  intros kv a Hin. unfold lacks in H.
  rewrite forallb_forall in H. specialize (H kv Hin).
  apply negb_true_iff in H. unfold fieldResponseBody. rewrite H.
  destruct (json.fieldIs (fst kv) "choices"); [|reflexivity].
  now destruct (json.decodeSlice decodeResponseChoice zeroResponseChoice
                  (snd kv) (Choices a)).
Qed.

Section Replies.

Variable path_Join : string -> string -> string.
Variable cfg : Config.

(** X9: a reply with status 200 whose body is a JSON object without a
    [choices] member, an error object for instance, is handled as if it
    repeated the choices of the reply before it: when an earlier reply
    of the session stored a choice, that message is appended to the
    Conversation again and shown as the answer; only when none is
    stored, as on the first call, is the Conversation left as it is and
    the reply reported as empty. *)
Theorem reply_without_choices_repeats_the_stored_choice
    (st : State) (env : Env) (body : string)
    (members : list (string * json.Value)) :
  control st = RemoteCall ->
  remote env = Response StatusOK body false ->
  json.parse body = Some (json.Object members) ->
  lacks "choices" members = true ->
  snd (json.Unmarshal decodeResponseBody body (responseBody st)) = false ->
  control (fst (step path_Join cfg st env)) = NextPrompt
  /\ messages (fst (step path_Join cfg st env))
     = messages st
         ++ match json.elems (Choices (responseBody st)) with
            | choice :: _ => [ChoiceMessage choice]
            | [] => []
            end
  /\ exists promptTokens completionTokens,
       snd (step path_Join cfg st env)
       = [requestOf cfg (messages st);
          match json.elems (Choices (responseBody st)) with
          | choice :: _ =>
              ShowReply (Content (ChoiceMessage choice)) promptTokens
                completionTokens
          | [] => ShowNoResponse body
          end].
Proof.
  intros Hc He Hp Hl Herr.
  unfold step. rewrite Hc. unfold remoteStep. rewrite He.
  change (negb (StatusOK =? StatusOK)%Z) with false. cbv iota.
  pose proof (decodeResponseBody_lacks_choices members (responseBody st) Hl)
    as K.
  unfold json.Unmarshal in *. rewrite Hp in *.
  destruct (decodeResponseBody (json.Object members) (responseBody st))
    as [rb err].
  cbn [fst snd] in *. subst err. rewrite K.
  destruct (json.elems (Choices (responseBody st))) as [|choice others].
  - cbn [fst snd control messages]. rewrite app_nil_r.
    split; [reflexivity|]. split; [reflexivity|]. now exists 0%Z, 0%Z.
  - cbn [fst snd control messages].
    split; [reflexivity|]. split; [reflexivity|].
    now exists (PromptTokens (UsageOf rb)), (CompletionTokens (UsageOf rb)).
Qed.

(** X10: the token counts shown under an answer are those of the
    latest reply that had a [usage] member: when a reply with a choice
    comes without one, the counts of an earlier reply are shown again
    (zero on the first call). *)
Theorem reply_without_usage_shows_the_stored_token_counts
    (st : State) (env : Env) (body : string)
    (members : list (string * json.Value)) (rb : ResponseBody)
    (choice : ResponseChoice) (others : list ResponseChoice) :
  control st = RemoteCall ->
  remote env = Response StatusOK body false ->
  json.parse body = Some (json.Object members) ->
  lacks "usage" members = true ->
  json.Unmarshal decodeResponseBody body (responseBody st) = (rb, false) ->
  json.elems (Choices rb) = choice :: others ->
  snd (step path_Join cfg st env)
  = [requestOf cfg (messages st);
     ShowReply (Content (ChoiceMessage choice))
       (PromptTokens (UsageOf (responseBody st)))
       (CompletionTokens (UsageOf (responseBody st)))].
Proof.
  intros Hc He Hp Hl Hu Hch.
  unfold step. rewrite Hc. unfold remoteStep. rewrite He.
  change (negb (StatusOK =? StatusOK)%Z) with false. cbv iota.
  rewrite Hu, Hch. cbn [snd].
  pose proof (decodeResponseBody_lacks_usage members (responseBody st) Hl)
    as K.
  unfold json.Unmarshal in Hu. rewrite Hp in Hu. rewrite Hu in K.
  cbn [fst] in K. now rewrite K.
Qed.

End Replies.

Lemma reply_without_choices_repeats_the_stored_choice_witness :
  json.parse (jsonText "{'error':'busy'}")
  = Some (json.Object [("error"%string, json.Str "busy")])
  /\ messages
       (fst (step joinSlash exampleConfig
               (mkState RemoteCall [ping; hi; ping]
                  (mkResponseBody (json.mkSlice [mkResponseChoice hi] [])
                     (mkUsage 3 1))
                  "")
               (replies "{'error':'busy'}")))
     = [ping; hi; ping; hi].
Proof.
  assert (Hp : json.parse (jsonText "{'error':'busy'}")
               = Some (json.Object [("error"%string, json.Str "busy")]))
    by (vm_compute; reflexivity).
  split; [exact Hp|].
  exact (proj1 (proj2 (reply_without_choices_repeats_the_stored_choice
                         joinSlash exampleConfig
                         (mkState RemoteCall [ping; hi; ping]
                            (mkResponseBody
                               (json.mkSlice [mkResponseChoice hi] [])
                               (mkUsage 3 1))
                            "")
                         (replies "{'error':'busy'}") _ _
                         eq_refl eq_refl Hp eq_refl
                         ltac:(vm_compute; reflexivity)))).
Defined.

Lemma reply_without_usage_shows_the_stored_token_counts_witness :
  lacks "usage"
    [("choices"%string,
      json.Array
        [json.Object
           [("message"%string,
             json.Object [("role"%string, json.Str "assistant");
                          ("content"%string, json.Str "ok")])]])]
  = true
  /\ snd (step joinSlash exampleConfig
            (mkState RemoteCall [ping]
               (mkResponseBody json.emptySlice (mkUsage 3 1)) "")
            (replies
               "{'choices':[{'message':{'role':'assistant','content':'ok'}}]}"))
     = [requestOf exampleConfig [ping]; ShowReply "ok" 3 1].
Proof.
  split; [reflexivity|].
  exact (reply_without_usage_shows_the_stored_token_counts
           joinSlash exampleConfig
           (mkState RemoteCall [ping]
              (mkResponseBody json.emptySlice (mkUsage 3 1)) "")
           (replies
              "{'choices':[{'message':{'role':'assistant','content':'ok'}}]}")
           _ _
           (mkResponseBody
              (json.mkSlice [mkResponseChoice (mkMessage ASSISTANT "ok")] [])
              (mkUsage 3 1))
           (mkResponseChoice (mkMessage ASSISTANT "ok")) []
           eq_refl eq_refl
           ltac:(vm_compute; reflexivity) eq_refl
           ltac:(vm_compute; reflexivity) eq_refl).
Defined.

Local Open Scope list_scope.
Local Open Scope string_scope.

(** ** What the encoder writes is valid UTF-8 without [<], [>] and [&] *)

Module encoding_facts.
Import utf8 json utf8_facts string_facts.

Lemma ASCII_no_error (b : ascii) (rest : string) :
  (b2n b <? RuneSelf)%N = true ->
  isError (DecodeRune (String b rest)) = false.
Proof.
  intros H. rewrite (DecodeRune_ASCII _ _ H). unfold isError. cbn [fst snd].
  apply N.ltb_lt in H. unfold RuneSelf in H.
  replace (b2n b =? RuneError)%N with false; [reflexivity|].
  symmetry. apply N.eqb_neq. unfold RuneError. lia.
Qed.

(** A decoding step that is no error consumes at least one byte. *)
Lemma DecodeRune_width (c : ascii) (s : string) :
  isError (DecodeRune (String c s)) = false ->
  (1 <= snd (DecodeRune (String c s)))%nat.
Proof.
  intros H. destruct (b2n c <? RuneSelf)%N eqn:Hc.
  - rewrite (DecodeRune_ASCII _ _ Hc). cbn [snd]. lia.
  - apply N.ltb_ge in Hc. unfold RuneSelf in Hc.
    destruct (DecodeRune_valid c s Hc H) as [bs [rest [_ [L [L1 _]]]]].
    lia.
Qed.

Lemma drop_length_le (n : nat) (s : string) :
  (length (drop n s) <= length s - n)%nat.
Proof.
  revert s. induction n as [|n IH]; intros [|c s]; cbn [drop length];
    try lia.
  specialize (IH s). lia.
Qed.

(** Fuel beyond the length of the string changes nothing. *)
Lemma validFrom_enough (f : nat) :
  forall s : string,
    validFrom f s = true ->
    forall f' : nat, (length s <= f')%nat -> validFrom f' s = true.
Proof.
  induction f as [|f IH]; intros s Hv f' Hl.
  - destruct s; [now destruct f' | discriminate Hv].
  - destruct s as [|c s]; [now destruct f'|].
    cbn [validFrom] in Hv. apply andb_true_iff in Hv as [He Hv].
    apply negb_true_iff in He.
    destruct f' as [|f']; [cbn [length] in Hl; lia|].
    cbn [validFrom]. rewrite He. cbn [negb andb].
    apply (IH _ Hv).
    pose proof (DecodeRune_width c s He) as W.
    pose proof (drop_length_le (snd (DecodeRune (String c s))) (String c s))
      as D.
    cbn [length] in *. lia.
Qed.

Lemma valid_ascii (b : ascii) (t : string) :
  (b2n b <? RuneSelf)%N = true ->
  (exists f, validFrom f t = true) ->
  exists f, validFrom f (String b t) = true.
Proof.
  intros Hb [f Hf]. exists (S f). cbn [validFrom].
  rewrite (ASCII_no_error _ _ Hb), (DecodeRune_ASCII _ _ Hb).
  cbn [negb andb snd drop]. exact Hf.
Qed.

Lemma valid_ascii_app (p t : string) :
  asciiOnly p = true ->
  (exists f, validFrom f t = true) ->
  exists f, validFrom f (p ++ t) = true.
Proof.
  induction p as [|c p IH]; intros Hp Ht; [exact Ht|].
  cbn [asciiOnly] in Hp. apply andb_true_iff in Hp as [Hc Hp].
  cbn [append]. apply valid_ascii; [exact Hc | now apply IH].
Qed.

(** The bytes of one decoded rune, in front of a valid string. *)
Lemma valid_rune (c0 : ascii) (p1 X : string) :
  (128 <= b2n c0)%N ->
  isError (DecodeRune (String c0 p1)) = false ->
  (exists f, validFrom f X = true) ->
  exists f,
    validFrom f (take (snd (DecodeRune (String c0 p1))) (String c0 p1) ++ X)
    = true.
Proof.
  intros H0 He [f Hf].
  destruct (DecodeRune_valid c0 p1 H0 He)
    as [bs [rest [E [L [L1 [_ [_ D]]]]]]].
  rewrite <- L, E, take_app_length.
  exists (S f). destruct bs as [|b bs]; [cbn [length] in L1; lia|].
  cbn [append validFrom].
  change (String b (bs ++ X)) with (String b bs ++ X).
  rewrite (D X), He, <- L, drop_app_length. exact Hf.
Qed.

Lemma escapeASCII_ascii (b : ascii) : asciiOnly (escapeASCII b) = true.
Proof. destruct b as [[] [] [] [] [] [] [] []]; reflexivity. Qed.

Lemma appendFrom_valid (fuel : nat) :
  forall s t : string,
    (exists f, validFrom f t = true) ->
    exists f, validFrom f (appendFrom fuel s ++ t) = true.
Proof.
  induction fuel as [|fuel IH]; intros s t Ht.
  - now destruct s.
  - destruct s as [|b rest]; [exact Ht|].
    cbn [appendFrom].
    destruct (b2n b <? RuneSelf)%N eqn:Hb.
    + destruct (htmlSafeSet b).
      * cbn [append]. apply valid_ascii; [exact Hb | now apply IH].
      * rewrite append_assoc. apply valid_ascii_app;
          [apply escapeASCII_ascii | now apply IH].
    + apply N.ltb_ge in Hb. unfold RuneSelf in Hb.
      destruct (isError (DecodeRune (String b rest))) eqn:He.
      * rewrite append_assoc. apply valid_ascii_app;
          [reflexivity | now apply IH].
      * destruct ((fst (DecodeRune (String b rest)) =? 0x2028)%N
                  || (fst (DecodeRune (String b rest)) =? 0x2029)%N)
          eqn:Hl.
        -- rewrite !append_assoc.
           apply valid_ascii_app; [reflexivity|].
           apply valid_ascii_app; [|now apply IH].
           apply orb_true_iff in Hl as [Hl | Hl];
             apply N.eqb_eq in Hl; rewrite Hl; reflexivity.
        -- rewrite append_assoc. apply valid_rune; [exact Hb | exact He|].
           now apply IH.
Qed.

Lemma appendString_valid (s t : string) :
  (exists f, validFrom f t = true) ->
  exists f, validFrom f (appendString s ++ t) = true.
Proof.
  intros Ht. unfold appendString. cbn [append]. rewrite append_assoc.
  apply valid_ascii; [reflexivity|].
  apply appendFrom_valid. cbn [append]. now apply valid_ascii.
Qed.

Lemma marshalMessage_valid (m : Message) (t : string) :
  (exists f, validFrom f t = true) ->
  exists f, validFrom f (marshalMessage m ++ t) = true.
Proof.
  intros Ht. unfold marshalMessage, NL.
  rewrite !append_assoc.
  apply (valid_ascii_app "{"); [reflexivity|].
  apply valid_ascii_app; [reflexivity|].
  apply valid_ascii_app; [reflexivity|].
  apply appendString_valid.
  apply valid_ascii_app; [reflexivity|].
  apply appendString_valid.
  apply valid_ascii_app; [reflexivity|].
  apply valid_ascii_app; [reflexivity|].
  apply valid_ascii_app; [reflexivity|].
  apply appendString_valid.
  apply valid_ascii_app; [reflexivity|].
  apply appendString_valid.
  apply valid_ascii_app; [reflexivity|].
  apply valid_ascii_app; [reflexivity|].
  exact Ht.
Qed.

Lemma marshalElems_valid (msgs : list Message) (t : string) :
  (exists f, validFrom f t = true) ->
  exists f, validFrom f (marshalElems msgs ++ t) = true.
Proof.
  intros Ht. induction msgs as [|m msgs IH]; [exact Ht|].
  destruct msgs as [|m' msgs].
  - change (marshalElems [m]) with (marshalMessage m).
    now apply marshalMessage_valid.
  - change (marshalElems (m :: m' :: msgs))
      with (marshalMessage m ++ "," ++ NL ++ "  "
            ++ marshalElems (m' :: msgs)).
    unfold NL. rewrite !append_assoc.
    apply marshalMessage_valid.
    apply valid_ascii_app; [reflexivity|].
    apply valid_ascii_app; [reflexivity|].
    apply valid_ascii_app; [reflexivity|].
    exact IH.
Qed.

Lemma MarshalIndent_valid (msgs : list Message) :
  ValidString (MarshalIndent msgs) = true.
Proof.
  assert (H : exists f, validFrom f (MarshalIndent msgs) = true).
  { destruct msgs as [|m msgs]; [now exists 2%nat|].
    unfold MarshalIndent, NL.
    apply (valid_ascii_app "["); [reflexivity|].
    apply valid_ascii_app; [reflexivity|].
    apply valid_ascii_app; [reflexivity|].
    apply marshalElems_valid.
    apply valid_ascii_app; [reflexivity|].
    now exists 1%nat. }
  destruct H as [f H]. unfold ValidString.
  apply (validFrom_enough f _ H). lia.
Qed.

(** What is read back from a transcript is valid UTF-8. *)
Lemma coerceFrom_is_valid (fuel : nat) :
  forall s : string, exists f, validFrom f (coerceFrom fuel s) = true.
Proof.
  induction fuel as [|fuel IH]; intros s.
  - destruct s; now exists 0%nat.
  - destruct s as [|b rest]; [now exists 0%nat|].
    cbn [coerceFrom].
    destruct (isError (DecodeRune (String b rest))) eqn:He.
    + change (EncodeRune RuneError)
        with (take (snd (DecodeRune (EncodeRune RuneError)))
                (EncodeRune RuneError)).
      apply (valid_rune (n2b 0xEF) (String (n2b 0xBF) (String (n2b 0xBD) "")));
        [vm_compute; discriminate | reflexivity | apply IH].
    + destruct (b2n b <? RuneSelf)%N eqn:Hb.
      * rewrite (DecodeRune_ASCII _ _ Hb). cbn [snd take drop append].
        apply valid_ascii; [exact Hb | apply IH].
      * apply N.ltb_ge in Hb. unfold RuneSelf in Hb.
        apply valid_rune; [exact Hb | exact He | apply IH].
Qed.

Lemma coerceUTF8_is_valid (s : string) : ValidString (coerceUTF8 s) = true.
Proof.
  destruct (coerceFrom_is_valid (length s) s) as [f H].
  unfold ValidString, coerceUTF8. apply (validFrom_enough f _ H). lia.
Qed.

Lemma coerceMessages_are_valid (msgs : list Message) :
  forallb validMessage (map coerceMessage msgs) = true.
Proof.
  induction msgs as [|m msgs IH]; [reflexivity|].
  cbn [map forallb]. rewrite IH, andb_true_r.
  unfold validMessage, coerceMessage. cbn [Role Content].
  now rewrite !coerceUTF8_is_valid.
Qed.

(** *** No byte that HTML gives a meaning *)

Section Free.

Variable c : ascii.
Hypothesis special : c = "<"%char \/ c = ">"%char \/ c = "&"%char.

Lemma safe_differs (b : ascii) :
  htmlSafeSet b = true -> Ascii.eqb b c = false.
Proof.
  unfold htmlSafeSet, isByte. intros H. apply negb_true_iff in H.
  apply orb_false_iff in H as [H H3].
  apply orb_false_iff in H as [H H2].
  apply orb_false_iff in H as [_ H1].
  destruct special as [-> | [-> | ->]]; assumption.
Qed.

Lemma escapeASCII_free (b : ascii) : contains (escapeASCII b) c = false.
Proof.
  destruct special as [-> | [-> | ->]];
    destruct b as [[] [] [] [] [] [] [] []]; reflexivity.
Qed.

Lemma highBytes_free (bs : string) :
  highBytes bs = true -> contains bs c = false.
Proof.
  induction bs as [|b bs IH]; [reflexivity|].
  cbn [highBytes contains]. intros H.
  apply andb_true_iff in H as [Hb H]. rewrite (IH H), orb_false_r.
  apply N.leb_le in Hb. apply Ascii.eqb_neq. intros ->.
  destruct special as [-> | [-> | ->]]; vm_compute in Hb;
    exact (Hb eq_refl).
Qed.

Lemma appendFrom_free (fuel : nat) :
  forall s : string, contains (appendFrom fuel s) c = false.
Proof.
  induction fuel as [|fuel IH]; intros s.
  - now destruct s.
  - destruct s as [|b rest]; [reflexivity|].
    cbn [appendFrom].
    destruct (b2n b <? RuneSelf)%N eqn:Hb.
    + destruct (htmlSafeSet b) eqn:Hs.
      * cbn [contains]. now rewrite (safe_differs _ Hs), IH.
      * now rewrite contains_app, escapeASCII_free, IH.
    + apply N.ltb_ge in Hb. unfold RuneSelf in Hb.
      destruct (isError (DecodeRune (String b rest))) eqn:He.
      * rewrite contains_app, IH, orb_false_r.
        destruct special as [-> | [-> | ->]]; reflexivity.
      * destruct ((fst (DecodeRune (String b rest)) =? 0x2028)%N
                  || (fst (DecodeRune (String b rest)) =? 0x2029)%N)
          eqn:Hl.
        -- rewrite !contains_app, IH, orb_false_r.
           apply orb_true_iff in Hl as [Hl | Hl];
             apply N.eqb_eq in Hl; rewrite Hl;
             destruct special as [-> | [-> | ->]]; reflexivity.
        -- rewrite contains_app, IH, orb_false_r.
           destruct (DecodeRune_valid b rest Hb He)
             as [bs [r [E [L [_ [Hh _]]]]]].
           rewrite <- L, E, take_app_length.
           now apply highBytes_free.
Qed.

Lemma appendString_free (s : string) :
  contains (appendString s) c = false.
Proof.
  unfold appendString. cbn [append contains].
  rewrite contains_app, appendFrom_free.
  destruct special as [-> | [-> | ->]]; reflexivity.
Qed.

Lemma marshalMessage_free (m : Message) :
  contains (marshalMessage m) c = false.
Proof.
  unfold marshalMessage, NL.
  rewrite !contains_app, !appendString_free.
  destruct special as [-> | [-> | ->]]; reflexivity.
Qed.

Lemma marshalElems_free (msgs : list Message) :
  contains (marshalElems msgs) c = false.
Proof.
  induction msgs as [|m msgs IH]; [reflexivity|].
  destruct msgs as [|m' msgs].
  - change (marshalElems [m]) with (marshalMessage m).
    apply marshalMessage_free.
  - change (marshalElems (m :: m' :: msgs))
      with (marshalMessage m ++ "," ++ NL ++ "  "
            ++ marshalElems (m' :: msgs)).
    unfold NL. rewrite !contains_app, marshalMessage_free, IH.
    destruct special as [-> | [-> | ->]]; reflexivity.
Qed.

Lemma MarshalIndent_free (msgs : list Message) :
  contains (MarshalIndent msgs) c = false.
Proof.
  destruct msgs as [|m msgs].
  - destruct special as [-> | [-> | ->]]; reflexivity.
  - unfold MarshalIndent, NL.
    rewrite !contains_app, marshalElems_free.
    destruct special as [-> | [-> | ->]]; reflexivity.
Qed.

End Free.

End encoding_facts.

(** X11: the text of a transcript is valid UTF-8 whatever bytes the
    Conversation holds, and it holds none of the bytes [<], [>] and [&]:
    the encoder writes them as escapes of six ASCII bytes, as it does a
    byte that is not valid UTF-8. *)
Theorem transcript_is_valid_utf8_without_html_bytes (msgs : list Message) :
  utf8.ValidString (MarshalIndent msgs) = true
  /\ contains (MarshalIndent msgs) "<" = false
  /\ contains (MarshalIndent msgs) ">" = false
  /\ contains (MarshalIndent msgs) "&" = false.
Proof.
  split; [apply encoding_facts.MarshalIndent_valid|].
  split; [apply encoding_facts.MarshalIndent_free; auto|].
  split; apply encoding_facts.MarshalIndent_free; auto.
Qed.

Local Open Scope string_scope.
Local Open Scope list_scope.

(** ** Transcripts and input files *)

(** X12: every transcript the program writes, whatever bytes the
    Conversation holds, is a JSON text that [json.Unmarshal] decodes
    without error into as many Turns as were written, in the same order,
    all of them valid UTF-8; a Turn whose role and content are valid
    UTF-8 is read back as it was, and in any other Turn each byte that
    starts no valid encoding has become the encoding of U+FFFD. *)
Theorem every_transcript_is_read_back (msgs : list Message) :
  exists msgs',
    json.Unmarshal decodeMessages (MarshalIndent msgs) json.emptySlice
    = (json.mkSlice msgs' [], false)
    /\ List.length msgs' = List.length msgs
    /\ forallb validMessage msgs' = true
    /\ forall i m,
         nth_error msgs i = Some m ->
         nth_error msgs' i = Some (coerceMessage m)
         /\ (validMessage m = true -> coerceMessage m = m).
Proof.
  exists (map coerceMessage msgs). split; [|split; [|split]].
  - apply transcript_facts.Unmarshal_MarshalIndent.
  - apply length_map.
  - apply encoding_facts.coerceMessages_are_valid.
  - intros i m Hi. split.
    + now rewrite nth_error_map, Hi.
    + apply transcript_facts.coerceMessage_valid.
Qed.

Lemma decodeMessageIn_tree (m : Message) (old : MessageIn) :
  decodeMessageIn (treeOfMessage m) old
  = (mkMessageIn (Role m) (Content m) (File old), false).
Proof. now destruct m. Qed.

Lemma decodeElems_MessageIn_trees (msgs : list Message) :
  json.decodeElems decodeMessageIn zeroMessageIn (map treeOfMessage msgs) []
  = (map (fun m => mkMessageIn (Role m) (Content m) "") msgs, [], false).
Proof.
  induction msgs as [|m msgs IH]; [reflexivity|].
  cbn [map json.decodeElems]. now rewrite decodeMessageIn_tree, IH.
Qed.

Lemma decodeMessagesIn_tree (msgs : list Message) :
  decodeMessagesIn (treeOfMessages msgs) json.emptySlice
  = (json.mkSlice (map (fun m => mkMessageIn (Role m) (Content m) "") msgs)
       [],
     false).
Proof.
  destruct msgs as [|m msgs]; [reflexivity|].
  unfold decodeMessagesIn, json.decodeSlice, treeOfMessages.
  cbn [map json.elems json.spare json.emptySlice app].
  change (treeOfMessage m :: map treeOfMessage msgs)
    with (map treeOfMessage (m :: msgs)).
  now rewrite decodeElems_MessageIn_trees.
Qed.

Lemma decodeElems_length {A : Type} (dec : json.Dec A) (zero : A)
    (vs : list json.Value) :
  forall pool,
    List.length (fst (fst (json.decodeElems dec zero vs pool)))
    = List.length vs.
Proof.
  induction vs as [|v vs IH]; intros pool; [reflexivity|].
  cbn [json.decodeElems].
  destruct pool as [|a pool].
  - destruct (dec v zero) as [a' e]. specialize (IH []).
    destruct (json.decodeElems dec zero vs []) as [[rest behind] e'].
    cbn [fst List.length] in *. now rewrite IH.
  - destruct (dec v a) as [a' e]. specialize (IH pool).
    destruct (json.decodeElems dec zero vs pool) as [[rest behind] e'].
    cbn [fst List.length] in *. now rewrite IH.
Qed.

Section Files.

Variable path_Join : string -> string -> string.
Variable readFile : string -> FileRead.
Variable cfg : Config.

Lemma turnsOf_transcript (msgs : list Message) :
  turnsOf path_Join readFile cfg
    (map (fun m => mkMessageIn (Role m) (Content m) "") msgs)
  = Some msgs.
Proof.
  induction msgs as [|m msgs IH]; [reflexivity|].
  cbn [map turnsOf]. rewrite IH.
  unfold turnOf, namesFile. cbn [InRole InContent File].
  rewrite String.eqb_refl, andb_false_r. now destruct m.
Qed.

(** X13: a transcript that [saveConversationLog] wrote can be given to
    a later session as its input file.  The session then starts with
    the Conversation that was saved (each byte that is not valid UTF-8
    replaced by U+FFFD, so the very same Conversation when it was valid
    UTF-8): the decoding reports no error, no prompt file is read, a
    system Turn included, and the banner and the first action follow
    from that Conversation. *)
Theorem saved_transcript_starts_a_session (msgs : list Message)
    (stdin : string) :
  readFile (path_Join (InputDir cfg) (InputFile cfg))
  = Contents (MarshalIndent msgs) ->
  startup path_Join readFile cfg stdin
  = (mkState
       (if promptsFirst (map coerceMessage msgs)
        then FirstPrompt else RemoteCall)
       (map coerceMessage msgs) zeroResponseBody stdin,
     [displayInitScreen (map coerceMessage msgs) (CfgModel cfg)
        (toFloat32 (CfgTemperature cfg))])
  /\ (forallb validMessage msgs = true ->
      messages (fst (startup path_Join readFile cfg stdin)) = msgs).
Proof.
  intros Hf.
  assert (S : startup path_Join readFile cfg stdin
              = (mkState
                   (if promptsFirst (map coerceMessage msgs)
                    then FirstPrompt else RemoteCall)
                   (map coerceMessage msgs) zeroResponseBody stdin,
                 [displayInitScreen (map coerceMessage msgs) (CfgModel cfg)
                    (toFloat32 (CfgTemperature cfg))])).
  { apply (startup_loaded path_Join readFile cfg stdin (MarshalIndent msgs)
             (json.mkSlice
                (map (fun m => mkMessageIn (Role m) (Content m) "")
                   (map coerceMessage msgs))
                [])).
    - exact Hf.
    - unfold json.Unmarshal.
      rewrite transcript_facts.parse_MarshalIndent.
      apply decodeMessagesIn_tree.
    - cbn [json.elems]. rewrite loadMessages_from_start.
      now rewrite turnsOf_transcript. }
  split; [exact S|].
  intros Hv. rewrite S. cbn [fst messages].
  now apply transcript_facts.coerceMessages_valid.
Qed.

(** X14: the loader keeps every element of the input array: when the
    session starts at all, the Conversation has exactly as many Turns
    as the array has elements, whatever these hold.  An element that is
    [null] or an object without a role is not skipped. *)
Theorem every_array_element_becomes_a_turn (stdin data : string)
    (vs : list json.Value) :
  readFile (path_Join (InputDir cfg) (InputFile cfg)) = Contents data ->
  json.parse data = Some (json.Array vs) ->
  snd (startup path_Join readFile cfg stdin) <> [] ->
  List.length (messages (fst (startup path_Join readFile cfg stdin)))
  = List.length vs.
Proof.
  intros Hf Hp. unfold startup. rewrite Hf.
  unfold json.Unmarshal. rewrite Hp.
  assert (L : List.length
                (json.elems
                   (fst (decodeMessagesIn (json.Array vs)
                           json.emptySlice)))
              = List.length vs).
  { unfold decodeMessagesIn, json.decodeSlice.
    destruct vs as [|v vs]; [reflexivity|].
    pose proof (decodeElems_length decodeMessageIn zeroMessageIn (v :: vs)
                  (json.elems json.emptySlice ++ json.spare json.emptySlice))
      as H.
    destruct (json.decodeElems decodeMessageIn zeroMessageIn (v :: vs) _)
      as [[es behind] e].
    exact H. }
  destruct (decodeMessagesIn (json.Array vs) json.emptySlice)
    as [messagesIn err].
  cbn [fst] in L.
  destruct err; [now intros H|].
  destruct (loadMessages path_Join readFile cfg (json.elems messagesIn) 0 [])
    as [msgs| |] eqn:El; try (now intros H).
  intros _. cbn [fst messages].
  destruct (loadMessages_Loaded path_Join readFile cfg _ _ El) as [Hlen _].
  now rewrite Hlen.
Qed.

End Files.

Lemma saved_transcript_starts_a_session_witness :
  exampleFiles (MarshalIndent [ping; cafe])
    (joinSlash (InputDir exampleConfig) (InputFile exampleConfig))
  = Contents (MarshalIndent [ping; cafe])
  /\ messages
       (fst (startup joinSlash (exampleFiles (MarshalIndent [ping; cafe]))
               exampleConfig ""))
     = [ping; cafe].
Proof.
  split; [reflexivity|].
  exact (proj2 (saved_transcript_starts_a_session joinSlash
                  (exampleFiles (MarshalIndent [ping; cafe])) exampleConfig
                  [ping; cafe] "" eq_refl)
               ltac:(vm_compute; reflexivity)).
Defined.

Lemma every_array_element_becomes_a_turn_witness :
  json.parse (jsonText "[null,{}]")
  = Some (json.Array [json.Null; json.Object []])
  /\ List.length
       (messages
          (fst (startup joinSlash (exampleFiles (jsonText "[null,{}]"))
                  exampleConfig "")))
     = 2.
Proof.
  assert (Hp : json.parse (jsonText "[null,{}]")
               = Some (json.Array [json.Null; json.Object []]))
    by (vm_compute; reflexivity).
  split; [exact Hp|].
  exact (every_array_element_becomes_a_turn joinSlash
           (exampleFiles (jsonText "[null,{}]")) exampleConfig ""
           (jsonText "[null,{}]") _ eq_refl Hp
           ltac:(vm_compute; discriminate)).
Defined.

(** ** The command line and the configuration *)

Module flag_facts.

Lemma parseFrom_cons (formal : list string) (s : string)
    (args : list string) (actual : list (string * string)) :
  flag.parseFrom formal (s :: args) actual
  = match flag.parseOne formal s with
    | flag.NotAFlag => flag.Parsed actual (s :: args)
    | flag.Terminator => flag.Parsed actual args
    | flag.BadSyntax => flag.Exit 2
    | flag.Help => flag.Exit 0
    | flag.NotDefined => flag.Exit 2
    | flag.Flag name (Some value) =>
        flag.parseFrom formal args (actual ++ [(name, value)])
    | flag.Flag name None =>
        match args with
        | value :: args' =>
            flag.parseFrom formal args' (actual ++ [(name, value)])
        | [] => flag.Exit 2
        end
    end.
Proof. reflexivity. Qed.

Ltac each_flag H :=
  unfold isDefined, flagNames in H; cbn [existsb] in H;
  repeat (apply orb_true_iff in H as [H | H];
          [apply String.eqb_eq in H; subst; reflexivity|]);
  discriminate H.

(** A defined flag, written with one dash or with two, without its
    value or with the value behind an equals sign. *)
Lemma parseOne_dash (name : string) :
  isDefined name = true ->
  flag.parseOne flagNames ("-" ++ name)%string = flag.Flag name None.
Proof. intros H. each_flag H. Qed.

Lemma parseOne_dashdash (name : string) :
  isDefined name = true ->
  flag.parseOne flagNames ("--" ++ name)%string = flag.Flag name None.
Proof. intros H. each_flag H. Qed.

Lemma parseOne_dash_equals (name value : string) :
  isDefined name = true ->
  flag.parseOne flagNames ("-" ++ name ++ "=" ++ value)%string
  = flag.Flag name (Some value).
Proof. intros H. each_flag H. Qed.

Lemma parseOne_dashdash_equals (name value : string) :
  isDefined name = true ->
  flag.parseOne flagNames ("--" ++ name ++ "=" ++ value)%string
  = flag.Flag name (Some value).
Proof. intros H. each_flag H. Qed.

Lemma parseFrom_spell (sp : Spelling) (name value : string)
    (args : list string) (actual : list (string * string)) :
  isDefined name = true ->
  flag.parseFrom flagNames (spell sp name value ++ args) actual
  = flag.parseFrom flagNames args (actual ++ [(name, value)]).
Proof.
  intros H. destruct sp; cbn [spell app]; rewrite parseFrom_cons.
  - now rewrite (parseOne_dash _ H).
  - now rewrite (parseOne_dash_equals _ _ H).
  - now rewrite (parseOne_dashdash _ H).
  - now rewrite (parseOne_dashdash_equals _ _ H).
Qed.

Lemma parseFrom_spellAll (flags : list (Spelling * (string * string)))
    (args : list string) :
  forallb (fun f => isDefined (fst (snd f))) flags = true ->
  forall actual,
    flag.parseFrom flagNames (spellAll flags ++ args) actual
    = flag.parseFrom flagNames args (actual ++ map snd flags).
Proof.
  induction flags as [|[sp [name value]] flags IH]; intros H actual.
  - cbn. now rewrite app_nil_r.
  - cbn [forallb fst snd] in H. apply andb_true_iff in H as [Hd H].
    cbn [spellAll map snd]. rewrite <- app_assoc.
    rewrite (parseFrom_spell _ _ _ _ _ Hd), (IH H), <- app_assoc.
    reflexivity.
Qed.

Lemma Parse_spellAll (flags : list (Spelling * (string * string)))
    (args : list string) :
  forallb (fun f => isDefined (fst (snd f))) flags = true ->
  flag.Parse flagNames (spellAll flags ++ args)
  = flag.parseFrom flagNames args (map snd flags).
Proof.
  intros H. unfold flag.Parse. now rewrite (parseFrom_spellAll _ _ H).
Qed.

Lemma Parse_flags (flags : list (Spelling * (string * string))) :
  forallb (fun f => isDefined (fst (snd f))) flags = true ->
  flag.Parse flagNames (spellAll flags) = flag.Parsed (map snd flags) [].
Proof.
  intros H. rewrite <- (app_nil_r (spellAll flags)).
  now rewrite (Parse_spellAll _ _ H).
Qed.


Lemma value_absent (flags : list (Spelling * (string * string)))
    (name : string) :
  given name flags = false ->
  forall default, flag.value (map snd flags) name default = default.
Proof.
  unfold given.
  induction flags as [|[sp [n v]] flags IH]; intros H default;
    [reflexivity|].
  cbn [existsb fst snd] in H. apply orb_false_iff in H as [Hn H].
  cbn [map snd flag.value]. rewrite Hn. now apply IH.
Qed.



Lemma parseOne_positional (formal : list string) (s : string) :
  positional s = true -> flag.parseOne formal s = flag.NotAFlag.
Proof.
  unfold positional, flag.parseOne.
  destruct s as [|c0 [|c1 r]]; try reflexivity.
  intros H. now rewrite H.
Qed.

End flag_facts.

(** X15: a flag that [loadConfig] defines is read in each of its four
    spellings, with one dash or two and with its value as the next
    argument or behind an equals sign; the value is taken as it stands,
    even when it is empty or begins with a dash.  A command line made of
    such flags is read to its end, every flag in its order. *)
Theorem flags_are_read_in_every_spelling
    (flags : list (Spelling * (string * string))) :
  forallb (fun f => isDefined (fst (snd f))) flags = true ->
  flag.Parse flagNames (spellAll flags) = flag.Parsed (map snd flags) [].
Proof. apply flag_facts.Parse_flags. Qed.

Lemma flags_are_read_in_every_spelling_witness :
  spellAll [(Dash, ("model", "--url")); (DashDashEquals, ("url", "a=b"));
            (DashEquals, ("model", "")); (DashDash, ("input", "x.json"))]
  = ["-model"; "--url"; "--url=a=b"; "-model="; "--input"; "x.json"]%string
  /\ flag.Parse flagNames
       (spellAll
          [(Dash, ("model", "--url")); (DashDashEquals, ("url", "a=b"));
           (DashEquals, ("model", "")); (DashDash, ("input", "x.json"))])
     = flag.Parsed
         [("model", "--url"); ("url", "a=b"); ("model", "");
          ("input", "x.json")]%string
         [].
Proof.
  split; [reflexivity|].
  exact (flags_are_read_in_every_spelling
           [(Dash, ("model", "--url")); (DashDashEquals, ("url", "a=b"));
            (DashEquals, ("model", "")); (DashDash, ("input", "x.json"))]%string
           eq_refl).
Defined.

Lemma loadConfig_spellAll (dotenvError : bool) (Getenv : string -> string)
    (ParseFloat : string -> option float)
    (flags : list (Spelling * (string * string))) (cfg : Config) :
  forallb (fun f => isDefined (fst (snd f))) flags = true ->
  snd (loadConfig dotenvError Getenv ParseFloat (spellAll flags))
  = ConfigOk cfg ->
  APIKey cfg
  = flag.value (map snd flags) "api-key" (Getenv "LLM_PROVIDER_KEY")
  /\ CfgModel cfg = flag.value (map snd flags) "model" (Getenv "LLM_MODEL")
  /\ URL cfg
     = flag.value (map snd flags) "url" (Getenv "CHAT_COMPLETION_URL")
  /\ CfgTemperature cfg
     = match ParseFloat
               (flag.value (map snd flags) "temperature"
                  (Getenv "TEMPERATURE"))
       with
       | Some temperature => temperature
       | None => defaultTemperature
       end
  /\ InputFile cfg = flag.value (map snd flags) "input" defaultInputFile
  /\ InputDir cfg
     = flag.value (map snd flags) "input-dir" defaultInputBaseDir
  /\ PromptsDir cfg
     = flag.value (map snd flags) "prompts-dir" defaultPromptsBaseDir
  /\ LogsDir cfg = flag.value (map snd flags) "logs-dir" defaultLogsBaseDir.
Proof.
  intros H. unfold loadConfig.
  rewrite (flag_facts.Parse_flags flags H).
  cbv zeta.
  destruct (String.eqb (flag.value (map snd flags) "api-key" _) "");
    [discriminate|].
  destruct (String.eqb (flag.value (map snd flags) "model" _) "");
    [discriminate|].
  destruct (String.eqb (flag.value (map snd flags) "url" _) "");
    [discriminate|].
  destruct (ParseFloat _); cbn [snd]; intros [= <-]; now repeat split.
Qed.

Lemma loadConfig_nonempty (dotenvError : bool) (Getenv : string -> string)
    (ParseFloat : string -> option float) (args : list string)
    (cfg : Config) :
  snd (loadConfig dotenvError Getenv ParseFloat args) = ConfigOk cfg ->
  APIKey cfg <> ""%string /\ CfgModel cfg <> ""%string
  /\ URL cfg <> ""%string.
Proof.
  unfold loadConfig.
  destruct (flag.Parse flagNames args) as [actual rest|status];
    [|discriminate].
  cbv zeta.
  destruct (String.eqb (flag.value actual "api-key" _) "") eqn:E1;
    [discriminate|].
  destruct (String.eqb (flag.value actual "model" _) "") eqn:E2;
    [discriminate|].
  destruct (String.eqb (flag.value actual "url" _) "") eqn:E3;
    [discriminate|].
  apply String.eqb_neq in E1, E2, E3.
  destruct (ParseFloat _); cbn [snd]; intros [= <-]; now repeat split.
Qed.


(** X17: the temperature never makes [loadConfig] fail.  Whatever
    [strconv.ParseFloat] makes of the text, a configuration is returned
    with the same key, model, URL, files and directories; its temperature
    is the parsed number, or 0 when the text does not parse, an empty
    text included, and then a warning that names the text is logged. *)
Theorem temperature_never_fails_loading (dotenvError : bool)
    (Getenv : string -> string) (ParseFloat : string -> option float)
    (args : list string) (cfg : Config) :
  snd (loadConfig dotenvError Getenv ParseFloat args) = ConfigOk cfg ->
  (exists temperatureStr,
     match ParseFloat temperatureStr with
     | Some temperature =>
         CfgTemperature cfg = temperature
         /\ fst (loadConfig false Getenv ParseFloat args) = []
     | None =>
         CfgTemperature cfg = defaultTemperature
         /\ fst (loadConfig false Getenv ParseFloat args)
            = [WarnTemperature temperatureStr]
     end)
  /\ forall ParseFloat' : string -> option float,
       exists temperature,
         snd (loadConfig dotenvError Getenv ParseFloat' args)
         = ConfigOk
             (mkConfig (APIKey cfg) (CfgModel cfg) (URL cfg) temperature
                (InputFile cfg) (InputDir cfg) (PromptsDir cfg)
                (LogsDir cfg)).
Proof.
  unfold loadConfig.
  destruct (flag.Parse flagNames args) as [actual rest|status];
    [|discriminate].
  cbv zeta.
  destruct (String.eqb (flag.value actual "api-key" _) "");
    [discriminate|].
  destruct (String.eqb (flag.value actual "model" _) "");
    [discriminate|].
  destruct (String.eqb (flag.value actual "url" _) "");
    [discriminate|].
  set (t := flag.value actual "temperature" (Getenv "TEMPERATURE")).
  destruct (ParseFloat t) as [x|] eqn:Et; cbn [snd]; intros [= <-];
    cbn [APIKey CfgModel URL CfgTemperature InputFile InputDir PromptsDir
         LogsDir].
  - split.
    + exists t. rewrite Et. now split.
    + intros PF'. destruct (PF' t) as [y|]; now eexists.
  - split.
    + exists t. rewrite Et. now split.
    + intros PF'. destruct (PF' t) as [y|]; now eexists.
Qed.



(** X19: a setting that no flag of the command line names comes from
    the environment, for the key, the model, the URL and the temperature,
    or is the built-in default, for the input file and the three
    directories. *)
Theorem settings_default_to_environment (dotenvError : bool)
    (Getenv : string -> string) (ParseFloat : string -> option float)
    (flags : list (Spelling * (string * string))) (cfg : Config) :
  forallb (fun f => isDefined (fst (snd f))) flags = true ->
  snd (loadConfig dotenvError Getenv ParseFloat (spellAll flags))
  = ConfigOk cfg ->
  (given "api-key" flags = false -> APIKey cfg = Getenv "LLM_PROVIDER_KEY")
  /\ (given "model" flags = false -> CfgModel cfg = Getenv "LLM_MODEL")
  /\ (given "url" flags = false -> URL cfg = Getenv "CHAT_COMPLETION_URL")
  /\ (given "temperature" flags = false ->
      CfgTemperature cfg
      = match ParseFloat (Getenv "TEMPERATURE") with
        | Some temperature => temperature
        | None => defaultTemperature
        end)
  /\ (given "input" flags = false -> InputFile cfg = "messages.json"%string)
  /\ (given "input-dir" flags = false -> InputDir cfg = "input"%string)
  /\ (given "prompts-dir" flags = false -> PromptsDir cfg = "prompts"%string)
  /\ (given "logs-dir" flags = false -> LogsDir cfg = "logs"%string).
Proof.
  intros Hf Hc.
  destruct (loadConfig_spellAll _ _ _ _ _ Hf Hc)
    as [C1 [C2 [C3 [C4 [C5 [C6 [C7 C8]]]]]]].
  repeat split; intros G.
  - now rewrite C1, (flag_facts.value_absent _ _ G).
  - now rewrite C2, (flag_facts.value_absent _ _ G).
  - now rewrite C3, (flag_facts.value_absent _ _ G).
  - now rewrite C4, (flag_facts.value_absent _ _ G).
  - now rewrite C5, (flag_facts.value_absent _ _ G).
  - now rewrite C6, (flag_facts.value_absent _ _ G).
  - now rewrite C7, (flag_facts.value_absent _ _ G).
  - now rewrite C8, (flag_facts.value_absent _ _ G).
Qed.

(** X20: the command line is read only up to its first argument that
    is no flag (one that is empty, a lone dash, or does not begin with a
    dash) or up to the terminator [--]; that argument and everything
    behind it, flags included, has no effect on the configuration. *)
Theorem arguments_behind_a_positional_are_ignored (dotenvError : bool)
    (Getenv : string -> string) (ParseFloat : string -> option float)
    (flags : list (Spelling * (string * string))) (s : string)
    (rest : list string) :
  forallb (fun f => isDefined (fst (snd f))) flags = true ->
  positional s = true \/ s = "--"%string ->
  loadConfig dotenvError Getenv ParseFloat (spellAll flags ++ s :: rest)
  = loadConfig dotenvError Getenv ParseFloat (spellAll flags).
Proof.
  intros Hf Hs. unfold loadConfig.
  rewrite (flag_facts.Parse_flags _ Hf), (flag_facts.Parse_spellAll _ _ Hf).
  rewrite flag_facts.parseFrom_cons.
  destruct Hs as [Hs | ->].
  - now rewrite (flag_facts.parseOne_positional _ _ Hs).
  - reflexivity.
Qed.


(** ** The requests of the process *)

Section Requests.

Variable path_Join : string -> string -> string.
Variable readFile : string -> FileRead.
Variable cfg : Config.

Ltac only_post :=
  cbn [In]; intros H;
  repeat (destruct H as [H | H]; [try discriminate H|]);
  try contradiction;
  try (injection H as <- <- <-; repeat split; now eexists).

Lemma promptStep_sends_nothing (first : bool) (st : State) (env : Env)
    (url apiKey : string) (p : RequestPayload) :
  ~ In (Post url apiKey p) (snd (promptStep path_Join cfg first st env)).
Proof.
  unfold promptStep.
  destruct (readUserInput (reader st)) as [[line|] rest].
  - destruct (String.eqb line "/quit!"); [now only_post|].
    destruct (String.eqb line "/quit"); [|now only_post].
    unfold saveConversationLog.
    destruct (mkdirAllOk env), (writeFileOk env); cbn [negb snd app];
      now only_post.
  - destruct first; now only_post.
Qed.

Lemma remoteStep_sends (st : State) (env : Env)
    (url apiKey : string) (p : RequestPayload) :
  In (Post url apiKey p) (snd (remoteStep cfg st env)) ->
  url = URL cfg /\ apiKey = APIKey cfg
  /\ Model p = CfgModel cfg
  /\ Temperature p = toFloat32 (CfgTemperature cfg).
Proof.
  unfold remoteStep.
  destruct (remote env) as [| | |status body readError];
    try (cbn [snd]; now only_post).
  destruct (negb (status =? StatusOK)%Z); [cbn [snd]; now only_post|].
  destruct readError; [cbn [snd]; now only_post|].
  destruct (json.Unmarshal decodeResponseBody body (responseBody st))
    as [rb err].
  destruct err; [cbn [snd]; now only_post|].
  destruct (json.elems (Choices rb)); cbn [snd]; now only_post.
Qed.

Lemma run_sends (envs : list Env) :
  forall (st : State) (url apiKey : string) (p : RequestPayload),
    In (Post url apiKey p) (snd (run path_Join cfg st envs)) ->
    url = URL cfg /\ apiKey = APIKey cfg
    /\ Model p = CfgModel cfg
    /\ Temperature p = toFloat32 (CfgTemperature cfg).
Proof.
  induction envs as [|env envs IH]; intros st url apiKey p;
    [contradiction|].
  cbn [run].
  assert (S1 : In (Post url apiKey p) (snd (step path_Join cfg st env)) ->
               url = URL cfg /\ apiKey = APIKey cfg
               /\ Model p = CfgModel cfg
               /\ Temperature p = toFloat32 (CfgTemperature cfg)).
  { unfold step. destruct (control st).
    - intros H. now destruct (promptStep_sends_nothing _ _ _ _ _ _ H).
    - apply remoteStep_sends.
    - intros H. now destruct (promptStep_sends_nothing _ _ _ _ _ _ H).
    - contradiction. }
  destruct (step path_Join cfg st env) as [st1 ev1].
  specialize (IH st1 url apiKey p).
  destruct (run path_Join cfg st1 envs) as [st2 ev2].
  cbn [snd] in *. intros H. apply in_app_or in H as [H | H]; auto.
Qed.

Lemma main_sends (stdin : string) (envs : list Env)
    (url apiKey : string) (p : RequestPayload) :
  In (Post url apiKey p) (snd (main path_Join readFile cfg stdin envs)) ->
  url = URL cfg /\ apiKey = APIKey cfg
  /\ Model p = CfgModel cfg
  /\ Temperature p = toFloat32 (CfgTemperature cfg).
Proof.
  unfold main.
  pose proof (startup_shows path_Join readFile cfg stdin) as S.
  destruct (startup path_Join readFile cfg stdin) as [st0 ev0].
  pose proof (run_sends envs st0 url apiKey p) as R.
  destruct (run path_Join cfg st0 envs) as [st ev].
  cbn [snd] in *. intros H. apply in_app_or in H as [H | H]; [|now apply R].
  destruct S as [-> | [msgs ->]]; [contradiction|].
  destruct H as [H | []].
  unfold displayInitScreen in H.
  destruct (countRoles msgs 0 0 0) as [[? ?] ?]. discriminate H.
Qed.

End Requests.

(** X22: whatever the command line, the environment, the input and the
    remote are, every request the process sends goes to the URL, with
    the key, for the model and with the temperature that [loadConfig]
    returned, the same from the first request to the last, and the URL,
    the key and the model are never empty. *)
Theorem every_request_uses_the_configuration (dotenvError : bool)
    (Getenv : string -> string) (ParseFloat : string -> option float)
    (path_Join : string -> string -> string) (readFile : string -> FileRead)
    (args : list string) (stdin : string) (envs : list Env) :
  match program dotenvError Getenv ParseFloat path_Join readFile args stdin
          envs
  with
  | Session st events =>
      exists cfg,
        snd (loadConfig dotenvError Getenv ParseFloat args) = ConfigOk cfg
        /\ forall url apiKey p,
             In (Post url apiKey p) events ->
             url = URL cfg /\ apiKey = APIKey cfg
             /\ Model p = CfgModel cfg
             /\ Temperature p = toFloat32 (CfgTemperature cfg)
             /\ url <> ""%string /\ apiKey <> ""%string
             /\ Model p <> ""%string
  | ExitedInFlags status =>
      snd (loadConfig dotenvError Getenv ParseFloat args) = ConfigExit status
  | FatalConfiguration err =>
      snd (loadConfig dotenvError Getenv ParseFloat args) = ConfigErr err
  end.
Proof.
  unfold program.
  destruct (snd (loadConfig dotenvError Getenv ParseFloat args))
    as [cfg|err|status] eqn:E; try reflexivity.
  pose proof (main_sends path_Join readFile cfg stdin envs) as M.
  destruct (main path_Join readFile cfg stdin envs) as [st events].
  exists cfg. split; [reflexivity|].
  intros url apiKey p Hin.
  destruct (M url apiKey p Hin) as [-> [-> [Hm Ht]]].
  destruct (loadConfig_nonempty _ _ _ _ _ E) as [K1 [K2 K3]].
  rewrite Hm. now repeat split.
Qed.

(** ** The further properties at concrete inputs *)

(** The endpoint cannot be reached twice while [/quit] waits in the
    input. *)
Lemma failing_endpoint_is_called_again_without_a_prompt_witness :
  forallb (fun env => noReply (remote env)) [unreachable; unreachable] = true
  /\ fst (run joinSlash exampleConfig
            (mkState RemoteCall [ping] zeroResponseBody
               ("/quit" ++ String LF "")%string)
            [unreachable; unreachable])
     = mkState RemoteCall [ping] zeroResponseBody
         ("/quit" ++ String LF "")%string.
Proof.
  split; [reflexivity|].
  exact (proj1 (failing_endpoint_is_called_again_without_a_prompt
                  joinSlash exampleConfig [unreachable; unreachable]
                  (mkState RemoteCall [ping] zeroResponseBody
                     ("/quit" ++ String LF "")%string)
                  eq_refl eq_refl)).
Defined.


(** An empty line is sent as an empty user Turn. *)
Lemma typed_line_is_sent_verbatim_witness :
  contains "" LF = false
  /\ posted
       (snd (run joinSlash exampleConfig
               (mkState NextPrompt [ping; hi] zeroResponseBody
                  (String LF ""))
               [unreachable; unreachable]))
     = [mkRequestPayload (CfgModel exampleConfig)
          ([ping; hi] ++ [mkMessage USER ""])
          (toFloat32 (CfgTemperature exampleConfig))].
Proof.
  split; [reflexivity|].
  exact (proj2 (typed_line_is_sent_verbatim joinSlash exampleConfig
                  NextPrompt [ping; hi] zeroResponseBody "" ""
                  unreachable unreachable
                  (or_intror eq_refl) eq_refl
                  ltac:(discriminate) ltac:(discriminate)
                  ltac:(discriminate) ltac:(discriminate))).
Defined.

Lemma temperature_never_fails_loading_witness :
  snd (loadConfig false exampleGetenv exampleParseFloat
         ["--temperature"; "warm"]%string)
  = ConfigOk
      (mkConfig "secret" "org/model" "http://localhost:8080"
         defaultTemperature "messages.json" "input" "prompts" "logs")
  /\ exists temperature,
       snd (loadConfig false exampleGetenv (fun _ => Some 1%float)
              ["--temperature"; "warm"]%string)
       = ConfigOk
           (mkConfig "secret" "org/model" "http://localhost:8080"
              temperature "messages.json" "input" "prompts" "logs").
Proof.
  split; [reflexivity|].
  exact (proj2 (temperature_never_fails_loading false exampleGetenv
                  exampleParseFloat ["--temperature"; "warm"]%string
                  (mkConfig "secret" "org/model" "http://localhost:8080"
                     defaultTemperature "messages.json" "input" "prompts"
                     "logs")
                  eq_refl)
               (fun _ => Some 1%float)).
Defined.


Lemma settings_default_to_environment_witness :
  given "api-key" [(Dash, ("model", "m"))]%string = false
  /\ APIKey
       (mkConfig "secret" "m" "http://localhost:8080" defaultTemperature
          "messages.json" "input" "prompts" "logs")
     = exampleGetenv "LLM_PROVIDER_KEY".
Proof.
  split; [reflexivity|].
  exact (proj1 (settings_default_to_environment false exampleGetenv
                  exampleParseFloat [(Dash, ("model", "m"))]%string
                  (mkConfig "secret" "m" "http://localhost:8080"
                     defaultTemperature "messages.json" "input" "prompts"
                     "logs")
                  eq_refl eq_refl)
               eq_refl).
Defined.

(** A word in front of a flag hides the flag. *)
Lemma arguments_behind_a_positional_are_ignored_witness :
  positional "chat" = true
  /\ loadConfig false exampleGetenv exampleParseFloat
       (spellAll [(Dash, ("model", "m"))] ++ ["chat"; "--model"; "x"])
     = loadConfig false exampleGetenv exampleParseFloat
         (spellAll [(Dash, ("model", "m"))]).
Proof.
  split; [reflexivity|].
  exact (arguments_behind_a_positional_are_ignored false exampleGetenv
           exampleParseFloat [(Dash, ("model", "m"))]%string "chat"
           ["--model"; "x"]%string eq_refl (or_introl eq_refl)).
Defined.

